(** * dokyon/ai-avatar-system: the video-generation pipeline

    A shallow embedding of the orchestration code of the repository:
    - the script validator, [src/utils/validation.ts];
    - the retry helper, [utils/retry] (src/unnamed/part_010), and the error
      class, [types/errors] (src/unnamed/part_008);
    - the progress model, [src/types/progress.ts], and the synchronous
      service that reports it, [src/services/videoGenerationService.ts];
    - the D-ID client, [src/services/did-video.service.ts], the in-memory
      [DatabaseService] and the orchestrator that uses both,
      [src/services/video-generation.service.ts];
    - the background generation route with its fallback avatars and its
      polling loop (src/unnamed/part_005), its earlier version, and the
      [videos] table they update, as the schema of the repository defines it
      (src/supabase/migrations).

    Conventions.
    - A promise is modelled by its settlement, [Outcome]: [Resolved v] or
      [Rejected e], where [e : Thrown] keeps what the [catch] clauses of the
      code inspect ([instanceof VideoGenerationError], [instanceof Error],
      truthiness). An [async] function is a function from the world before
      the call to its settlement and the world after it, [Async].
    - What lies outside the code (remote services, the clock, callbacks, the
      database server, built-ins of the platform such as
      [String.prototype.toLowerCase]) is a parameter: either a state-passing
      operation over an abstract state, or an oracle giving the reply to the
      n-th request. The worlds record the request counters and the timer
      delays that were awaited.
    - A bounded loop is a recursion over the values its counter still has
      to take.
    - A script is a JavaScript string, that is a list of UTF-16 code units
      ([list N]); [length] is then the [.length] of the source. Messages,
      ids and URLs are byte strings. *)

From Stdlib Require Import ZArith Lia.
From stdpp Require Import base option list list_numbers strings pretty gmap.

(** ** JavaScript values that the code inspects *)

Module Js.

(** [ApiErrorType] of [types/errors.ts]. *)
Inductive ApiErrorType :=
| OPENAI_ERROR | DID_ERROR | CREDIT_INSUFFICIENT
| VALIDATION_ERROR | NETWORK_ERROR | UNKNOWN_ERROR.

(** [class VideoGenerationError extends Error]; the wrapped original error is
    kept by its message. *)
Record VideoGenerationError := mkVGE {
  message : string;
  type : ApiErrorType;
  originalError : option string;
  retryable : bool
}.

(** What a [throw] can carry, as far as the handlers of the code look: a
    [VideoGenerationError], another [Error] (by its message), or a value that
    is no [Error] (by its truthiness and its [String(...)] conversion). *)
Inductive Thrown :=
| ThrowVGE (e : VideoGenerationError)
| ThrowError (msg : string)
| ThrowValue (truthy : bool) (text : string).

Inductive Outcome (T : Type) :=
| Resolved (v : T)
| Rejected (e : Thrown).
Arguments Resolved {T} v.
Arguments Rejected {T} e.

(** [error instanceof VideoGenerationError && error.retryable] *)
Definition isRetryableVGE (error : Thrown) : bool :=
  match error with
  | ThrowVGE e => retryable e
  | _ => false
  end.

(** [error instanceof VideoGenerationError && !error.retryable] *)
Definition isNonRetryableVGE (error : Thrown) : bool :=
  match error with
  | ThrowVGE e => negb (retryable e)
  | _ => false
  end.

(** Truthiness of a thrown value: every object is truthy. *)
Definition truthy (error : Thrown) : bool :=
  match error with
  | ThrowVGE _ | ThrowError _ => true
  | ThrowValue b _ => b
  end.

(** Truthiness of an optional string ([undefined] and [''] are falsy). *)
Definition truthyStr (s : option string) : bool :=
  match s with
  | Some s => negb (String.eqb s "")
  | None => false
  end.

(** [s || dflt] on an optional string. *)
Definition orElse (s : option string) (dflt : string) : string :=
  if truthyStr s then default dflt s else dflt.

(** [error instanceof Error ? error.message : dflt] *)
Definition messageOr (dflt : string) (error : Thrown) : string :=
  match error with
  | ThrowVGE e => message e
  | ThrowError msg => msg
  | ThrowValue _ _ => dflt
  end.

Fixpoint startsWith (p s : string) : bool :=
  match p, s with
  | EmptyString, _ => true
  | String a p', String b s' => Ascii.eqb a b && startsWith p' s'
  | String _ _, EmptyString => false
  end.

(** [String.prototype.includes] *)
Fixpoint includes (needle s : string) : bool :=
  startsWith needle s ||
  match s with
  | EmptyString => false
  | String _ s' => includes needle s'
  end.

(** [ERROR_MESSAGES] of [types/errors.ts]. *)
Definition ERROR_MESSAGES (t : ApiErrorType) : string :=
  match t with
  | OPENAI_ERROR => "OpenAI APIでエラーが発生しました。しばらく時間をおいて再度お試しください。"
  | DID_ERROR => "D-ID APIでエラーが発生しました。動画生成に失敗しました。"
  | CREDIT_INSUFFICIENT => "クレジットが不足しています。プランをアップグレードするか、クレジットを追加してください。"
  | VALIDATION_ERROR => "入力内容に問題があります。内容を確認して再度お試しください。"
  | NETWORK_ERROR => "ネットワークエラーが発生しました。接続を確認して再度お試しください。"
  | UNKNOWN_ERROR => "予期しないエラーが発生しました。しばらく時間をおいて再度お試しください。"
  end.

(** An [async] computation over a world [W]: it settles and leaves a world. *)
Definition Async (W A : Type) : Type := W -> Outcome A * W.

Definition ret {W A} (a : A) : Async W A := fun w => (Resolved a, w).

Definition throw {W A} (e : Thrown) : Async W A := fun w => (Rejected e, w).

Definition bind {W A B} (m : Async W A) (k : A -> Async W B) : Async W B :=
  fun w =>
    match m w with
    | (Resolved a, w') => k a w'
    | (Rejected e, w') => (Rejected e, w')
    end.

(** [try { m } catch (error) { handler error }] *)
Definition tryCatch {W A} (m : Async W A) (handler : Thrown -> Async W A) : Async W A :=
  fun w =>
    match m w with
    | (Resolved a, w') => (Resolved a, w')
    | (Rejected e, w') => handler e w'
    end.

Notation "'let!' x ':=' m 'in' k" := (bind m (fun x => k))
  (at level 10, x name, m at level 100, k at level 200).
Notation "'do!' m 'in' k" := (bind m (fun _ => k))
  (at level 10, m at level 100, k at level 200).

End Js.

Import Js.

(** ** utils/validation.ts *)

Module Validation.

Definition MAX_SCRIPT_LENGTH : nat := 5000.

Record ValidationResult := mkValidationResult {
  isValid : bool;
  errors : list string
}.

(** WhiteSpace and LineTerminator code points of ECMAScript, the characters
    [String.prototype.trim] strips; all of them are single code units. *)
Definition isWhiteSpace (c : N) : bool :=
  bool_decide (c ∈ [0x9; 0xA; 0xB; 0xC; 0xD; 0x20; 0xA0; 0x1680;
                    0x2000; 0x2001; 0x2002; 0x2003; 0x2004; 0x2005;
                    0x2006; 0x2007; 0x2008; 0x2009; 0x200A; 0x2028;
                    0x2029; 0x202F; 0x205F; 0x3000; 0xFEFF]%N).

Fixpoint trimStart (s : list N) : list N :=
  match s with
  | c :: s' => if isWhiteSpace c then trimStart s' else s
  | [] => []
  end.

Definition trimEnd (s : list N) : list N := reverse (trimStart (reverse s)).

Definition trim (s : list N) : list N := trimEnd (trimStart s).

Definition EMPTY_MESSAGE : string := "台本を入力してください。".
Definition TOO_SHORT_MESSAGE : string := "台本は10文字以上で入力してください。".
Definition TOO_LONG_MESSAGE (len : nat) : string :=
  "台本は" +:+ pretty MAX_SCRIPT_LENGTH +:+ "文字以内で入力してください。現在："
    +:+ pretty len +:+ "文字".

(** [validateScript]: the three checks run one after the other on the same
    [errors] array. *)
Definition validateScript (script : list N) : ValidationResult :=
  let errors := [] in
  let errors :=
    if bool_decide (script = []) || (length (trim script) =? 0)%nat
    then errors ++ [EMPTY_MESSAGE] else errors in
  let errors :=
    if (MAX_SCRIPT_LENGTH <? length script)%nat
    then errors ++ [TOO_LONG_MESSAGE (length script)] else errors in
  let errors :=
    if (0 <? length (trim script))%nat && (length (trim script) <? 10)%nat
    then errors ++ [TOO_SHORT_MESSAGE] else errors in
  {| isValid := (length errors =? 0)%nat; errors := errors |}.

(** [String.prototype.join(' ')] *)
Fixpoint join (sep : string) (l : list string) : string :=
  match l with
  | [] => ""
  | [x] => x
  | x :: l' => x +:+ sep +:+ join sep l'
  end.

(** [validateScriptOrThrow]: [None] when the function returns, the thrown
    error otherwise. *)
Definition validateScriptOrThrow (script : list N) : option Thrown :=
  let result := validateScript script in
  if negb (isValid result)
  then Some (ThrowVGE (mkVGE (join " " (errors result)) VALIDATION_ERROR None false))
  else None.

End Validation.

(** ** utils/retry.ts (src/unnamed/part_010) *)

Module Retry.

Record RetryConfig := mkRetryConfig {
  maxRetries : Z;
  retryDelay : Z;
  exponentialBackoff : bool
}.

Definition DEFAULT_RETRY_CONFIG : RetryConfig :=
  {| maxRetries := 3; retryDelay := 1000; exponentialBackoff := true |}.

(** What one call of [withRetry] did: how the promise settled, the state the
    operation left behind, how often the operation was invoked, and the
    delays passed to [sleep], oldest first. *)
Record RetryRun (S T : Type) := mkRetryRun {
  outcome : Outcome T;
  final : S;
  invocations : nat;
  delays : list Z
}.
Arguments mkRetryRun {S T}.
Arguments outcome {S T}.
Arguments final {S T}.
Arguments invocations {S T}.
Arguments delays {S T}.

Section WithRetry.
Context {S T : Type}.

(** The operation [fn]: it reads and changes the state of the world it
    closes over, and settles. *)
Variable fn : S -> Outcome T * S.
Variable config : RetryConfig.

(** [throw lastError || new Error('Retry failed')] *)
Definition throwLast (lastError : option Thrown) : Thrown :=
  match lastError with
  | Some e => if truthy e then e else ThrowError "Retry failed"
  | None => ThrowError "Retry failed"
  end.

(** The body of the [for] loop, over the values [attempt] still has to take. *)
Fixpoint withRetry_loop (attempts : list Z) (lastError : option Thrown)
    (st : S) (calls : nat) (slept : list Z) : RetryRun S T :=
  match attempts with
  | [] => mkRetryRun (Rejected (throwLast lastError)) st calls slept
  | attempt :: rest =>
    match fn st with
    | (Resolved v, st') => mkRetryRun (Resolved v) st' (calls + 1) slept
    | (Rejected error, st') =>
      let lastError := Some error in
      if isNonRetryableVGE error then
        mkRetryRun (Rejected error) st' (calls + 1) slept
      else if (attempt =? maxRetries config)%Z then
        mkRetryRun (Rejected (throwLast lastError)) st' (calls + 1) slept
      else
        let delay :=
          if exponentialBackoff config
          then (retryDelay config * 2 ^ attempt)%Z
          else retryDelay config in
        withRetry_loop rest lastError st' (calls + 1) (slept ++ [delay])
    end
  end.

(** [for (let attempt = 0; attempt <= config.maxRetries; attempt++)] *)
Definition withRetry (st : S) : RetryRun S T :=
  withRetry_loop (seqZ 0 (maxRetries config + 1)) None st 0 [].

End WithRetry.

(** The state in which the k-th invocation of [fn] (from 0) starts. *)
Fixpoint stateBefore {S T : Type} (fn : S -> Outcome T * S) (k : nat) (st : S) : S :=
  match k with
  | O => st
  | Datatypes.S k' => stateBefore fn k' (snd (fn st))
  end.

(** The k-th invocation of [fn] in a run that starts in [st] rejects with a
    retryable [VideoGenerationError]. *)
Definition rejectsRetryably {S T : Type} (fn : S -> Outcome T * S) (st : S) (k : nat) : Prop :=
  ∃ e, fst (fn (stateBefore fn k st)) = Rejected (ThrowVGE e) ∧ retryable e = true.

(** The delay awaited after the failure of attempt [attempt]. *)
Definition delayOf (config : RetryConfig) (attempt : Z) : Z :=
  if exponentialBackoff config then (retryDelay config * 2 ^ attempt)%Z
  else retryDelay config.

End Retry.

(** ** types/progress.ts *)

Module Progress.

Inductive ProgressStep :=
| VALIDATING | GENERATING_AUDIO | GENERATING_VIDEO | COMPLETED | ERROR.

Record ProgressState := mkProgressState {
  currentStep : ProgressStep;
  progress : Z;
  message : string;
  error : option string
}.

(** [PROGRESS_STEPS]: the percentage and the text of every step. *)
Definition PROGRESS_STEPS (step : ProgressStep) : Z * string :=
  match step with
  | VALIDATING => (10%Z, "台本を検証しています...")
  | GENERATING_AUDIO => (30%Z, "音声を生成しています...")
  | GENERATING_VIDEO => (70%Z, "動画を生成しています...")
  | COMPLETED => (100%Z, "動画生成が完了しました！")
  | ERROR => (0%Z, "エラーが発生しました")
  end.

(** The snapshot [updateProgress] builds for a step when no error is given. *)
Definition snapshot (step : ProgressStep) : ProgressState :=
  mkProgressState step (fst (PROGRESS_STEPS step)) (snd (PROGRESS_STEPS step)) None.

End Progress.

(** ** services/videoGenerationService.ts: the synchronous service *)

Module TestService.

Import Progress.

Record VideoGenerationResult := mkVideoGenerationResult {
  videoUrl : string;
  audioUrl : string;
  duration : Z
}.

(** [getErrorMessage] *)
Definition getErrorMessage (error : Thrown) : string :=
  match error with
  | ThrowVGE e => Js.message e
  | _ => ERROR_MESSAGES UNKNOWN_ERROR
  end.

Section Service.
Context {S : Type}.

(** [String.prototype.toLowerCase], a built-in of the platform: the code is
    modelled for whatever it returns. *)
Variable toLowerCase : string -> string.

(** [isRetryableError] *)
Definition isRetryableError (errorMessage : string) (type : ApiErrorType) : bool :=
  match type with
  | CREDIT_INSUFFICIENT | VALIDATION_ERROR => false
  | _ =>
    let retryableMessages := ["timeout"; "network"; "5xx"; "rate limit"] in
    let errorMessage := toLowerCase errorMessage in
    existsb (fun msg => includes msg errorMessage) retryableMessages
  end.

(** [createApiError]: the original error is [error] when it is an [Error] and
    [new Error(String(error))] otherwise. *)
Definition createApiError (error : Thrown) (type : ApiErrorType) : VideoGenerationError :=
  let originalError :=
    match error with
    | ThrowVGE e => Js.message e
    | ThrowError msg => msg
    | ThrowValue _ text => text
    end in
  let isRetryable := isRetryableError originalError type in
  mkVGE (ERROR_MESSAGES type) type (Some originalError) isRetryable.

(** The two remote calls, [Date.now()] and [config.onProgress], which may be
    absent and may throw. *)
Variable callOpenAIAPI : list N -> Async S string.
Variable callDIDAPI : string -> Async S string.
Variable now : S -> Z.
Variable onProgress : option (ProgressState -> S -> option Thrown * S).

(** The world of one run: the outer state and the snapshots handed to the
    callback so far, oldest first. *)
Definition World : Type := S * list ProgressState.

Definition liftS {A} (m : Async S A) : Async World A :=
  fun w => let '(r, st) := m (fst w) in (r, (st, snd w)).

(** [generateAudio] *)
Definition generateAudio (script : list N) : Async World string :=
  tryCatch (liftS (callOpenAIAPI script))
    (fun error => throw (ThrowVGE (createApiError error OPENAI_ERROR))).

(** [generateVideoFromAudio] *)
Definition generateVideoFromAudio (audioUrl : string) : Async World string :=
  tryCatch (liftS (callDIDAPI audioUrl))
    (fun error => throw (ThrowVGE (createApiError error DID_ERROR))).

(** [updateProgress] *)
Definition updateProgress (step : ProgressStep) (error : option string) : Async World unit :=
  fun w =>
    match onProgress with
    | None => (Resolved tt, w)
    | Some callback =>
      let stepConfig := PROGRESS_STEPS step in
      let progress := mkProgressState step (fst stepConfig) (snd stepConfig) error in
      match callback progress (fst w) with
      | (None, st) => (Resolved tt, (st, snd w ++ [progress]))
      | (Some e, st) => (Rejected e, (st, snd w ++ [progress]))
      end
    end.

(** [await withRetry(() => fn)] with the default configuration. *)
Definition awaitWithRetry {A} (fn : Async World A) : Async World A :=
  fun w =>
    let run := Retry.withRetry fn Retry.DEFAULT_RETRY_CONFIG w in
    (Retry.outcome run, Retry.final run).

(** [validateScriptOrThrow] as a step of the run. *)
Definition validateStep (script : list N) : Async World unit :=
  match Validation.validateScriptOrThrow script with
  | Some e => throw e
  | None => ret tt
  end.

(** [generateVideo] *)
Definition generateVideo (script : list N) : Async World VideoGenerationResult :=
  fun w =>
    let startTime := now (fst w) in
    tryCatch
      (do! updateProgress VALIDATING None in
       do! validateStep script in
       do! updateProgress GENERATING_AUDIO None in
       let! audioUrl := awaitWithRetry (generateAudio script) in
       do! updateProgress GENERATING_VIDEO None in
       let! videoUrl := awaitWithRetry (generateVideoFromAudio audioUrl) in
       do! updateProgress COMPLETED None in
       fun w' =>
         let duration := ((now (fst w') - startTime) / 1000)%Z in
         ret (mkVideoGenerationResult videoUrl audioUrl duration) w')
      (fun error =>
         do! updateProgress ERROR (Some (getErrorMessage error)) in
         throw error)
      w.

End Service.

End TestService.

(** ** services/did-video.service.ts, services/database.service.ts and
       services/video-generation.service.ts: the orchestrator variant *)

Module Orchestrator.

(** [types/video-generation.types.ts] *)
Inductive VideoStatus := pending | processing | completed | failed.

Record ScriptData := mkScriptData {
  id : string;
  title : string;
  content : string;
  status : VideoStatus;
  videoUrl : option string;
  createdAt : Z;
  updatedAt : Z
}.

Record DIDResponse := mkDIDResponse {
  did_id : string;
  did_status : string;
  result_url : option string
}.

Record VideoGenerationResult := mkVideoGenerationResult {
  success : bool;
  result_videoUrl : option string;
  result_error : option string
}.

Inductive ProgressStepName := tts | video | complete.

Record VideoGenerationProgress := mkVideoGenerationProgress {
  step : ProgressStepName;
  progress_status : VideoStatus;
  progress_message : string
}.

(** The requests the client sends with [fetch]. *)
Inductive Request :=
| PostTalkText (text presenterImageUrl : string)
| PostTalkAudio (audioUrl presenterImageUrl : string)
| GetTalk (videoId : string).

(** A [Response]: [ok], [status], [statusText] and how [json()] settles. *)
Record Response := mkResponse {
  ok : bool;
  http_status : Z;
  statusText : string;
  json : Outcome DIDResponse
}.

(** The world of the service: the [scripts] map of the [DatabaseService]
    that the caller hands to the constructor, the clock that [new Date()]
    reads, the number of [fetch] calls made, the delays awaited with
    [setTimeout] and the snapshots passed to [onProgress], both oldest
    first. *)
Record World := mkWorld {
  scripts : gmap string ScriptData;
  clock : Z;
  requests : nat;
  timers : list Z;
  reported : list VideoGenerationProgress
}.

Section Service.

(** The remote side: how the n-th [fetch] settles. *)
Variable remote : nat -> Request -> Outcome Response.
Variable presenterImageUrl : string.

(** The caller's callback, if any: caller code that runs in the world of the
    service (it can reach the [DatabaseService]) and returns or throws. *)
Variable onProgress : option (VideoGenerationProgress -> World -> option Thrown * World).

Definition fetch (req : Request) : Async World Response :=
  fun w =>
    (remote (requests w) req,
     mkWorld (scripts w) (clock w) (Datatypes.S (requests w)) (timers w) (reported w)).

(** [await new Promise(resolve => setTimeout(resolve, ms))] *)
Definition sleep (ms : Z) : Async World unit :=
  fun w =>
    (Resolved tt,
     mkWorld (scripts w) (clock w) (requests w) (timers w ++ [ms]) (reported w)).

(** The [try] block shared by the three client methods. *)
Definition request (req : Request) : Async World DIDResponse :=
  let! response := fetch req in
  if negb (ok response) then
    throw (ThrowError ("D-ID API error: " +:+ pretty (http_status response)
                         +:+ " " +:+ statusText response))
  else fun w => (json response, w).

(** [DIDVideoService.createVideoFromText] *)
Definition createVideoFromText (text presenter : string) : Async World DIDResponse :=
  tryCatch (request (PostTalkText text presenter))
    (fun error =>
       throw (ThrowError ("Video generation failed: " +:+ messageOr "Unknown error" error))).

(** [DIDVideoService.createVideo] *)
Definition createVideo (audioUrl presenter : string) : Async World DIDResponse :=
  tryCatch (request (PostTalkAudio audioUrl presenter))
    (fun error =>
       throw (ThrowError ("Video generation failed: " +:+ messageOr "Unknown error" error))).

(** [DIDVideoService.getVideoStatus] *)
Definition getVideoStatus (videoId : string) : Async World DIDResponse :=
  tryCatch (request (GetTalk videoId))
    (fun error =>
       throw (ThrowError ("Failed to get video status: " +:+ messageOr "Unknown error" error))).

(** What one polling attempt decides from the status it read. *)
Inductive PollStep :=
| PollReturn (url : string)
| PollThrow (e : Thrown)
| PollContinue.

(** The two [if]s at the head of the loop body of [waitForVideoCompletion]. *)
Definition pollStep (status : DIDResponse) : PollStep :=
  if String.eqb (did_status status) "done" && truthyStr (result_url status) then
    PollReturn (default "" (result_url status))
  else if String.eqb (did_status status) "error" then
    PollThrow (ThrowError "Video generation failed")
  else PollContinue.

(** The [for] loop of [waitForVideoCompletion], over the values [attempt]
    still has to take. *)
Fixpoint waitForVideoCompletion_loop (videoId : string) (maxAttempts intervalMs : Z)
    (attempts : list Z) : Async World string :=
  match attempts with
  | [] => throw (ThrowError "Video generation timeout")
  | attempt :: rest =>
    let! status := getVideoStatus videoId in
    match pollStep status with
    | PollReturn url => ret url
    | PollThrow e => throw e
    | PollContinue =>
      do! (if (attempt <? maxAttempts - 1)%Z then sleep intervalMs else ret tt) in
      waitForVideoCompletion_loop videoId maxAttempts intervalMs rest
    end
  end.

(** [DIDVideoService.waitForVideoCompletion(videoId, maxAttempts = 30,
    intervalMs = 5000)] *)
Definition waitForVideoCompletion (videoId : string) (maxAttempts intervalMs : Z)
  : Async World string :=
  waitForVideoCompletion_loop videoId maxAttempts intervalMs (seqZ 0 maxAttempts).

Definition DEFAULT_MAX_ATTEMPTS : Z := 30.
Definition DEFAULT_INTERVAL_MS : Z := 5000.

(** [DatabaseService.getScript]: [script || null] *)
Definition getScript (id : string) : Async World (option ScriptData) :=
  fun w => (Resolved (scripts w !! id), w).

Definition setScripts (m : gmap string ScriptData) (w : World) : World :=
  mkWorld m (clock w) (requests w) (timers w) (reported w).

(** [DatabaseService.updateScriptStatus] *)
Definition updateScriptStatus (id : string) (status : VideoStatus) : Async World unit :=
  fun w =>
    match scripts w !! id with
    | None => (Rejected (ThrowError ("Script not found: " +:+ id)), w)
    | Some script =>
      let script :=
        mkScriptData (Orchestrator.id script) (title script) (content script) status
          (videoUrl script) (createdAt script) (clock w) in
      (Resolved tt, setScripts (<[id := script]> (scripts w)) w)
    end.

(** [DatabaseService.updateScriptVideoUrl] *)
Definition updateScriptVideoUrl (id : string) (url : string) : Async World unit :=
  fun w =>
    match scripts w !! id with
    | None => (Rejected (ThrowError ("Script not found: " +:+ id)), w)
    | Some script =>
      let script :=
        mkScriptData (Orchestrator.id script) (title script) (content script)
          (Orchestrator.status script) (Some url) (createdAt script) (clock w) in
      (Resolved tt, setScripts (<[id := script]> (scripts w)) w)
    end.

(** [onProgress?.(progress)] *)
Definition report (progress : VideoGenerationProgress) : Async World unit :=
  fun w =>
    match onProgress with
    | None => (Resolved tt, w)
    | Some callback =>
      let w1 := mkWorld (scripts w) (clock w) (requests w) (timers w)
                  (reported w ++ [progress]) in
      match callback progress w1 with
      | (None, w') => (Resolved tt, w')
      | (Some e, w') => (Rejected e, w')
      end
    end.

(** [VideoGenerationService.generateVideo] *)
Definition generateVideo (scriptId : string) : Async World VideoGenerationResult :=
  tryCatch
    (let! script := getScript scriptId in
     match script with
     | None => throw (ThrowError ("Script not found: " +:+ scriptId))
     | Some script =>
       do! updateScriptStatus scriptId processing in
       do! report (mkVideoGenerationProgress tts processing "Generating audio...") in
       do! report (mkVideoGenerationProgress video processing "Generating video...") in
       let! videoResponse := createVideoFromText (content script) presenterImageUrl in
       let! videoUrl :=
         waitForVideoCompletion (did_id videoResponse)
           DEFAULT_MAX_ATTEMPTS DEFAULT_INTERVAL_MS in
       do! updateScriptVideoUrl scriptId videoUrl in
       do! updateScriptStatus scriptId completed in
       do! report (mkVideoGenerationProgress complete completed
                     "Video generation completed!") in
       ret (mkVideoGenerationResult true (Some videoUrl) None)
     end)
    (fun error =>
       do! updateScriptStatus scriptId failed in
       let errorMessage := messageOr "Unknown error" error in
       do! report (mkVideoGenerationProgress complete failed
                     ("Error: " +:+ errorMessage)) in
       ret (mkVideoGenerationResult false None (Some errorMessage))).

End Service.

(** A reply to a status request that reads [done] and carries no usable
    [result_url]. *)
Definition doneWithoutUrl (reply : Outcome Response) : Prop :=
  ∃ response status,
    reply = Resolved response ∧ ok response = true
    ∧ json response = Resolved status
    ∧ did_status status = "done" ∧ truthyStr (result_url status) = false.

End Orchestrator.

(** ** The background generation route (src/unnamed/part_005):
       [generateLipSyncVideo] and [generateVideoAsync] *)

Module Route.

(** [DID_AVATAR_CONFIG] *)
Record DIDAvatarConfig := mkDIDAvatarConfig {
  primary : string;
  fallbacks : list string
}.

Definition DID_AVATAR_CONFIG : DIDAvatarConfig :=
  {| primary := "https://d-id-public-bucket.s3.us-west-2.amazonaws.com/alice.jpg";
     fallbacks :=
       [ "https://d-id-public-bucket.s3.us-west-2.amazonaws.com/amy.jpg";
         "https://d-id-public-bucket.s3.us-west-2.amazonaws.com/anna.jpg" ] |}.

(** The two fallback images, by name. *)
Definition amy : string := "https://d-id-public-bucket.s3.us-west-2.amazonaws.com/amy.jpg".
Definition anna : string := "https://d-id-public-bucket.s3.us-west-2.amazonaws.com/anna.jpg".

Record DIDErrorResponse := mkDIDErrorResponse {
  kind : option string;
  description : option string;
  details : option string
}.

Record DIDCreateResponse := mkDIDCreateResponse {
  create_id : string;
  create_status : string
}.

Inductive DIDStatus := created | processing | done | error | rejected.

Record DIDStatusResponse := mkDIDStatusResponse {
  status : DIDStatus;
  result_url : option string;
  error_info : option DIDErrorResponse
}.

Definition statusName (s : DIDStatus) : string :=
  match s with
  | created => "created" | processing => "processing" | done => "done"
  | error => "error" | rejected => "rejected"
  end.

(** How an [axios] call settles: with the response data, with an
    [AxiosError] (of which the code reads [response?.status],
    [response?.data] and [message]), or with something else thrown. *)
Inductive AxiosReply (T : Type) :=
| AxiosOk (data : T)
| AxiosFailed (http_status : option Z) (data : option DIDErrorResponse) (message : string)
| OtherFailure (e : Thrown).
Arguments AxiosOk {T} data.
Arguments AxiosFailed {T} http_status data message.
Arguments OtherFailure {T} e.

(** A column value of a row of the [videos] table: a text, a number, or a
    time stamp by the instant it denotes. A column that is NULL is absent
    from the row. *)
Inductive Json := JStr (s : string) | JNum (n : Z) | JTime (t : Z).

(** The [videos] table of the repository's schema
    (src/supabase/migrations, [CREATE TABLE videos] and the later
    [ADD COLUMN d_id_video_id]): its columns, and the values its CHECK
    constraint allows for [status]. *)
Definition VIDEO_COLUMNS : list string :=
  [ "id"; "script_id"; "title"; "status"; "video_url"; "thumbnail_url"; "duration";
    "avatar_id"; "voice_id"; "created_at"; "updated_at"; "d_id_video_id" ].

Definition STATUS_VALUES : list string := [ "pending"; "processing"; "completed"; "failed" ].

(** Whether the database carries out an update with this patch. A patch that
    names a column the table does not have, or a [status] outside the CHECK
    constraint, is refused as a whole. *)
Definition accepted (patch : gmap string Json) : bool :=
  forallb (fun column => bool_decide (column ∈ VIDEO_COLUMNS)) (fst <$> map_to_list patch)
  && match patch !! "status" with
     | Some (JStr s) => bool_decide (s ∈ STATUS_VALUES)
     | Some _ => false
     | None => true
     end.

(** The rows after an update statement issued at time [now]: when the patch
    is accepted, its columns are written to the row with that id, if there
    is one, and the trigger [update_videos_updated_at] (BEFORE UPDATE, FOR
    EACH ROW) sets [updated_at] to [NOW()]. *)
Definition updatedRows (now : Z) (patch : gmap string Json) (videoId : string)
    (rows : gmap string (gmap string Json)) : gmap string (gmap string Json) :=
  if accepted patch
  then alter (fun row => <["updated_at" := JTime now]> (patch ∪ row)) videoId rows
  else rows.

(** What the function writes with [console]; the elapsed seconds of the two
    closing messages and the [[D-ID]] diagnostics of [generateLipSyncVideo]
    are left out. *)
Inductive LogEntry :=
| LogStep1
| LogAudioGenerated (byteLength : nat)
| LogStep2
| WarnPrimaryFailed (errorMessage : string) (fallbackIndex : nat)
| LogRetryFallback (fallbackIndex : nat) (avatar : string)
| WarnFallbackFailed (fallbackIndex : nat) (fallbackError : Thrown)
| LogCompleted (videoUrl : string) (duration : Z) (avatar : string)
| LogFailed (e : Thrown).

(** The world of the route, in two parts. [Store]: the [videos] table by row
    id (a row maps column names to values), the console, oldest entry first,
    the update statements sent to the database so far (row id and patch),
    oldest first, and the database clock: [dbClock n] is [NOW()] when the
    statement numbered [n] arrives. [Net]: the numbers of [axios.post],
    [axios.get] and speech requests made, and the delays awaited with
    [setTimeout], oldest first. *)
Record Store := mkStore {
  videos : gmap string (gmap string Json);
  console : list LogEntry;
  statements : list (string * gmap string Json);
  dbClock : nat -> Z
}.

Record Net := mkNet {
  posts : nat;
  gets : nat;
  speeches : nat;
  timers : list Z
}.

Definition World : Type := Store * Net.

Definition onStore {A} (m : Async Store A) : Async World A :=
  fun w => let '(r, store) := m (fst w) in (r, (store, snd w)).

Definition onNet {A} (m : Async Net A) : Async World A :=
  fun w => let '(r, net) := m (snd w) in (r, (fst w, net)).

(** The store after the statement
    [supabase.from('videos').update(patch).eq('id', videoId)] has been sent:
    the database carries it out or refuses it, see [updatedRows]. *)
Definition patched (patch : gmap string Json) (videoId : string) (store : Store) : Store :=
  mkStore
    (updatedRows (dbClock store (length (statements store))) patch videoId (videos store))
    (console store)
    (statements store ++ [(videoId, patch)])
    (dbClock store).

(** [await supabase.from('videos').update(patch).eq('id', videoId)]: the
    promise resolves also when the database refuses the statement; the code
    does not look at the [error] it resolves with. *)
Definition update (patch : gmap string Json) (videoId : string) : Async Store unit :=
  fun store => (Resolved tt, patched patch videoId store).

Definition logged (entries : list LogEntry) (store : Store) : Store :=
  mkStore (videos store) (console store ++ entries) (statements store) (dbClock store).

Definition log (entry : LogEntry) : Async Store unit :=
  fun store => (Resolved tt, logged [entry] store).

Definition sleep (ms : Z) : Async Net unit :=
  fun net =>
    (Resolved tt, mkNet (posts net) (gets net) (speeches net) (timers net ++ [ms])).

Section Route.

(** [process.env] and the remote sides: how the n-th request of each kind
    settles. The audio is a list of bytes. *)
Variable OPENAI_API_KEY : option string.
Variable DID_API_KEY : option string.
Variable speechCreate : nat -> list N -> Outcome (list N).
Variable axiosPost : nat -> string -> string -> AxiosReply DIDCreateResponse.
Variable axiosGet : nat -> string -> AxiosReply DIDStatusResponse.

(** [Buffer.from(audioBuffer).toString('base64')] *)
Variable base64 : list N -> string.

(** [generateAudio] *)
Definition generateAudio (text : list N) : Async Net (list N) :=
  if negb (truthyStr OPENAI_API_KEY) then
    throw (ThrowError "OpenAI API Key is not configured")
  else fun net =>
    (speechCreate (speeches net) text,
     mkNet (posts net) (gets net) (Datatypes.S (speeches net)) (timers net)).

Definition post (avatarUrl audioBase64 : string) : Net -> AxiosReply DIDCreateResponse * Net :=
  fun net =>
    (axiosPost (posts net) avatarUrl audioBase64,
     mkNet (Datatypes.S (posts net)) (gets net) (speeches net) (timers net)).

Definition get (talkId : string) : Net -> AxiosReply DIDStatusResponse * Net :=
  fun net =>
    (axiosGet (gets net) talkId,
     mkNet (posts net) (Datatypes.S (gets net)) (speeches net) (timers net)).

Definition maxAttempts : Z := 60.

Definition noUrlError : VideoGenerationError :=
  mkVGE "D-ID API returned success but no video URL" DID_ERROR None true.

(** The error raised for the statuses [error] and [rejected]. *)
Definition jobFailedError (response : DIDStatusResponse) : VideoGenerationError :=
  let errorMessage :=
    match error_info response with
    | Some errorInfo =>
      orElse (kind errorInfo) "Unknown error" +:+ ": "
        +:+ orElse (description errorInfo) "No description"
    | None => "Video generation " +:+ statusName (status response)
    end in
  mkVGE ("D-ID video generation failed: " +:+ errorMessage) DID_ERROR
    (Some errorMessage) false.

Definition timeoutError : VideoGenerationError :=
  mkVGE ("Video generation timed out after " +:+ pretty (maxAttempts * 10)%Z +:+ " seconds")
    DID_ERROR None true.

(** The polling [while (attempts < maxAttempts)] loop, over the values
    [attempts] still has to take: every pass that stays in the loop
    increments [attempts] once, in the [try] block or in its [catch]. Leaving
    by [break] returns the URL; running out of attempts leaves [videoUrl]
    empty, which raises the timeout. *)
Fixpoint pollLoop (talkId : string) (attempts : list Z) : Async Net string :=
  match attempts with
  | [] => throw (ThrowVGE timeoutError)
  | _ :: rest =>
    do! sleep 10000 in
    fun net =>
      match get talkId net with
      | (AxiosOk response, net') =>
        match status response with
        | done =>
          let videoUrl := orElse (result_url response) "" in
          if String.eqb videoUrl "" then throw (ThrowVGE noUrlError) net'
          else ret videoUrl net'
        | error | rejected => throw (ThrowVGE (jobFailedError response)) net'
        | created | processing => pollLoop talkId rest net'
        end
      | (AxiosFailed _ _ _, net') => pollLoop talkId rest net'
      | (OtherFailure e, net') =>
        match e with
        | ThrowVGE _ => throw e net'
        | _ => pollLoop talkId rest net'
        end
      end
  end.

(** The outer [catch] of [generateLipSyncVideo] for a failed [axios.post]. *)
Definition requestFailedError (http_status : option Z) (data : option DIDErrorResponse)
    (message : string) : VideoGenerationError :=
  let errorMessage :=
    orElse (data ≫= description) (orElse (data ≫= details) message) in
  mkVGE ("D-ID API request failed: " +:+ errorMessage) DID_ERROR (Some message)
    (bool_decide (http_status = Some 429%Z) || bool_decide (http_status = Some 503%Z)).

(** [generateLipSyncVideo] *)
Definition generateLipSyncVideo (audioBase64 avatarUrl : string) : Async Net string :=
  if negb (truthyStr DID_API_KEY) then
    throw (ThrowVGE (mkVGE "D-ID API Key is not configured" DID_ERROR None false))
  else fun net =>
    match post avatarUrl audioBase64 net with
    | (AxiosOk createResponse, net') =>
      pollLoop (create_id createResponse) (seqZ 0 maxAttempts) net'
    | (AxiosFailed http_status data message, net') =>
      throw (ThrowVGE (requestFailedError http_status data message)) net'
    | (OtherFailure e, net') =>
      match e with
      | ThrowVGE _ => throw e net'
      | _ =>
        throw (ThrowVGE (mkVGE "Unexpected error during video generation" UNKNOWN_ERROR
                           (Some (messageOr "" e)) false)) net'
      end
    end.

(** The [while (fallbackIndex < DID_AVATAR_CONFIG.fallbacks.length)] loop,
    over the entries of [fallbacks] from [fallbackIndex] on. It yields
    [videoUrl] and [currentAvatar] as they are when the loop is left. *)
Fixpoint fallbackLoop (audioBase64 : string) (remaining : list string)
    (fallbackIndex : nat) (videoUrl currentAvatar : string) : Async World (string * string) :=
  match remaining with
  | [] => ret (videoUrl, currentAvatar)
  | avatar :: rest =>
    let currentAvatar := avatar in
    let fallbackIndex := Datatypes.S fallbackIndex in
    tryCatch
      (do! onStore (log (LogRetryFallback fallbackIndex currentAvatar)) in
       let! videoUrl := onNet (generateLipSyncVideo audioBase64 currentAvatar) in
       ret (videoUrl, currentAvatar))
      (fun fallbackError =>
         do! onStore (log (WarnFallbackFailed fallbackIndex fallbackError)) in
         if (length (fallbacks DID_AVATAR_CONFIG) <=? fallbackIndex)%nat
         then throw fallbackError
         else fallbackLoop audioBase64 rest fallbackIndex videoUrl currentAvatar)
  end.

(** The patches sent for the [videos] row. *)
Definition processingPatch : gmap string Json :=
  {[ "status" := JStr "processing" ]}.

Definition completedPatch (videoUrl : string) (duration : Z) : gmap string Json :=
  {[ "status" := JStr "completed"; "video_url" := JStr videoUrl; "duration" := JNum duration ]}.

Definition failedPatch (errorMessage : string) : gmap string Json :=
  {[ "status" := JStr "failed"; "error_message" := JStr errorMessage ]}.

(** [Math.floor(scriptContent.length / 5)] *)
Definition estimatedDuration (scriptContent : list N) : Z :=
  (Z.of_nat (length scriptContent) / 5)%Z.

(** [generateVideoAsync]; [scriptContent] is a list of UTF-16 code units. *)
Definition generateVideoAsync (videoId : string) (scriptContent : list N)
    (avatarUrl : option string) : Async World unit :=
  let currentAvatar := orElse avatarUrl (primary DID_AVATAR_CONFIG) in
  let fallbackIndex := 0%nat in
  tryCatch
    (do! onStore (update processingPatch videoId) in
     do! onStore (log LogStep1) in
     let! audioBuffer := onNet (generateAudio scriptContent) in
     let audioBase64 := base64 audioBuffer in
     do! onStore (log (LogAudioGenerated (length audioBuffer))) in
     do! onStore (log LogStep2) in
     let! made :=
       tryCatch
         (let! videoUrl := onNet (generateLipSyncVideo audioBase64 currentAvatar) in
          ret (videoUrl, currentAvatar))
         (fun error =>
            if isRetryableVGE error
               && (fallbackIndex <? length (fallbacks DID_AVATAR_CONFIG))%nat
            then
              do! onStore (log (WarnPrimaryFailed (messageOr "" error) fallbackIndex)) in
              fallbackLoop audioBase64
                (drop fallbackIndex (fallbacks DID_AVATAR_CONFIG))
                fallbackIndex "" currentAvatar
            else throw error) in
     let videoUrl := fst made in
     let currentAvatar := snd made in
     let duration := estimatedDuration scriptContent in
     do! onStore (update (completedPatch videoUrl duration) videoId) in
     onStore (log (LogCompleted videoUrl duration currentAvatar)))
    (fun error =>
       do! onStore (log (LogFailed error)) in
       let errorMessage := messageOr "動画生成に失敗しました" error in
       onStore (update (failedPatch errorMessage) videoId)).

(** A reply to a status request after which the polling loop goes on:
    the job is [created] or [processing], or the request itself failed. *)
Definition pendingReply (reply : AxiosReply DIDStatusResponse) : bool :=
  match reply with
  | AxiosOk response =>
    match status response with
    | created | processing => true
    | _ => false
    end
  | AxiosFailed _ _ _ => true
  | OtherFailure (ThrowVGE _) => false
  | OtherFailure _ => true
  end.

End Route.

(** The image a run starts with: [avatarUrl || DID_AVATAR_CONFIG.primary]. *)
Definition primaryAvatar (avatarUrl : option string) : string :=
  orElse avatarUrl (primary DID_AVATAR_CONFIG).

(** The message a failed run sends as [error_message]. *)
Definition persistedMessage (error : Thrown) : string :=
  messageOr "動画生成に失敗しました" error.

(** The network after [k] more polling attempts. *)
Definition afterPolls (k : nat) (net : Net) : Net :=
  mkNet (posts net) (gets net + k) (speeches net) (timers net ++ replicate k 10000%Z).

(** The database side of two stores is the same: only the console may
    differ. A step keeps the table when it sends no update. *)
Definition sameTable (store store' : Store) : Prop :=
  videos store' = videos store ∧ statements store' = statements store
  ∧ dbClock store' = dbClock store.

Definition keepsTable {A : Type} (m : Async World A) : Prop :=
  ∀ w, sameTable (fst w) (fst (snd (m w))).

End Route.

(** ** Concrete inputs and remote behaviours used below *)

Module Scenarios.

(** The script of the unit test, [これは有効な台本です。], in code units. *)
Definition validScript : list N :=
  [0x3053; 0x308C; 0x306F; 0x6709; 0x52B9; 0x306A; 0x53F0; 0x672C; 0x3067;
   0x3059; 0x3002]%N.

(** 5000 letters [a] followed by one space. *)
Definition paddedScript : list N := replicate 5000 97%N ++ [32%N].

(** The script [short] of the unit test. *)
Definition shortScript : list N := [115; 104; 111; 114; 116]%N.

(** An operation that always rejects with a retryable error, numbered by
    the invocation; the state counts the invocations. *)
Definition alwaysRateLimited : nat -> Outcome string * nat :=
  fun k =>
    (Rejected (ThrowVGE (mkVGE ("rate limit, call " +:+ pretty k) OPENAI_ERROR None true)),
     S k).

(** An operation that rejects with a non-retryable error. *)
Definition creditExhausted : nat -> Outcome string * nat :=
  fun k =>
    (Rejected (ThrowVGE (mkVGE "insufficient credit" CREDIT_INSUFFICIENT None false)),
     S k).

(** A remote side for the synchronous service; the state counts the remote
    calls. The first speech request fails with a transient error, the second
    succeeds, and so does the video request. *)
Definition flakyOpenAI (script : list N) : Async nat string :=
  fun calls =>
    (match calls with
     | O => Rejected (ThrowError "network timeout")
     | _ => Resolved "https://example.com/audio.mp3"
     end, S calls).

Definition steadyDID (audioUrl : string) : Async nat string :=
  fun calls => (Resolved "https://example.com/video.mp4", S calls).

Definition callClock (calls : nat) : Z := (2500 * Z.of_nat calls)%Z.

(** A [toLowerCase] for runs whose messages are ASCII: on such strings the
    built-in lowers the letters [A] to [Z] and nothing else. *)
Definition lowerAscii (c : Ascii.ascii) : Ascii.ascii :=
  let n := Ascii.nat_of_ascii c in
  if (65 <=? n)%nat && (n <=? 90)%nat then Ascii.ascii_of_nat (n + 32) else c.

Fixpoint asciiToLowerCase (s : string) : string :=
  match s with
  | EmptyString => EmptyString
  | String c s' => String (lowerAscii c) (asciiToLowerCase s')
  end.

Definition quietCallback (p : Progress.ProgressState) (calls : nat) : option Thrown * nat :=
  (None, calls).

(** A D-ID side that answers every request with status [done] and no
    [result_url]. *)
Definition doneNoUrlRemote (n : nat) (req : Orchestrator.Request) : Outcome Orchestrator.Response :=
  Resolved (Orchestrator.mkResponse true 200 "OK"
              (Resolved (Orchestrator.mkDIDResponse "tlk_1" "done" None))).

(** A service world with no script stored. *)
Definition emptyWorld : Orchestrator.World := Orchestrator.mkWorld ∅ 0 0 [] [].

(** Remote sides for the background route. *)
Definition apiKey : option string := Some "key".

Definition speechOk (n : nat) (text : list N) : Outcome (list N) :=
  Resolved [73; 68; 51]%N.

Definition base64Stub (audio : list N) : string := "SUQz".

Definition talkCreated (n : nat) (avatarUrl audioBase64 : string)
  : Route.AxiosReply Route.DIDCreateResponse :=
  Route.AxiosOk (Route.mkDIDCreateResponse "tlk_1" "created").

(** Every status request reads [done] without a [result_url]. *)
Definition statusDoneNoUrl (n : nat) (talkId : string)
  : Route.AxiosReply Route.DIDStatusResponse :=
  Route.AxiosOk (Route.mkDIDStatusResponse Route.done None None).

(** Every status request reads [done] with a result. *)
Definition statusDone (n : nat) (talkId : string)
  : Route.AxiosReply Route.DIDStatusResponse :=
  Route.AxiosOk
    (Route.mkDIDStatusResponse Route.done (Some "https://d-id.example/result.mp4") None).

Definition tooManyRequests : Route.AxiosReply Route.DIDCreateResponse :=
  Route.AxiosFailed (Some 429%Z) None "Request failed with status code 429".

(** The first two talk requests are turned away with status 429, the third
    is accepted. *)
Definition thirdTalkCreated (n : nat) (avatarUrl audioBase64 : string)
  : Route.AxiosReply Route.DIDCreateResponse :=
  match n with
  | 0%nat | 1%nat => tooManyRequests
  | _ => Route.AxiosOk (Route.mkDIDCreateResponse "tlk_3" "created")
  end.

(** Every talk request is turned away with status 429. *)
Definition noTalkCreated (n : nat) (avatarUrl audioBase64 : string)
  : Route.AxiosReply Route.DIDCreateResponse := tooManyRequests.

(** The row that the [POST] handler inserted at time 1000, with the
    defaults of the table, and the store holding it; the database clock
    advances by 5000 from one statement to the next. *)
Definition pendingRow : gmap string Route.Json :=
  {[ "id" := Route.JStr "video_1"; "script_id" := Route.JStr "script_1";
     "title" := Route.JStr "Untitled Video"; "status" := Route.JStr "pending";
     "duration" := Route.JNum 0;
     "created_at" := Route.JTime 1000; "updated_at" := Route.JTime 1000 ]}.

Definition serverClock (n : nat) : Z := (6000 + 5000 * Z.of_nat n)%Z.

Definition pendingStore : Route.Store :=
  Route.mkStore {[ "video_1" := pendingRow ]} [] [] serverClock.

Definition idleNet : Route.Net := Route.mkNet 0 0 0 [].

End Scenarios.

Import Scenarios.

(** ** Notions used by the further properties *)

Module Attempts.

(** The k-th invocation of [fn] in a run that starts in [st] rejects with an
    error that [withRetry] retries: anything but a [VideoGenerationError]
    whose [retryable] flag is false. *)
Definition rejectsTransiently {S T : Type} (fn : S -> Outcome T * S) (st : S) (k : nat) : Prop :=
  ∃ e, fst (fn (Retry.stateBefore fn k st)) = Rejected e ∧ isNonRetryableVGE e = false.

End Attempts.

Module Snapshots.
Import Progress.

(** The snapshot [updateProgress] builds for the step ERROR with a message. *)
Definition errorSnapshot (errorMessage : string) : ProgressState :=
  mkProgressState ERROR (fst (PROGRESS_STEPS ERROR)) (snd (PROGRESS_STEPS ERROR))
    (Some errorMessage).

(** The snapshots of a run without failure, in order. *)
Definition forwardSteps : list ProgressState :=
  [snapshot VALIDATING; snapshot GENERATING_AUDIO; snapshot GENERATING_VIDEO;
   snapshot COMPLETED].

(** The callback [callback] with a recorder attached: every snapshot it is
    invoked with is appended to a list that nothing else writes. *)
Definition recording {S : Type} (callback : ProgressState -> S -> option Thrown * S)
  : ProgressState -> S * list ProgressState -> option Thrown * (S * list ProgressState) :=
  fun p st =>
    let '(r, s') := callback p (fst st) in (r, (s', snd st ++ [p])).

(** A remote call or a clock next to the recorder: it does not see the list. *)
Definition aside {S L A : Type} (m : Async S A) : Async (S * L) A :=
  fun st => let '(r, s') := m (fst st) in (r, (s', snd st)).

(** What the recorder has received at the end of a run. *)
Definition received {S : Type} (w : @TestService.World (S * list ProgressState))
  : list ProgressState := snd (fst w).

(** A step of a run with the recorder attached keeps the recorder and the
    log of the run in step. *)
Definition inStep {S A : Type} (m : Async (@TestService.World (S * list ProgressState)) A)
  : Prop :=
  ∀ w, received w = snd w -> received (snd (m w)) = snd (snd (m w)).

(** A callback that returns normally on every snapshot. *)
Definition neverThrows {S : Type} (callback : ProgressState -> S -> option Thrown * S) : Prop :=
  ∀ p st, fst (callback p st) = None.

(** A callback that also leaves the state alone: a pure observer. *)
Definition observes {S : Type} (callback : ProgressState -> S -> option Thrown * S) : Prop :=
  ∀ p st, callback p st = (None, st).

(** Two runs of the synchronous service agree when, started in worlds with
    the same outer state, they settle alike and leave the same outer state
    (the snapshots delivered may differ). *)
Definition agree {S A : Type} (m1 m2 : Async (@TestService.World S) A) : Prop :=
  ∀ w1 w2, fst w1 = fst w2 ->
    fst (m1 w1) = fst (m2 w2) ∧ fst (snd (m1 w1)) = fst (snd (m2 w2)).

End Snapshots.

(** ** services/database.service.ts and services/video-generation.service.ts:
       the remaining operations *)

Module Database.
Import Orchestrator.

(** [DatabaseService.createScript]; [randomPart] stands for
    [Math.random().toString(36).substring(2, 15)], and [Date.now()] and
    [new Date()] read the clock of the world. *)
Definition createScript (randomPart title content : string) : Async World ScriptData :=
  fun w =>
    let id := "script_" +:+ pretty (clock w) +:+ "_" +:+ randomPart in
    let script := mkScriptData id title content pending None (clock w) (clock w) in
    (Resolved script, setScripts (<[id := script]> (scripts w)) w).

(** [DatabaseService.deleteScript] *)
Definition deleteScript (id : string) : Async World unit :=
  fun w =>
    match scripts w !! id with
    | None => (Rejected (ThrowError ("Script not found: " +:+ id)), w)
    | Some _ => (Resolved tt, setScripts (delete id (scripts w)) w)
    end.

(** [DatabaseService.clearAll] *)
Definition clearAll : Async World unit :=
  fun w => (Resolved tt, setScripts ∅ w).

(** [VideoGenerationService.getScript] delegates to the database. *)
Definition serviceGetScript (scriptId : string) : Async World (option ScriptData) :=
  getScript scriptId.

(** The result of [createScriptAndGenerateVideo]: the fields of the
    generation result and [scriptId]. *)
Record CreatedResult := mkCreatedResult {
  generation : VideoGenerationResult;
  scriptId : string
}.

(** [VideoGenerationService.createScriptAndGenerateVideo] *)
Definition createScriptAndGenerateVideo
    (remote : nat -> Request -> Outcome Response) (presenterImageUrl : string)
    (onProgress : option (VideoGenerationProgress -> World -> option Thrown * World))
    (randomPart title content : string) : Async World CreatedResult :=
  let! script := createScript randomPart title content in
  let! result := generateVideo remote presenterImageUrl onProgress (id script) in
  ret (mkCreatedResult result (id script)).

(** A script as [updateScriptStatus] leaves it. *)
Definition withStatus (status : VideoStatus) (now : Z) (script : ScriptData) : ScriptData :=
  mkScriptData (id script) (title script) (content script) status (videoUrl script)
    (createdAt script) now.

(** A progress callback, if attached, that returns normally every time and
    leaves the scripts of the [DatabaseService] as they are. *)
Definition harmless
    (onProgress : option (VideoGenerationProgress -> World -> option Thrown * World))
  : Prop :=
  ∀ callback, onProgress = Some callback ->
    ∀ progress w, fst (callback progress w) = None
                  ∧ scripts (snd (callback progress w)) = scripts w.

(** A reply to a status request after which [waitForVideoCompletion] goes on
    polling. *)
Definition continuing (reply : Outcome Response) : Prop :=
  ∃ response status,
    reply = Resolved response ∧ ok response = true
    ∧ json response = Resolved status ∧ pollStep status = PollContinue.

(** The world after [k] more status requests with a wait after each. *)
Definition afterWaits (k : nat) (intervalMs : Z) (w : World) : World :=
  mkWorld (scripts w) (clock w) (requests w + k)
    (timers w ++ replicate k intervalMs) (reported w).

(** Only the request counter and the timers differ. *)
Definition sameStore (w w' : World) : Prop :=
  scripts w' = scripts w ∧ clock w' = clock w ∧ reported w' = reported w.

(** A client call that sends exactly one request, touches nothing else, and
    rejects, if it does, with a plain [Error] whose message starts with
    [prefix]. *)
Definition oneRequestWrapped {A : Type} (prefix : string) (m : Async World A) (w : World)
  : Prop :=
  sameStore w (snd (m w))
  ∧ requests (snd (m w)) = S (requests w) ∧ timers (snd (m w)) = timers w
  ∧ ∀ e, fst (m w) = Rejected e -> ∃ cause, e = ThrowError (prefix +:+ cause).

End Database.

(** ** The earlier generation route (src/unnamed/part_005, third file): one
       fixed image, no fallback, no error classes *)

Module LegacyRoute.
Import Route.

Inductive LogEntry :=
| LogGeneratingAudio
| LogGeneratingVideo
| LogCompleted (videoId : string)
| LogError (e : Thrown).

(** The store is that of the later route, with the console of this one. *)
Record Store := mkStore {
  videos : gmap string (gmap string Json);
  console : list LogEntry;
  statements : list (string * gmap string Json);
  dbClock : nat -> Z
}.

Definition World : Type := Store * Net.

Definition onStore {A} (m : Async Store A) : Async World A :=
  fun w => let '(r, store) := m (fst w) in (r, (store, snd w)).

Definition onNet {A} (m : Async Net A) : Async World A :=
  fun w => let '(r, net) := m (snd w) in (r, (fst w, net)).

(** The store after an update statement has been sent, see
    [Route.updatedRows]. *)
Definition patched (patch : gmap string Json) (videoId : string) (store : Store) : Store :=
  mkStore
    (updatedRows (dbClock store (length (statements store))) patch videoId (videos store))
    (console store)
    (statements store ++ [(videoId, patch)])
    (dbClock store).

(** [await supabase.from('videos').update(patch).eq('id', videoId)] *)
Definition update (patch : gmap string Json) (videoId : string) : Async Store unit :=
  fun store => (Resolved tt, patched patch videoId store).

Definition logged (entries : list LogEntry) (store : Store) : Store :=
  mkStore (videos store) (console store ++ entries) (statements store) (dbClock store).

Definition log (entry : LogEntry) : Async Store unit :=
  fun store => (Resolved tt, logged [entry] store).

Section Legacy.
Variable DID_API_KEY : option string.
Variable speechCreate : nat -> list N -> Outcome (list N).
Variable axiosPost : nat -> string -> string -> AxiosReply DIDCreateResponse.
Variable axiosGet : nat -> string -> AxiosReply DIDStatusResponse.
Variable base64 : list N -> string.

(** The image every talk is made with. *)
Definition sourceUrl : string :=
  "https://create-images-results.d-id.com/google-oauth2%7C109775128042683808313/upl_bVhL8jLwO8qiH-QFqzxjP/image.png".

(** [generateAudio]: no key check here, the client is built when the module
    is loaded. *)
Definition generateAudio (text : list N) : Async Net (list N) :=
  fun net =>
    (speechCreate (speeches net) text,
     mkNet (posts net) (gets net) (Datatypes.S (speeches net)) (timers net)).

(** The polling loop of [generateLipSyncVideo], over the values [attempts]
    still has to take. A request that fails throws out of the function: the
    code catches nothing here. [done] leaves the loop with [result_url], empty or
    not, and an empty [videoUrl] after the loop raises the time-out. *)
Fixpoint pollLoop (talkId : string) (attempts : list Z) : Async Net string :=
  match attempts with
  | [] => throw (ThrowError "Video generation timed out")
  | _ :: rest =>
    do! Route.sleep 10000 in
    fun net =>
      match get axiosGet talkId net with
      | (AxiosOk response, net') =>
        match status response with
        | done =>
          if truthyStr (result_url response)
          then ret (default "" (result_url response)) net'
          else throw (ThrowError "Video generation timed out") net'
        | error | rejected =>
          throw (ThrowError ("D-ID video generation failed: "
                               +:+ statusName (status response))) net'
        | created | processing => pollLoop talkId rest net'
        end
      | (AxiosFailed _ _ message, net') => throw (ThrowError message) net'
      | (OtherFailure e, net') => throw e net'
      end
  end.

(** [generateLipSyncVideo] *)
Definition generateLipSyncVideo (audioBase64 : string) : Async Net string :=
  if negb (truthyStr DID_API_KEY) then
    throw (ThrowError "D-ID API Key is not configured")
  else fun net =>
    match post axiosPost sourceUrl audioBase64 net with
    | (AxiosOk createResponse, net') =>
      pollLoop (create_id createResponse) (seqZ 0 60) net'
    | (AxiosFailed _ _ message, net') => throw (ThrowError message) net'
    | (OtherFailure e, net') => throw e net'
    end.

(** The patch of the [catch] block: the status alone. *)
Definition failedPatch : gmap string Json := {[ "status" := JStr "failed" ]}.

(** [generateVideoAsync] *)
Definition generateVideoAsync (videoId : string) (scriptContent : list N) : Async World unit :=
  tryCatch
    (do! onStore (update processingPatch videoId) in
     do! onStore (log LogGeneratingAudio) in
     let! audioBuffer := onNet (generateAudio scriptContent) in
     let audioBase64 := base64 audioBuffer in
     do! onStore (log LogGeneratingVideo) in
     let! videoUrl := onNet (generateLipSyncVideo audioBase64) in
     do! onStore (update (completedPatch videoUrl (estimatedDuration scriptContent))
                    videoId) in
     onStore (log (LogCompleted videoId)))
    (fun error =>
       do! onStore (log (LogError error)) in
       onStore (update failedPatch videoId)).

End Legacy.

End LegacyRoute.

(** ** Further concrete inputs and remote behaviours *)

Module Cases.

(** An operation that fails the first time with a plain error and succeeds
    from then on. *)
Definition failsOnce : nat -> Outcome string * nat :=
  fun k =>
    (match k with
     | O => Rejected (ThrowError "temporary error")
     | _ => Resolved "success"
     end, S k).

(** An operation that always fails with a plain error. *)
Definition alwaysPlainError : nat -> Outcome string * nat :=
  fun k => (Rejected (ThrowError "persistent error"), S k).

(** A speech service that refuses every request. *)
Definition brokenOpenAI (script : list N) : Async nat string :=
  fun calls => (Rejected (ThrowError "OpenAI API Error"), S calls).

(** A stored script and a world holding it. *)
Definition storedScript : Orchestrator.ScriptData :=
  Orchestrator.mkScriptData "script_1" "Test" "This is a test script"
    Orchestrator.pending None 0 0.

Definition storedWorld : Orchestrator.World :=
  Orchestrator.mkWorld {[ "script_1" := storedScript ]} 1000 0 [] [].

(** A callback that only counts: it advances the clock of the world. *)
Definition tickingCallback (progress : Orchestrator.VideoGenerationProgress)
    (w : Orchestrator.World) : option Thrown * Orchestrator.World :=
  (None,
   Orchestrator.mkWorld (Orchestrator.scripts w) (Orchestrator.clock w + 1)
     (Orchestrator.requests w) (Orchestrator.timers w) (Orchestrator.reported w)).

(** A callback that returns normally and deletes the script [script_1]. *)
Definition deletingCallback (progress : Orchestrator.VideoGenerationProgress)
    (w : Orchestrator.World) : option Thrown * Orchestrator.World :=
  (None, Orchestrator.setScripts (delete "script_1" (Orchestrator.scripts w)) w).

Definition okResponse (status : string) (url : option string) : Orchestrator.Response :=
  Orchestrator.mkResponse true 200 "OK"
    (Resolved (Orchestrator.mkDIDResponse "tlk_1" status url)).

(** Two responses [started], then [done] with a result. *)
Definition doneAfterTwo (n : nat) (req : Orchestrator.Request)
  : Outcome Orchestrator.Response :=
  match n with
  | 0%nat | 1%nat => Resolved (okResponse "started" None)
  | _ => Resolved (okResponse "done" (Some "https://d-id.example/result.mp4"))
  end.

Definition errorStatusRemote (n : nat) (req : Orchestrator.Request)
  : Outcome Orchestrator.Response :=
  Resolved (okResponse "error" None).

Definition rejectedStatusRemote (n : nat) (req : Orchestrator.Request)
  : Outcome Orchestrator.Response :=
  Resolved (okResponse "rejected" None).

Definition unavailableResponse : Orchestrator.Response :=
  Orchestrator.mkResponse false 503 "Service Unavailable"
    (Rejected (ThrowError "Unexpected end of JSON input")).

Definition unavailableRemote (n : nat) (req : Orchestrator.Request)
  : Outcome Orchestrator.Response :=
  Resolved unavailableResponse.

(** The first talk request is turned away with status 429, the second is
    accepted. *)
Definition secondTalkCreated (n : nat) (avatarUrl audioBase64 : string)
  : Route.AxiosReply Route.DIDCreateResponse :=
  match n with
  | 0%nat => tooManyRequests
  | _ => Route.AxiosOk (Route.mkDIDCreateResponse "tlk_2" "created")
  end.

(** Every talk request is refused with status 400. *)
Definition badRequest (n : nat) (avatarUrl audioBase64 : string)
  : Route.AxiosReply Route.DIDCreateResponse :=
  Route.AxiosFailed (Some 400%Z) None "Request failed with status code 400".

Definition speechFails (n : nat) (text : list N) : Outcome (list N) :=
  Rejected (ThrowError "Connection error.").

(** Every status request fails. *)
Definition statusUnreachable (n : nat) (talkId : string)
  : Route.AxiosReply Route.DIDStatusResponse :=
  Route.AxiosFailed (Some 502%Z) None "Request failed with status code 502".

(** The store of the earlier route, holding the inserted row. *)
Definition legacyStore : LegacyRoute.Store :=
  LegacyRoute.mkStore {[ "video_1" := pendingRow ]} [] [] serverClock.

End Cases.

(** * Properties *)

(** ** The validator *)

Section ValidationFacts.
Import Validation.

Lemma TOO_LONG_MESSAGE_unfold len :
  TOO_LONG_MESSAGE len
  = "台本は5000文字以内で入力してください。現在：" +:+ pretty len +:+ "文字".
Proof. reflexivity. Qed.

Lemma TOO_LONG_not_TOO_SHORT len : TOO_LONG_MESSAGE len ≠ TOO_SHORT_MESSAGE.
Proof.
  rewrite TOO_LONG_MESSAGE_unfold. unfold TOO_SHORT_MESSAGE. simpl. discriminate.
Qed.

(** C6, as stated, fails: a script of 5000 letters and a trailing space has
    trimmed length 5000, and [validateScript] rejects it, because the upper
    bound is checked on the raw length, 5001. *)
Lemma validateScript_rejects_padded_script :
  length (trim paddedScript) = MAX_SCRIPT_LENGTH
  ∧ validateScript paddedScript
    = {| isValid := false; errors := [TOO_LONG_MESSAGE (S MAX_SCRIPT_LENGTH)] |}.
Proof. split; vm_compute; reflexivity. Qed.

(** C6, amended: every script whose trimmed length is at least 10 and whose
    raw length is at most 5000 is valid, with an empty error list. *)
Theorem validateScript_accepts (script : list N) :
  (10 <= length (trim script))%nat ->
  (length script <= MAX_SCRIPT_LENGTH)%nat ->
  validateScript script = {| isValid := true; errors := [] |}.
Proof.
  intros Hmin Hmax. unfold validateScript.
  assert (Hne : script ≠ []) by (intros ->; simpl in Hmin; lia).
  rewrite bool_decide_eq_false_2 by exact Hne.
  destruct (Nat.eqb_spec (length (trim script)) 0) as [E|_]; [lia|].
  destruct (Nat.ltb_spec MAX_SCRIPT_LENGTH (length script)) as [L|_]; [lia|].
  destruct (Nat.ltb_spec (length (trim script)) 10) as [L|_]; [lia|].
  rewrite andb_false_r. reflexivity.
Qed.

(** The script of the unit test is accepted. *)
Lemma validateScript_accepts_witness :
  (10 <= length (trim validScript))%nat
  ∧ (length validScript <= MAX_SCRIPT_LENGTH)%nat
  ∧ validateScript validScript = {| isValid := true; errors := [] |}.
Proof.
  assert (H1 : (10 <= length (trim validScript))%nat) by (vm_compute; lia).
  assert (H2 : (length validScript <= MAX_SCRIPT_LENGTH)%nat)
    by (unfold MAX_SCRIPT_LENGTH; simpl; lia).
  exact (conj H1 (conj H2 (validateScript_accepts validScript H1 H2))).
Defined.

(** C7, as stated, fails at trimmed length 0: for the empty script the only
    error is the empty-script message; the minimum-length check is guarded by
    [script.trim().length > 0]. *)
Lemma validateScript_empty_has_no_min_length_error :
  (length (trim []) < 10)%nat
  ∧ errors (validateScript []) = [EMPTY_MESSAGE]
  ∧ TOO_SHORT_MESSAGE ∉ errors (validateScript []).
Proof.
  split; [simpl; lia|]. split; [reflexivity|].
  intros H. apply list_elem_of_singleton in H. discriminate H.
Qed.

(** C7, amended: for every script whose trimmed length is below 10, the error
    list holds the minimum-length message when the trimmed length is not 0,
    and the empty-script message without the minimum-length one when it is 0;
    the checks accumulate: a raw length above 5000 adds its own message in
    both cases. *)
Theorem validateScript_min_length (script : list N) :
  (length (trim script) < 10)%nat ->
  (length (trim script) ≠ 0%nat -> TOO_SHORT_MESSAGE ∈ errors (validateScript script))
  ∧ (length (trim script) = 0%nat ->
       EMPTY_MESSAGE ∈ errors (validateScript script)
       ∧ TOO_SHORT_MESSAGE ∉ errors (validateScript script))
  ∧ ((MAX_SCRIPT_LENGTH < length script)%nat ->
       TOO_LONG_MESSAGE (length script) ∈ errors (validateScript script)).
Proof.
  intros Hlt. unfold validateScript.
  destruct (Nat.ltb_spec (length (trim script)) 10) as [_|?]; [|lia].
  rewrite andb_true_r.
  destruct (Nat.eqb_spec (length (trim script)) 0) as [E|E].
  - rewrite orb_true_r.
    destruct (Nat.ltb_spec 0 (length (trim script))) as [?|_]; [lia|].
    destruct (Nat.ltb_spec MAX_SCRIPT_LENGTH (length script)) as [L|L]; simpl.
    + split; [done|]. split; [|intros _; set_solver].
      intros _. split; [set_solver|].
      intros H. apply elem_of_cons in H as [H|H]; [discriminate H|].
      apply list_elem_of_singleton in H. symmetry in H.
      by apply TOO_LONG_not_TOO_SHORT in H.
    + split; [done|]. split; [|lia].
      intros _. split; [set_solver|].
      intros H. apply list_elem_of_singleton in H. discriminate H.
  - destruct (Nat.ltb_spec 0 (length (trim script))) as [_|?]; [|lia].
    split; [intros _; set_solver|]. split; [done|].
    destruct (Nat.ltb_spec MAX_SCRIPT_LENGTH (length script)) as [L|L]; [|lia].
    intros _. set_solver.
Qed.

(** The script [short] gets the minimum-length error. *)
Lemma validateScript_min_length_witness :
  (length (trim shortScript) < 10)%nat
  ∧ TOO_SHORT_MESSAGE ∈ errors (validateScript shortScript).
Proof.
  assert (H : (length (trim shortScript) < 10)%nat) by (vm_compute; lia).
  split; [exact H|].
  apply (proj1 (validateScript_min_length shortScript H)).
  vm_compute. discriminate.
Defined.

End ValidationFacts.

(** ** The retry helper *)

Section RetryFacts.
Import Retry.
Context {S T : Type}.
Variable fn : S -> Outcome T * S.

Lemma stateBefore_S (k : nat) (st : S) :
  stateBefore fn (Datatypes.S k) st = snd (fn (stateBefore fn k st)).
Proof.
  revert st. induction k as [|k IH]; intros st; [reflexivity|].
  change (stateBefore fn (Datatypes.S (Datatypes.S k)) st)
    with (stateBefore fn (Datatypes.S k) (snd (fn st))).
  rewrite IH. reflexivity.
Qed.

(** When every remaining invocation rejects retryably, the loop runs through
    all its attempts and rejects with the error of the last one. *)
Lemma withRetry_loop_exhausts (config : RetryConfig) (n : nat) :
  ∀ (a : Z) (lastError : option Thrown) (st : S) (calls : nat) (slept : list Z),
    (a + Z.of_nat n = maxRetries config)%Z ->
    (∀ k, (k <= n)%nat -> rejectsRetryably fn st k) ->
    withRetry_loop fn config (seqZ a (Z.of_nat n + 1)) lastError st calls slept
    = mkRetryRun (fst (fn (stateBefore fn n st))) (stateBefore fn (Datatypes.S n) st)
        (calls + n + 1) (slept ++ (delayOf config <$> seqZ a (Z.of_nat n))).
Proof.
  induction n as [|n IH]; intros a lastError st calls slept Ha Hrej.
  - destruct (Hrej 0%nat) as (e & He & Hr); [lia|]. simpl in He.
    change (seqZ a (Z.of_nat 0 + 1)) with [a]. simpl.
    destruct (fn st) as [r st'] eqn:Hfn. simpl in He. subst r. simpl.
    rewrite Hr. simpl.
    replace (a =? maxRetries config)%Z with true by (symmetry; apply Z.eqb_eq; lia).
    rewrite app_nil_r, Nat.add_0_r. reflexivity.
  - destruct (Hrej 0%nat) as (e & He & Hr); [lia|]. simpl in He.
    rewrite seqZ_cons by lia.
    replace (Z.pred (Z.of_nat (Datatypes.S n) + 1)) with (Z.of_nat n + 1)%Z by lia.
    rewrite (seqZ_cons a (Z.of_nat (Datatypes.S n))) by lia.
    replace (Z.pred (Z.of_nat (Datatypes.S n))) with (Z.of_nat n) by lia.
    simpl withRetry_loop.
    destruct (fn st) as [r st'] eqn:Hfn. simpl in He. subst r. simpl.
    rewrite Hr. simpl.
    replace (a =? maxRetries config)%Z with false by (symmetry; apply Z.eqb_neq; lia).
    rewrite IH.
    + rewrite Hfn. simpl. f_equal; [lia|].
      rewrite <- app_assoc. reflexivity.
    + lia.
    + intros k Hk. specialize (Hrej (Datatypes.S k) ltac:(lia)).
      unfold rejectsRetryably in *. simpl in Hrej. rewrite Hfn in Hrej. exact Hrej.
Qed.

(** C4: when every invocation of the operation rejects with a retryable
    classified error, [withRetry] with [maxRetries = 3], [retryDelay = 1000]
    and exponential backoff invokes it exactly 4 times and rejects with the
    error of the 4th invocation (after waiting 1000, 2000 and 4000 ms). *)
Theorem withRetry_always_retryable (st : S) :
  (∀ k, rejectsRetryably fn st k) ->
  let run := withRetry fn (mkRetryConfig 3 1000 true) st in
  invocations run = 4%nat
  ∧ outcome run = fst (fn (stateBefore fn 3 st))
  ∧ delays run = [1000; 2000; 4000]%Z.
Proof.
  intros Hrej. cbv zeta. unfold withRetry.
  change (maxRetries (mkRetryConfig 3 1000 true) + 1)%Z with (Z.of_nat 3 + 1)%Z.
  rewrite withRetry_loop_exhausts; [|reflexivity|intros k _; apply Hrej].
  repeat split.
Qed.

(** With a negative [maxRetries] the loop body never runs; the operation is
    not invoked and the promise rejects with [Retry failed]. *)
Lemma withRetry_negative_maxRetries (config : RetryConfig) (st : S) :
  (maxRetries config < 0)%Z ->
  withRetry fn config st = mkRetryRun (Rejected (ThrowError "Retry failed")) st 0 [].
Proof. intros Hneg. unfold withRetry. rewrite seqZ_nil by lia. reflexivity. Qed.

(** C5, amended: when the first invocation rejects with a classified error
    whose [retryable] flag is false, [withRetry] invokes the operation once
    and rejects with that very error, without any delay, for every
    [maxRetries] that is at least 0; with a negative [maxRetries] the
    operation is not invoked at all and [withRetry] rejects with
    [Retry failed]. *)
Theorem withRetry_non_retryable (config : RetryConfig) (st st' : S)
    (e : VideoGenerationError) :
  fn st = (Rejected (ThrowVGE e), st') ->
  retryable e = false ->
  ((0 <= maxRetries config)%Z ->
     withRetry fn config st = mkRetryRun (Rejected (ThrowVGE e)) st' 1 [])
  ∧ ((maxRetries config < 0)%Z ->
       withRetry fn config st
       = mkRetryRun (Rejected (ThrowError "Retry failed")) st 0 []).
Proof.
  intros Hfn Hr. split.
  - intros Hmax. unfold withRetry.
    rewrite seqZ_cons by lia. simpl. rewrite Hfn. simpl. rewrite Hr. reflexivity.
  - apply withRetry_negative_maxRetries.
Qed.

End RetryFacts.

(** C5, as stated, fails for a negative [maxRetries]: with [maxRetries = -1]
    an operation that reports exhausted credit, a classified error that is
    not retryable, is not invoked once but never, and what [withRetry]
    rejects with is not that error. *)
Lemma withRetry_skips_the_operation :
  Retry.invocations
    (Retry.withRetry creditExhausted (Retry.mkRetryConfig (-1) 1000 true) 0%nat) = 0%nat
  ∧ Retry.outcome
      (Retry.withRetry creditExhausted (Retry.mkRetryConfig (-1) 1000 true) 0%nat)
    = Rejected (ThrowError "Retry failed")
  ∧ fst (creditExhausted 0%nat)
    = Rejected (ThrowVGE (mkVGE "insufficient credit" CREDIT_INSUFFICIENT None false)).
Proof. split; [reflexivity|]. split; reflexivity. Qed.

(** An operation that is rate limited on every call: four calls, and the error
    of the fourth. *)
Lemma withRetry_always_retryable_witness :
  (∀ k, Retry.rejectsRetryably alwaysRateLimited 0%nat k)
  ∧ Retry.invocations
      (Retry.withRetry alwaysRateLimited (Retry.mkRetryConfig 3 1000 true) 0%nat) = 4%nat
  ∧ Retry.outcome
      (Retry.withRetry alwaysRateLimited (Retry.mkRetryConfig 3 1000 true) 0%nat)
    = Rejected (ThrowVGE (mkVGE "rate limit, call 3" OPENAI_ERROR None true)).
Proof.
  assert (H : ∀ k, Retry.rejectsRetryably alwaysRateLimited 0%nat k).
  { intros k. unfold Retry.rejectsRetryably, alwaysRateLimited. simpl. eauto. }
  split; [exact H|].
  destruct (withRetry_always_retryable alwaysRateLimited 0%nat H) as (H1 & H2 & _).
  split; [exact H1|]. rewrite H2. reflexivity.
Defined.

(** An operation that reports exhausted credit: one call with the default
    configuration, none with [maxRetries = -1]. *)
Lemma withRetry_non_retryable_witness :
  Retry.withRetry creditExhausted Retry.DEFAULT_RETRY_CONFIG 0%nat
  = Retry.mkRetryRun
      (Rejected (ThrowVGE (mkVGE "insufficient credit" CREDIT_INSUFFICIENT None false)))
      1%nat 1%nat []
  ∧ Retry.withRetry creditExhausted (Retry.mkRetryConfig (-1) 1000 true) 0%nat
    = Retry.mkRetryRun (Rejected (ThrowError "Retry failed")) 0%nat 0%nat [].
Proof.
  split.
  - apply (proj1 (withRetry_non_retryable creditExhausted Retry.DEFAULT_RETRY_CONFIG
                    0%nat 1%nat
                    (mkVGE "insufficient credit" CREDIT_INSUFFICIENT None false)
                    eq_refl eq_refl)).
    simpl. lia.
  - apply (proj2 (withRetry_non_retryable creditExhausted
                    (Retry.mkRetryConfig (-1) 1000 true) 0%nat 1%nat
                    (mkVGE "insufficient credit" CREDIT_INSUFFICIENT None false)
                    eq_refl eq_refl)).
    simpl. lia.
Defined.

(** ** The synchronous service: progress snapshots *)

Section AsyncFacts.
Context {W A B : Type}.

Lemma bind_Resolved (m : Async W A) (k : A -> Async W B) (w w2 : W) (b : B) :
  bind m k w = (Resolved b, w2) ->
  ∃ a w1, m w = (Resolved a, w1) ∧ k a w1 = (Resolved b, w2).
Proof.
  unfold bind. destruct (m w) as [[a|e] w1]; [eauto|discriminate].
Qed.

End AsyncFacts.

Section RetryInvariant.
Import Retry.
Context {S T : Type}.
Variable fn : S -> Outcome T * S.
Variable config : RetryConfig.
Variable I : S -> Prop.
Hypothesis fn_keeps : ∀ st, I st -> I (snd (fn st)).

Lemma withRetry_loop_invariant (attempts : list Z) :
  ∀ lastError st calls slept,
    I st -> I (final (withRetry_loop fn config attempts lastError st calls slept)).
Proof.
  induction attempts as [|attempt rest IH]; intros lastError st calls slept Hst.
  - exact Hst.
  - simpl. specialize (fn_keeps st Hst).
    destruct (fn st) as [[v|error] st']; simpl in *; [exact fn_keeps|].
    destruct (isNonRetryableVGE error); [exact fn_keeps|].
    destruct (attempt =? maxRetries config)%Z; [exact fn_keeps|].
    apply IH. exact fn_keeps.
Qed.

Lemma withRetry_invariant (st : S) : I st -> I (final (withRetry fn config st)).
Proof. apply withRetry_loop_invariant. Qed.

End RetryInvariant.

Section ProgressFacts.
Import Progress TestService.
Context {S : Type}.
Variable toLowerCase : string -> string.
Variable callOpenAIAPI : list N -> Async S string.
Variable callDIDAPI : string -> Async S string.
Variable now : S -> Z.
Variable callback : ProgressState -> S -> option Thrown * S.

Lemma updateProgress_Resolved step (w w' : @World S) :
  updateProgress (Some callback) step None w = (Resolved tt, w') ->
  snd w' = snd w ++ [snapshot step].
Proof.
  unfold TestService.updateProgress.
  destruct (callback _ (fst w)) as [[e|] st]; intros H; inversion H; reflexivity.
Qed.

Lemma updateProgress_ERROR_rejects msg error (w : @World S) :
  ∀ (r : VideoGenerationResult) w',
    bind (updateProgress (Some callback) ERROR (Some msg)) (fun _ => throw error) w
    ≠ (Resolved r, w').
Proof.
  intros r w' H. apply bind_Resolved in H as (_ & w1 & _ & H). discriminate H.
Qed.

Lemma liftS_trace {A} (m : Async S A) (w : @World S) : snd (snd (liftS m w)) = snd w.
Proof. unfold liftS. destruct (m (fst w)); reflexivity. Qed.

Lemma generateAudio_trace script (w : @World S) :
  snd (snd (generateAudio toLowerCase callOpenAIAPI script w)) = snd w.
Proof.
  unfold generateAudio, tryCatch. pose proof (liftS_trace (callOpenAIAPI script) w) as H.
  destruct (liftS (callOpenAIAPI script) w) as [[v|e] w1]; exact H.
Qed.

Lemma generateVideoFromAudio_trace audioUrl (w : @World S) :
  snd (snd (generateVideoFromAudio toLowerCase callDIDAPI audioUrl w)) = snd w.
Proof.
  unfold generateVideoFromAudio, tryCatch.
  pose proof (liftS_trace (callDIDAPI audioUrl) w) as H.
  destruct (liftS (callDIDAPI audioUrl) w) as [[v|e] w1]; exact H.
Qed.

(** Retrying an operation that hands no snapshot to the callback hands none
    either. *)
Lemma awaitWithRetry_trace {A} (fn : Async (@World S) A) (w : @World S) :
  (∀ w0, snd (snd (fn w0)) = snd w0) ->
  snd (snd (awaitWithRetry fn w)) = snd w.
Proof.
  intros Hfn. unfold awaitWithRetry. simpl.
  apply (withRetry_invariant fn Retry.DEFAULT_RETRY_CONFIG (fun w0 => snd w0 = snd w));
    [|reflexivity].
  intros st Hst. rewrite Hfn. exact Hst.
Qed.

(** The log of a run of [generateVideo] that succeeds. *)
Lemma generateVideo_success_log (script : list N) (w w' : @World S)
    (result : VideoGenerationResult) :
  generateVideo toLowerCase callOpenAIAPI callDIDAPI now (Some callback) script w
  = (Resolved result, w') ->
  snd w' = snd w ++ [ snapshot VALIDATING; snapshot GENERATING_AUDIO;
                      snapshot GENERATING_VIDEO; snapshot COMPLETED ].
Proof.
  unfold TestService.generateVideo, tryCatch.
  match goal with |- context [bind ?m ?k w] =>
    destruct (bind m k w) as [[r|error] w1] eqn:Hbody end.
  2:{ intros H. by apply updateProgress_ERROR_rejects in H. }
  intros H. inversion H; subst r w1; clear H.
  apply bind_Resolved in Hbody as ([] & w1 & H1 & Hbody).
  apply bind_Resolved in Hbody as ([] & w2 & H2 & Hbody).
  apply bind_Resolved in Hbody as ([] & w3 & H3 & Hbody).
  apply bind_Resolved in Hbody as (audioUrl & w4 & H4 & Hbody).
  apply bind_Resolved in Hbody as ([] & w5 & H5 & Hbody).
  apply bind_Resolved in Hbody as (videoUrl & w6 & H6 & Hbody).
  apply bind_Resolved in Hbody as ([] & w7 & H7 & Hbody).
  inversion Hbody; subst; clear Hbody.
  apply updateProgress_Resolved in H1, H3, H5, H7.
  assert (E2 : w2 = w1).
  { unfold validateStep in H2.
    destruct (Validation.validateScriptOrThrow script); inversion H2; reflexivity. }
  pose proof (awaitWithRetry_trace _ w3 (generateAudio_trace script)) as E4.
  rewrite H4 in E4.
  pose proof (awaitWithRetry_trace _ w5 (generateVideoFromAudio_trace audioUrl)) as E6.
  rewrite H6 in E6. simpl in *. subst w2.
  rewrite H7, E6, H5, E4, H3, H1. rewrite <- !app_assoc. reflexivity.
Qed.

End ProgressFacts.

(** ** The synchronous service: what the callback receives *)

Section Recorder.
Import Progress TestService Snapshots.
Context {S : Type}.
Variable toLowerCase : string -> string.
Variable callOpenAIAPI : list N -> Async S string.
Variable callDIDAPI : string -> Async S string.
Variable now : S -> Z.
Variable callback : ProgressState -> S -> option Thrown * S.

Lemma inStep_bind {A B} (m : Async (@World (S * list ProgressState)) A)
    (k : A -> Async (@World (S * list ProgressState)) B) :
  inStep m -> (∀ a, inStep (k a)) -> inStep (bind m k).
Proof.
  intros Hm Hk w Hw. unfold bind. specialize (Hm w Hw).
  destruct (m w) as [[a|e] w1]; simpl in Hm; [by apply Hk|exact Hm].
Qed.

Lemma inStep_tryCatch {A} (m : Async (@World (S * list ProgressState)) A)
    (h : Thrown -> Async (@World (S * list ProgressState)) A) :
  inStep m -> (∀ e, inStep (h e)) -> inStep (tryCatch m h).
Proof.
  intros Hm Hh w Hw. unfold tryCatch. specialize (Hm w Hw).
  destruct (m w) as [[a|e] w1]; simpl in Hm; [exact Hm|by apply Hh].
Qed.

Lemma inStep_updateProgress step err :
  inStep (updateProgress (Some (recording callback)) step err).
Proof.
  intros w Hw. unfold updateProgress, recording, received in *.
  destruct (callback _ (fst (fst w))) as [[e|] st]; simpl; by rewrite Hw.
Qed.

Lemma inStep_liftS {A} (m : Async S A) : inStep (liftS (aside m)).
Proof.
  intros w Hw. unfold liftS, aside, received in *.
  destruct (m (fst (fst w))) as [r st]; exact Hw.
Qed.

Lemma inStep_throw {A} (e : Thrown) : inStep (@throw (@World (S * list ProgressState)) A e).
Proof. intros w Hw. exact Hw. Qed.

Lemma inStep_ret {A} (a : A) : inStep (@ret (@World (S * list ProgressState)) A a).
Proof. intros w Hw. exact Hw. Qed.

Lemma inStep_awaitWithRetry {A} (fn : Async (@World (S * list ProgressState)) A) :
  inStep fn -> inStep (awaitWithRetry fn).
Proof.
  intros Hfn w Hw. unfold awaitWithRetry. simpl.
  apply (withRetry_invariant fn Retry.DEFAULT_RETRY_CONFIG
           (fun w0 => received w0 = snd w0)); [exact Hfn|exact Hw].
Qed.

(** With the recorder attached, what the callback has received by the end of
    a run of [generateVideo] is what the log of the run holds. *)
Lemma generateVideo_inStep (script : list N) :
  inStep (generateVideo toLowerCase
            (fun script => aside (callOpenAIAPI script))
            (fun audioUrl => aside (callDIDAPI audioUrl))
            (fun st => now (fst st)) (Some (recording callback)) script).
Proof.
  intros w Hw. unfold generateVideo.
  apply inStep_tryCatch;
    [|intros e; apply inStep_bind; [apply inStep_updateProgress|intros _; apply inStep_throw]
     |exact Hw].
  apply inStep_bind; [apply inStep_updateProgress|intros _].
  apply inStep_bind.
  { unfold validateStep. destruct (Validation.validateScriptOrThrow script);
      [apply inStep_throw|apply inStep_ret]. }
  intros _. apply inStep_bind; [apply inStep_updateProgress|intros _].
  apply inStep_bind.
  { apply inStep_awaitWithRetry. unfold generateAudio.
    apply inStep_tryCatch; [apply inStep_liftS|intros e; apply inStep_throw]. }
  intros audioUrl. apply inStep_bind; [apply inStep_updateProgress|intros _].
  apply inStep_bind.
  { apply inStep_awaitWithRetry. unfold generateVideoFromAudio.
    apply inStep_tryCatch; [apply inStep_liftS|intros e; apply inStep_throw]. }
  intros videoUrl. apply inStep_bind; [apply inStep_updateProgress|intros _].
  intros w1 Hw1. exact Hw1.
Qed.

(** C8: in every run of [generateVideo] that succeeds, the snapshots the
    attached callback is invoked with are exactly VALIDATING (10),
    GENERATING_AUDIO (30), GENERATING_VIDEO (70) and COMPLETED (100), in this
    order, each once; the retries inside [withRetry] add none. The callback
    is any callback, with a recorder attached that notes what it is invoked
    with. *)
Theorem generateVideo_success_snapshots (script : list N) (st : S)
    (w' : @World (S * list ProgressState)) (result : VideoGenerationResult) :
  generateVideo toLowerCase
    (fun script => aside (callOpenAIAPI script))
    (fun audioUrl => aside (callDIDAPI audioUrl))
    (fun st => now (fst st)) (Some (recording callback)) script ((st, []), [])
  = (Resolved result, w') ->
  received w' =
    [ mkProgressState VALIDATING 10 "台本を検証しています..." None;
      mkProgressState GENERATING_AUDIO 30 "音声を生成しています..." None;
      mkProgressState GENERATING_VIDEO 70 "動画を生成しています..." None;
      mkProgressState COMPLETED 100 "動画生成が完了しました！" None ].
Proof.
  intros Hrun.
  pose proof (generateVideo_inStep script ((st, []), []) eq_refl) as Hstep.
  rewrite Hrun in Hstep. simpl in Hstep. rewrite Hstep.
  apply generateVideo_success_log in Hrun. exact Hrun.
Qed.

End Recorder.

(** A successful run whose speech request is retried once: three remote calls,
    and the four snapshots in the recorder of the callback. *)
Lemma generateVideo_success_snapshots_witness :
  ∃ w', TestService.generateVideo asciiToLowerCase
          (fun script => Snapshots.aside (flakyOpenAI script))
          (fun audioUrl => Snapshots.aside (steadyDID audioUrl))
          (fun st => callClock (fst st)) (Some (Snapshots.recording quietCallback))
          validScript ((0%nat, []), [])
        = (Resolved (TestService.mkVideoGenerationResult
                       "https://example.com/video.mp4" "https://example.com/audio.mp3" 7),
           w')
      ∧ fst (fst w') = 3%nat
      ∧ Progress.currentStep <$> Snapshots.received w'
        = [Progress.VALIDATING; Progress.GENERATING_AUDIO;
           Progress.GENERATING_VIDEO; Progress.COMPLETED].
Proof.
  eexists. split; [vm_compute; reflexivity|]. split; [reflexivity|].
  match goal with |- _ <$> Snapshots.received ?w = _ =>
    rewrite (generateVideo_success_snapshots asciiToLowerCase flakyOpenAI steadyDID
               callClock quietCallback validScript 0%nat w
               (TestService.mkVideoGenerationResult
                  "https://example.com/video.mp4" "https://example.com/audio.mp3" 7))
  end; [reflexivity|vm_compute; reflexivity].
Defined.

(** ** The D-ID client and the orchestrator variant *)

Section OrchestratorFacts.
Import Orchestrator.
Variable remote : nat -> Request -> Outcome Response.

Lemma pollStep_done_without_url (status : DIDResponse) :
  did_status status = "done" -> truthyStr (result_url status) = false ->
  pollStep status = PollContinue.
Proof. intros Hs Hu. unfold pollStep. rewrite Hs, Hu. reflexivity. Qed.

Lemma getVideoStatus_done_without_url (videoId : string) (w : World) :
  doneWithoutUrl (remote (requests w) (GetTalk videoId)) ->
  ∃ status,
    getVideoStatus remote videoId w
    = (Resolved status,
       mkWorld (scripts w) (clock w) (S (requests w)) (timers w) (reported w))
    ∧ pollStep status = PollContinue.
Proof.
  intros (response & status & Hr & Hok & Hj & Hs & Hu). exists status.
  split; [|by apply pollStep_done_without_url].
  unfold getVideoStatus, tryCatch, request, bind, fetch. rewrite Hr, Hok. simpl.
  rewrite Hj. reflexivity.
Qed.

(** The loop over [n] remaining attempts, the last of which is attempt
    [maxAttempts - 1], when every status read is [done] without a URL. *)
Lemma waitForVideoCompletion_loop_times_out (videoId : string) (maxAttempts intervalMs : Z)
    (n : nat) :
  (∀ k, doneWithoutUrl (remote k (GetTalk videoId))) ->
  ∀ (a : Z) (w : World),
    (a + Z.of_nat n = maxAttempts)%Z ->
    waitForVideoCompletion_loop remote videoId maxAttempts intervalMs (seqZ a (Z.of_nat n)) w
    = (Rejected (ThrowError "Video generation timeout"),
       mkWorld (scripts w) (clock w) (requests w + n)
         (timers w ++ replicate (n - 1) intervalMs) (reported w)).
Proof.
  intros Hall. induction n as [|n IH]; intros a w Ha.
  - simpl. rewrite Nat.add_0_r, app_nil_r. by destruct w.
  - rewrite seqZ_cons by lia.
    replace (Z.pred (Z.of_nat (S n))) with (Z.of_nat n) by lia.
    simpl. unfold bind at 1.
    destruct (getVideoStatus_done_without_url videoId w (Hall _)) as (status & -> & ->).
    unfold bind at 1.
    destruct (Z.ltb_spec a (maxAttempts - 1)) as [Hlt|Hge].
    + simpl. rewrite IH by lia. simpl.
      destruct n as [|n]; [lia|]. simpl.
      rewrite <- app_assoc, Nat.sub_0_r. simpl.
      do 3 f_equal. lia.
    + simpl. rewrite IH by lia. simpl.
      destruct n as [|n]; [|lia]. simpl.
      do 3 f_equal. lia.
Qed.

(** C9: a status response that reads [done] but has no [result_url] makes the
    polling attempt neither return nor raise (the loop goes on); when every
    attempt reads such a response, [waitForVideoCompletion] raises
    [Video generation timeout] after exactly [maxAttempts] status requests,
    having waited [intervalMs] between them. *)
Theorem waitForVideoCompletion_done_without_url (videoId : string)
    (maxAttempts intervalMs : Z) (w : World) :
  (∀ k, doneWithoutUrl (remote k (GetTalk videoId))) ->
  (∀ status, did_status status = "done" -> truthyStr (result_url status) = false ->
     pollStep status = PollContinue)
  ∧ waitForVideoCompletion remote videoId maxAttempts intervalMs w
    = (Rejected (ThrowError "Video generation timeout"),
       mkWorld (scripts w) (clock w) (requests w + Z.to_nat maxAttempts)
         (timers w ++ replicate (Z.to_nat maxAttempts - 1) intervalMs) (reported w)).
Proof.
  intros Hall. split; [exact pollStep_done_without_url|].
  unfold waitForVideoCompletion.
  destruct (Z.le_gt_cases 0 maxAttempts) as [Hpos|Hneg].
  - rewrite <- (Z2Nat.id maxAttempts) at 2 by exact Hpos.
    apply waitForVideoCompletion_loop_times_out; [exact Hall|lia].
  - rewrite seqZ_nil by lia. replace (Z.to_nat maxAttempts) with 0%nat by lia.
    simpl. rewrite Nat.add_0_r, app_nil_r. by destruct w.
Qed.

(** C10: for a script id that the database does not hold, [generateVideo]
    of the orchestrator variant rejects instead of resolving with
    [success: false]: [updateScriptStatus(scriptId, 'failed')] in the [catch]
    block throws [Script not found] itself. Nothing is requested, stored or
    reported. *)
Theorem generateVideo_unknown_script_rejects (presenterImageUrl : string)
    (onProgress : option (VideoGenerationProgress -> World -> option Thrown * World))
    (scriptId : string) (w : World) :
  scripts w !! scriptId = None ->
  generateVideo remote presenterImageUrl onProgress scriptId w
  = (Rejected (ThrowError ("Script not found: " +:+ scriptId)), w).
Proof.
  intros Hnone.
  unfold generateVideo, tryCatch, bind, getScript, updateScriptStatus, throw.
  rewrite Hnone. simpl. rewrite Hnone. reflexivity.
Qed.

End OrchestratorFacts.

(** Thirty status requests, all [done] without a URL, and twenty-nine waits. *)
Lemma waitForVideoCompletion_done_without_url_witness :
  (∀ k, Orchestrator.doneWithoutUrl (doneNoUrlRemote k (Orchestrator.GetTalk "tlk_1")))
  ∧ Orchestrator.waitForVideoCompletion doneNoUrlRemote "tlk_1"
      Orchestrator.DEFAULT_MAX_ATTEMPTS Orchestrator.DEFAULT_INTERVAL_MS emptyWorld
    = (Rejected (ThrowError "Video generation timeout"),
       Orchestrator.mkWorld ∅ 0 30 (replicate 29 5000%Z) []).
Proof.
  assert (H : ∀ k, Orchestrator.doneWithoutUrl
                     (doneNoUrlRemote k (Orchestrator.GetTalk "tlk_1"))).
  { intros k. unfold Orchestrator.doneWithoutUrl, doneNoUrlRemote. eauto 10. }
  split; [exact H|].
  rewrite (proj2 (waitForVideoCompletion_done_without_url doneNoUrlRemote "tlk_1"
                    Orchestrator.DEFAULT_MAX_ATTEMPTS Orchestrator.DEFAULT_INTERVAL_MS
                    emptyWorld H)).
  reflexivity.
Defined.

(** A script id on an empty database. *)
Lemma generateVideo_unknown_script_rejects_witness :
  Orchestrator.scripts emptyWorld !! "script_404" = None
  ∧ Orchestrator.generateVideo doneNoUrlRemote "https://example.com/presenter.jpg" None
      "script_404" emptyWorld
    = (Rejected (ThrowError "Script not found: script_404"), emptyWorld).
Proof.
  split; [reflexivity|].
  apply generateVideo_unknown_script_rejects. reflexivity.
Defined.

(** ** The background route: polling *)

Section PollFacts.
Import Route.
Variable axiosGet : nat -> string -> AxiosReply DIDStatusResponse.
Variable talkId : string.

Lemma afterPolls_0 (net : Net) : afterPolls 0 net = net.
Proof. unfold afterPolls. simpl. rewrite Nat.add_0_r, app_nil_r. by destruct net. Qed.

Lemma afterPolls_next (k : nat) (net : Net) :
  mkNet (posts net) (S (gets net + k)) (speeches net)
    ((timers net ++ replicate k 10000%Z) ++ [10000%Z])
  = afterPolls (S k) net.
Proof.
  unfold afterPolls. rewrite <- app_assoc, <- replicate_cons_app. simpl.
  f_equal. lia.
Qed.

(** One pass of the loop on a reply that is not terminal. *)
Lemma pollLoop_pending (attempt : Z) (rest : list Z) (net : Net) :
  pendingReply (axiosGet (gets net) talkId) = true ->
  pollLoop axiosGet talkId (attempt :: rest) net
  = pollLoop axiosGet talkId rest (afterPolls 1 net).
Proof.
  intros Hp. simpl. unfold bind, sleep, get. simpl.
  replace (afterPolls 1 net)
    with (mkNet (posts net) (S (gets net)) (speeches net) (timers net ++ [10000%Z]))
    by (unfold afterPolls; simpl; f_equal; lia).
  destruct (axiosGet (gets net) talkId) as [response|? ? ?|e]; simpl in Hp.
  - destruct (status response); try discriminate Hp; reflexivity.
  - reflexivity.
  - destruct e; try discriminate Hp; reflexivity.
Qed.

(** [k] passes on replies that are not terminal. *)
Lemma pollLoop_skip (k : nat) :
  ∀ (attempts : list Z) (net : Net),
    (k <= length attempts)%nat ->
    (∀ i, (i < k)%nat -> pendingReply (axiosGet (gets net + i) talkId) = true) ->
    pollLoop axiosGet talkId attempts net
    = pollLoop axiosGet talkId (drop k attempts) (afterPolls k net).
Proof.
  induction k as [|k IH]; intros attempts net Hlen Hpend.
  - rewrite afterPolls_0. reflexivity.
  - destruct attempts as [|attempt rest]; [simpl in Hlen; lia|].
    rewrite pollLoop_pending.
    2:{ specialize (Hpend 0%nat ltac:(lia)). by rewrite Nat.add_0_r in Hpend. }
    rewrite (IH rest); [|simpl in Hlen; lia|].
    + simpl drop. f_equal. unfold afterPolls. simpl.
      rewrite <- app_assoc. simpl. f_equal. lia.
    + intros i Hi. specialize (Hpend (S i) ltac:(lia)).
      unfold afterPolls. simpl.
      replace (gets net + 1 + i)%nat with (gets net + S i)%nat by lia. exact Hpend.
Qed.

(** The loop raises nothing but [VideoGenerationError]s. *)
Lemma pollLoop_rejects_VGE (attempts : list Z) :
  ∀ (net net' : Net) (e : Thrown),
    pollLoop axiosGet talkId attempts net = (Rejected e, net') -> ∃ v, e = ThrowVGE v.
Proof.
  induction attempts as [|attempt rest IH]; intros net net' e.
  - simpl. unfold throw. intros H. inversion H. eauto.
  - simpl. unfold bind, sleep, get, throw, ret. simpl.
    destruct (axiosGet (gets net) talkId) as [response|? ? ?|thrown].
    + destruct (status response); try (apply IH).
      * destruct (String.eqb _ _); intros H; inversion H; eauto.
      * intros H; inversion H; eauto.
      * intros H; inversion H; eauto.
    + apply IH.
    + destruct thrown; try (apply IH). intros H. inversion H. eauto.
Qed.

(** C3, amended: the polling loop of [generateLipSyncVideo] makes at most 60
    status requests, waiting 10000 ms before each. After [k] replies that
    are not terminal (job [created] or [processing], or a failed request) it
    ends as follows: with the result URL when the status is [done] and
    [result_url] is not empty; with a retryable DID_ERROR when the status is
    [done] and there is no [result_url]; with a non-retryable DID_ERROR when
    the status is [error] or [rejected]; with a retryable DID_ERROR (timed
    out after 600 seconds) when all 60 attempts are used up. *)
Theorem pollLoop_terminates (k : nat) (net : Net) :
  (k <= 60)%nat ->
  (∀ i, (i < k)%nat -> pendingReply (axiosGet (gets net + i) talkId) = true) ->
  let run := pollLoop axiosGet talkId (seqZ 0 maxAttempts) net in
  (k = 60%nat -> run = (Rejected (ThrowVGE timeoutError), afterPolls 60 net))
  ∧ (∀ response, (k < 60)%nat -> axiosGet (gets net + k) talkId = AxiosOk response ->
       (status response = done -> truthyStr (result_url response) = true ->
          run = (Resolved (default "" (result_url response)), afterPolls (S k) net))
       ∧ (status response = done -> truthyStr (result_url response) = false ->
            run = (Rejected (ThrowVGE noUrlError), afterPolls (S k) net))
       ∧ (status response = error ∨ status response = rejected ->
            run = (Rejected (ThrowVGE (jobFailedError response)), afterPolls (S k) net)
            ∧ type (jobFailedError response) = DID_ERROR
            ∧ retryable (jobFailedError response) = false))
  ∧ (type noUrlError = DID_ERROR ∧ retryable noUrlError = true)
  ∧ (timeoutError
     = mkVGE "Video generation timed out after 600 seconds" DID_ERROR None true).
Proof.
  intros Hk Hpend run.
  assert (Hlen : length (seqZ 0 maxAttempts) = 60%nat) by reflexivity.
  assert (Hrun : run = pollLoop axiosGet talkId (drop k (seqZ 0 maxAttempts))
                         (afterPolls k net)).
  { subst run. apply pollLoop_skip; [rewrite Hlen; exact Hk|exact Hpend]. }
  split; [|split; [|split; [split; reflexivity|reflexivity]]].
  - intros ->. rewrite Hrun. reflexivity.
  - intros response Hlt Hget.
    destruct (drop k (seqZ 0 maxAttempts)) as [|attempt rest] eqn:Hdrop.
    { apply (f_equal length) in Hdrop. rewrite length_drop, Hlen in Hdrop.
      simpl in Hdrop. lia. }
    rewrite Hrun. clear Hrun. clearbody run. simpl pollLoop. unfold bind, sleep, get. simpl.
    rewrite Hget. rewrite afterPolls_next.
    split; [|split].
    + intros -> Hu. unfold orElse. rewrite Hu.
      destruct (result_url response) as [url|]; [|discriminate Hu].
      simpl in Hu |- *. apply negb_true_iff in Hu. rewrite Hu. reflexivity.
    + intros -> Hu. unfold orElse. rewrite Hu. reflexivity.
    + intros [-> | ->]; (split; [reflexivity|split; reflexivity]).
Qed.

End PollFacts.


(** C3, as stated, fails on the status [done]: when the response carries no
    [result_url], [generateLipSyncVideo] does not return a URL; it raises a
    retryable DID_ERROR at once, on the first of its 60 attempts. *)
Lemma generateLipSyncVideo_done_without_url_raises :
  statusDoneNoUrl 0 "tlk_1" = Route.AxiosOk (Route.mkDIDStatusResponse Route.done None None)
  ∧ Route.generateLipSyncVideo apiKey talkCreated statusDoneNoUrl "SUQz"
      (Route.primary Route.DID_AVATAR_CONFIG) idleNet
    = (Rejected (ThrowVGE (mkVGE "D-ID API returned success but no video URL"
                             DID_ERROR None true)),
       Route.mkNet 1 1 0 [10000%Z]).
Proof. split; reflexivity. Qed.

(** A job that is [done] with a result on the first status request. *)
Lemma pollLoop_terminates_witness :
  Route.pollLoop statusDone "tlk_1" (seqZ 0 Route.maxAttempts) idleNet
  = (Resolved "https://d-id.example/result.mp4", Route.mkNet 0 1 0 [10000%Z]).
Proof.
  assert (Hk : (0 <= 60)%nat) by lia.
  assert (Hp : ∀ i, (i < 0)%nat ->
                 Route.pendingReply (statusDone (Route.gets idleNet + i) "tlk_1") = true)
    by (intros i Hi; lia).
  destruct (pollLoop_terminates statusDone "tlk_1" 0 idleNet Hk Hp) as (_ & H & _).
  destruct (H _ ltac:(lia) eq_refl) as (H1 & _).
  exact (H1 eq_refl eq_refl).
Defined.

(** ** The background route: fallback avatars and persistence *)

Section RouteFacts.
Import Route.
Variable OPENAI_API_KEY : option string.
Variable DID_API_KEY : option string.
Variable speechCreate : nat -> list N -> Outcome (list N).
Variable axiosPost : nat -> string -> string -> AxiosReply DIDCreateResponse.
Variable axiosGet : nat -> string -> AxiosReply DIDStatusResponse.
Variable base64 : list N -> string.

Lemma logged_logged l1 l2 store : logged l2 (logged l1 store) = logged (l1 ++ l2) store.
Proof. unfold logged. simpl. by rewrite <- app_assoc. Qed.

(** One pass of the fallback loop that succeeds. *)
Lemma fallbackLoop_success audio avatar rest idx v cur store net net' url :
  generateLipSyncVideo DID_API_KEY axiosPost axiosGet audio avatar net = (Resolved url, net') ->
  fallbackLoop DID_API_KEY axiosPost axiosGet audio (avatar :: rest) idx v cur (store, net)
  = (Resolved (url, avatar), (logged [LogRetryFallback (S idx) avatar] store, net')).
Proof.
  intros H. simpl. unfold tryCatch, bind, onStore, onNet, log. cbn [fst snd].
  rewrite H. reflexivity.
Qed.

(** One pass of the fallback loop that fails. *)
Lemma fallbackLoop_failure audio avatar rest idx v cur store net net' e :
  generateLipSyncVideo DID_API_KEY axiosPost axiosGet audio avatar net = (Rejected e, net') ->
  fallbackLoop DID_API_KEY axiosPost axiosGet audio (avatar :: rest) idx v cur (store, net)
  = let store' :=
      logged [LogRetryFallback (S idx) avatar; WarnFallbackFailed (S idx) e] store in
    if (length (fallbacks DID_AVATAR_CONFIG) <=? S idx)%nat
    then (Rejected e, (store', net'))
    else fallbackLoop DID_API_KEY axiosPost axiosGet audio rest (S idx) v avatar (store', net').
Proof.
  intros H. simpl. unfold tryCatch, bind, onStore, onNet, log. cbn [fst snd].
  rewrite H. cbn [fst snd]. rewrite logged_logged. simpl app.
  destruct idx as [|[|idx]]; reflexivity.
Qed.

Ltac step_update := unfold bind at 1; unfold onStore at 1, update at 1; cbn [fst snd].
Ltac step_log := unfold bind at 1; unfold onStore at 1, log at 1; cbn [fst snd].
Ltac step_net := unfold bind at 1; unfold onNet at 1; cbn [fst snd].

(** The run in which the second fallback image succeeds. *)
Lemma second_fallback_run videoId scriptContent avatarUrl store
    n0 n1 n2 n3 n4 audioBuffer e1 e2 url :
  generateAudio OPENAI_API_KEY speechCreate scriptContent n0 = (Resolved audioBuffer, n1) ->
  generateLipSyncVideo DID_API_KEY axiosPost axiosGet (base64 audioBuffer)
    (primaryAvatar avatarUrl) n1 = (Rejected e1, n2) ->
  isRetryableVGE e1 = true ->
  generateLipSyncVideo DID_API_KEY axiosPost axiosGet (base64 audioBuffer) amy n2
    = (Rejected e2, n3) ->
  generateLipSyncVideo DID_API_KEY axiosPost axiosGet (base64 audioBuffer) anna n3
    = (Resolved url, n4) ->
  generateVideoAsync OPENAI_API_KEY DID_API_KEY speechCreate axiosPost axiosGet base64
    videoId scriptContent avatarUrl (store, n0)
  = (Resolved tt,
     (logged [LogCompleted url (estimatedDuration scriptContent) anna]
        (patched (completedPatch url (estimatedDuration scriptContent)) videoId
           (logged [LogStep1; LogAudioGenerated (length audioBuffer); LogStep2;
                    WarnPrimaryFailed (messageOr "" e1) 0;
                    LogRetryFallback 1 amy; WarnFallbackFailed 1 e2;
                    LogRetryFallback 2 anna]
              (patched processingPatch videoId store))), n4)).
Proof.
  intros Haudio H1 Hr H2 H3.
  unfold generateVideoAsync, primaryAvatar in *.
  unfold tryCatch at 1. step_update. step_log. step_net. rewrite Haudio.
  step_log. step_log.
  unfold bind at 1. unfold tryCatch at 1. step_net.
  rewrite H1, Hr. cbn [andb Nat.ltb Nat.leb length fallbacks DID_AVATAR_CONFIG].
  step_log. cbn [drop].
  change (fallbacks DID_AVATAR_CONFIG) with [amy; anna].
  rewrite (fallbackLoop_failure _ _ _ _ _ _ _ _ _ _ H2).
  cbn [length Nat.leb fallbacks DID_AVATAR_CONFIG]. cbv zeta.
  rewrite (fallbackLoop_success _ _ _ _ _ _ _ _ _ _ H3).
  cbn [fst snd]. unfold onStore, update, log, bind. cbn [fst snd].
  rewrite !logged_logged. reflexivity.
Qed.

(** The run in which every image fails. *)
Lemma all_fail_run videoId scriptContent avatarUrl store
    n0 n1 n2 n3 n4 audioBuffer e1 e2 e3 :
  generateAudio OPENAI_API_KEY speechCreate scriptContent n0 = (Resolved audioBuffer, n1) ->
  generateLipSyncVideo DID_API_KEY axiosPost axiosGet (base64 audioBuffer)
    (primaryAvatar avatarUrl) n1 = (Rejected e1, n2) ->
  generateLipSyncVideo DID_API_KEY axiosPost axiosGet (base64 audioBuffer) amy n2
    = (Rejected e2, n3) ->
  generateLipSyncVideo DID_API_KEY axiosPost axiosGet (base64 audioBuffer) anna n3
    = (Rejected e3, n4) ->
  generateVideoAsync OPENAI_API_KEY DID_API_KEY speechCreate axiosPost axiosGet base64
    videoId scriptContent avatarUrl (store, n0)
  = if isRetryableVGE e1 then
      (Resolved tt,
       (patched (failedPatch (persistedMessage e3)) videoId
          (logged [LogStep1; LogAudioGenerated (length audioBuffer); LogStep2;
                   WarnPrimaryFailed (messageOr "" e1) 0;
                   LogRetryFallback 1 amy; WarnFallbackFailed 1 e2;
                   LogRetryFallback 2 anna; WarnFallbackFailed 2 e3; LogFailed e3]
             (patched processingPatch videoId store)), n4))
    else
      (Resolved tt,
       (patched (failedPatch (persistedMessage e1)) videoId
          (logged [LogStep1; LogAudioGenerated (length audioBuffer); LogStep2; LogFailed e1]
             (patched processingPatch videoId store)), n2)).
Proof.
  intros Haudio H1 H2 H3.
  unfold generateVideoAsync, primaryAvatar in *.
  unfold tryCatch at 1. step_update. step_log. step_net. rewrite Haudio.
  step_log. step_log.
  unfold bind at 1. unfold tryCatch at 1. step_net.
  rewrite H1. destruct (isRetryableVGE e1).
  - cbn [andb Nat.ltb Nat.leb length fallbacks DID_AVATAR_CONFIG].
    step_log. cbn [drop].
    change (fallbacks DID_AVATAR_CONFIG) with [amy; anna].
    rewrite (fallbackLoop_failure _ _ _ _ _ _ _ _ _ _ H2).
    cbn [length Nat.leb fallbacks DID_AVATAR_CONFIG]. cbv zeta.
    rewrite (fallbackLoop_failure _ _ _ _ _ _ _ _ _ _ H3).
    cbn [length Nat.leb fallbacks DID_AVATAR_CONFIG]. cbv zeta.
    unfold onStore, update, log, bind. cbn [fst snd].
    rewrite !logged_logged. reflexivity.
  - cbn [andb]. unfold throw at 1.
    unfold onStore, update, log, bind. cbn [fst snd].
    rewrite !logged_logged. reflexivity.
Qed.

(** [generateLipSyncVideo] raises nothing but [VideoGenerationError]s, so the
    message persisted for a failed attempt is the message of that error. *)
Lemma generateLipSyncVideo_rejects_VGE audio avatar (net net' : Net) (e : Thrown) :
  generateLipSyncVideo DID_API_KEY axiosPost axiosGet audio avatar net = (Rejected e, net') ->
  ∃ v, e = ThrowVGE v ∧ persistedMessage e = message v.
Proof.
  unfold generateLipSyncVideo, throw, post.
  destruct (negb (truthyStr DID_API_KEY)); [intros H; inversion H; eauto|].
  destruct (axiosPost (posts net) avatar audio) as [createResponse|? ? ?|thrown].
  - intros H. apply pollLoop_rejects_VGE in H as [v ->]. eauto.
  - intros H. inversion H. eauto.
  - destruct thrown; intros H; inversion H; eauto.
Qed.

Lemma accepted_processingPatch : accepted processingPatch = true.
Proof. reflexivity. Qed.

Lemma accepted_completedPatch (videoUrl : string) (duration : Z) :
  accepted (completedPatch videoUrl duration) = true.
Proof. reflexivity. Qed.

(** The table has no column [error_message]: the patch of a failed run is
    refused, whatever the message. *)
Lemma accepted_failedPatch (errorMessage : string) :
  accepted (failedPatch errorMessage) = false.
Proof. reflexivity. Qed.

Lemma patched_lookup patch videoId store row0 :
  accepted patch = true ->
  videos store !! videoId = Some row0 ->
  videos (patched patch videoId store) !! videoId
  = Some (<["updated_at" := JTime (dbClock store (length (statements store)))]>
            (patch ∪ row0)).
Proof.
  intros Ha H. unfold patched, updatedRows. cbn [videos]. rewrite Ha.
  rewrite lookup_alter_eq, H. reflexivity.
Qed.

Lemma patched_refused patch videoId store :
  accepted patch = false -> videos (patched patch videoId store) = videos store.
Proof. intros Ha. unfold patched, updatedRows. cbn [videos]. by rewrite Ha. Qed.

(** A column that the patch does not name, [updated_at] apart, keeps its
    value. *)
Lemma updated_row_frame (now : Z) (patch row : gmap string Json) (column : string) :
  column ≠ "updated_at" -> patch !! column = None ->
  (<["updated_at" := JTime now]> (patch ∪ row)) !! column = row !! column.
Proof.
  intros Hc Hp. rewrite lookup_insert_ne by done. by apply lookup_union_r.
Qed.

Lemma completedPatch_other (videoUrl : string) (duration : Z) (column : string) :
  column ≠ "status" -> column ≠ "video_url" -> column ≠ "duration" ->
  completedPatch videoUrl duration !! column = None.
Proof.
  intros Hs Hv Hd. unfold completedPatch.
  rewrite !lookup_insert_ne, lookup_singleton_ne; done.
Qed.

Lemma processingPatch_other (column : string) :
  column ≠ "status" -> processingPatch !! column = None.
Proof. intros H. unfold processingPatch. by rewrite lookup_singleton_ne. Qed.

(** C1, amended: when the image the run starts with fails with a retryable
    error, the first fallback image fails and the second succeeds, the run
    ends with persisted status [completed] and the persisted [video_url] is
    the URL made with the second fallback. The URL of that image is written
    to the completion entry of the console only, it is not persisted: the
    two updates the run sends name [status], [video_url] and [duration]; the
    trigger of the table refreshes [updated_at]; every other column of the
    row is as it was. *)
Theorem generateVideoAsync_second_fallback videoId scriptContent avatarUrl store row0
    n0 n1 n2 n3 n4 audioBuffer e1 e2 url :
  videos store !! videoId = Some row0 ->
  generateAudio OPENAI_API_KEY speechCreate scriptContent n0 = (Resolved audioBuffer, n1) ->
  generateLipSyncVideo DID_API_KEY axiosPost axiosGet (base64 audioBuffer)
    (primaryAvatar avatarUrl) n1 = (Rejected e1, n2) ->
  isRetryableVGE e1 = true ->
  generateLipSyncVideo DID_API_KEY axiosPost axiosGet (base64 audioBuffer) amy n2
    = (Rejected e2, n3) ->
  generateLipSyncVideo DID_API_KEY axiosPost axiosGet (base64 audioBuffer) anna n3
    = (Resolved url, n4) ->
  fallbacks DID_AVATAR_CONFIG = [amy; anna]
  ∧ ∃ store' row',
      generateVideoAsync OPENAI_API_KEY DID_API_KEY speechCreate axiosPost axiosGet base64
        videoId scriptContent avatarUrl (store, n0) = (Resolved tt, (store', n4))
      ∧ videos store' !! videoId = Some row'
      ∧ row' !! "status" = Some (JStr "completed")
      ∧ row' !! "video_url" = Some (JStr url)
      ∧ statements store'
        = statements store
            ++ [ (videoId, processingPatch);
                 (videoId, completedPatch url (estimatedDuration scriptContent)) ]
      ∧ row' !! "updated_at"
        = Some (JTime (dbClock store (S (length (statements store)))))
      ∧ (∀ column, column ∉ ["status"; "video_url"; "duration"; "updated_at"] ->
           row' !! column = row0 !! column)
      ∧ last (console store')
        = Some (LogCompleted url (estimatedDuration scriptContent) anna).
Proof.
  intros Hrow Haudio H1 Hr H2 H3. split; [reflexivity|].
  eexists _, _.
  split; [exact (second_fallback_run _ _ _ _ _ _ _ _ _ _ _ _ _
                   Haudio H1 Hr H2 H3)|].
  split.
  { unfold logged at 1. cbn [videos].
    apply patched_lookup; [apply accepted_completedPatch|].
    unfold logged. cbn [videos].
    apply patched_lookup; [apply accepted_processingPatch|exact Hrow]. }
  split; [rewrite lookup_insert_ne by done; by apply lookup_union_Some_l|].
  split; [rewrite lookup_insert_ne by done; by apply lookup_union_Some_l|].
  split; [cbn [statements logged patched]; by rewrite <- app_assoc|].
  split.
  { rewrite lookup_insert_eq. cbn [statements logged patched dbClock].
    rewrite length_app, Nat.add_1_r. reflexivity. }
  split.
  - intros column Hc.
    apply not_elem_of_cons in Hc as [Hs Hc]. apply not_elem_of_cons in Hc as [Hv Hc].
    apply not_elem_of_cons in Hc as [Hd Hc]. apply not_elem_of_cons in Hc as [Hu _].
    rewrite updated_row_frame; [|exact Hu|by apply completedPatch_other].
    apply updated_row_frame; [exact Hu|by apply processingPatch_other].
  - unfold logged at 1. cbn [console]. apply last_snoc.
Qed.

(** C2, amended: when the image the run starts with and both fallback images
    fail, the run writes no [video_url] and ends by sending the update that
    asks for status [failed] with, as [error_message], the message of the
    last error raised: that of the last fallback image when the first error
    was retryable and that of the first image otherwise (no fallback is then
    tried); no message of its own about the avatars being used up is made. *)
Theorem generateVideoAsync_all_fail videoId scriptContent avatarUrl store row0
    n0 n1 n2 n3 n4 audioBuffer e1 e2 e3 :
  videos store !! videoId = Some row0 ->
  generateAudio OPENAI_API_KEY speechCreate scriptContent n0 = (Resolved audioBuffer, n1) ->
  generateLipSyncVideo DID_API_KEY axiosPost axiosGet (base64 audioBuffer)
    (primaryAvatar avatarUrl) n1 = (Rejected e1, n2) ->
  generateLipSyncVideo DID_API_KEY axiosPost axiosGet (base64 audioBuffer) amy n2
    = (Rejected e2, n3) ->
  generateLipSyncVideo DID_API_KEY axiosPost axiosGet (base64 audioBuffer) anna n3
    = (Rejected e3, n4) ->
  fallbacks DID_AVATAR_CONFIG = [amy; anna]
  ∧ ∃ store' row',
      generateVideoAsync OPENAI_API_KEY DID_API_KEY speechCreate axiosPost axiosGet base64
        videoId scriptContent avatarUrl (store, n0)
      = (Resolved tt, (store', if isRetryableVGE e1 then n4 else n2))
      ∧ statements store'
        = statements store
            ++ [ (videoId, processingPatch);
                 (videoId,
                  failedPatch (persistedMessage (if isRetryableVGE e1 then e3 else e1))) ]
      ∧ videos store' !! videoId = Some row'
      ∧ row' !! "video_url" = row0 !! "video_url".
Proof.
  intros Hrow Haudio H1 H2 H3. split; [reflexivity|].
  pose proof (all_fail_run videoId _ _ store _ _ _ _ _ _ _ _ _
                Haudio H1 H2 H3) as Hrun.
  set (last := if isRetryableVGE e1 then e3 else e1).
  exists (patched (failedPatch (persistedMessage last)) videoId
            (logged (if isRetryableVGE e1
                     then [LogStep1; LogAudioGenerated (length audioBuffer); LogStep2;
                           WarnPrimaryFailed (messageOr "" e1) 0;
                           LogRetryFallback 1 amy; WarnFallbackFailed 1 e2;
                           LogRetryFallback 2 anna; WarnFallbackFailed 2 e3; LogFailed e3]
                     else [LogStep1; LogAudioGenerated (length audioBuffer); LogStep2;
                           LogFailed e1])
               (patched processingPatch videoId store))),
         (<["updated_at" := JTime (dbClock store (length (statements store)))]>
            (processingPatch ∪ row0)).
  split; [rewrite Hrun; subst last; destruct (isRetryableVGE e1); reflexivity|].
  split; [cbn [statements logged patched]; by rewrite <- app_assoc|].
  split.
  { rewrite patched_refused by apply accepted_failedPatch.
    unfold logged. cbn [videos].
    apply patched_lookup; [apply accepted_processingPatch|exact Hrow]. }
  apply updated_row_frame; [done|by apply processingPatch_other].
Qed.

End RouteFacts.

(** C1, as stated, fails: in the run below the first image and the first
    fallback are turned away with status 429 (a retryable error) and the
    second fallback succeeds; the row ends with status [completed], but it
    has no [avatarUsed] field and none of its columns holds the URL of the
    second fallback image, which appears in the console only. *)
Lemma generateVideoAsync_persists_no_avatar :
  let run :=
    Route.generateVideoAsync apiKey apiKey speechOk thirdTalkCreated statusDone base64Stub
      "video_1" validScript None (pendingStore, idleNet) in
  Route.console (fst (snd run))
  = [ Route.LogStep1; Route.LogAudioGenerated 3; Route.LogStep2;
      Route.WarnPrimaryFailed
        "D-ID API request failed: Request failed with status code 429" 0;
      Route.LogRetryFallback 1 Route.amy;
      Route.WarnFallbackFailed 1
        (ThrowVGE (mkVGE "D-ID API request failed: Request failed with status code 429"
                     DID_ERROR (Some "Request failed with status code 429") true));
      Route.LogRetryFallback 2 Route.anna;
      Route.LogCompleted "https://d-id.example/result.mp4" 2 Route.anna ]
  ∧ ∃ row,
      Route.videos (fst (snd run)) !! "video_1" = Some row
      ∧ row !! "status" = Some (Route.JStr "completed")
      ∧ row !! "avatarUsed" = None
      ∧ map_Forall (fun _ value => value ≠ Route.JStr Route.anna) row.
Proof.
  cbv zeta.
  rewrite (second_fallback_run apiKey apiKey speechOk thirdTalkCreated statusDone
             base64Stub "video_1" validScript None pendingStore
             idleNet (Route.mkNet 0 0 1 []) (Route.mkNet 1 0 1 []) (Route.mkNet 2 0 1 [])
             (Route.mkNet 3 1 1 [10000%Z]) [73; 68; 51]%N
             (ThrowVGE (Route.requestFailedError (Some 429%Z) None
                          "Request failed with status code 429"))
             (ThrowVGE (Route.requestFailedError (Some 429%Z) None
                          "Request failed with status code 429"))
             "https://d-id.example/result.mp4" eq_refl eq_refl eq_refl eq_refl eq_refl).
  cbn [fst snd]. split; [reflexivity|].
  exists (<["updated_at" := Route.JTime 11000]>
            (Route.completedPatch "https://d-id.example/result.mp4" 2
               ∪ <["updated_at" := Route.JTime 6000]> (Route.processingPatch ∪ pendingRow))).
  split.
  { unfold Route.logged at 1. cbn [Route.videos].
    rewrite (patched_lookup _ _ _
               (<["updated_at" := Route.JTime 6000]> (Route.processingPatch ∪ pendingRow)));
      [reflexivity|apply accepted_completedPatch|].
    unfold Route.logged. cbn [Route.videos].
    rewrite (patched_lookup _ _ _ pendingRow);
      [reflexivity|apply accepted_processingPatch|apply lookup_singleton_eq]. }
  split; [rewrite lookup_insert_ne by done; by apply lookup_union_Some_l|].
  split.
  { rewrite updated_row_frame; [|done|by apply completedPatch_other].
    rewrite updated_row_frame; [|done|by apply processingPatch_other].
    unfold pendingRow. by rewrite !lookup_insert_ne, lookup_singleton_ne. }
  unfold Route.completedPatch, Route.processingPatch, pendingRow, Route.anna.
  repeat first
    [ apply map_Forall_insert_2; [discriminate|]
    | apply map_Forall_union_2
    | apply map_Forall_empty ].
Qed.

(** The run in which the third talk request is the first to be accepted. *)
Lemma generateVideoAsync_second_fallback_witness :
  ∃ store' row',
    Route.generateVideoAsync apiKey apiKey speechOk thirdTalkCreated statusDone base64Stub
      "video_1" validScript None (pendingStore, idleNet)
    = (Resolved tt, (store', Route.mkNet 3 1 1 [10000%Z]))
    ∧ Route.videos store' !! "video_1" = Some row'
    ∧ row' !! "status" = Some (Route.JStr "completed")
    ∧ row' !! "video_url" = Some (Route.JStr "https://d-id.example/result.mp4")
    ∧ Route.statements store'
      = [ ("video_1", Route.processingPatch);
          ("video_1", Route.completedPatch "https://d-id.example/result.mp4" 2) ]
    ∧ row' !! "updated_at" = Some (Route.JTime 11000)
    ∧ row' !! "created_at" = Some (Route.JTime 1000)
    ∧ last (Route.console store')
      = Some (Route.LogCompleted "https://d-id.example/result.mp4" 2 Route.anna).
Proof.
  destruct (generateVideoAsync_second_fallback apiKey apiKey speechOk thirdTalkCreated
              statusDone base64Stub "video_1" validScript None pendingStore pendingRow
              idleNet (Route.mkNet 0 0 1 []) (Route.mkNet 1 0 1 []) (Route.mkNet 2 0 1 [])
              (Route.mkNet 3 1 1 [10000%Z]) [73; 68; 51]%N
              (ThrowVGE (Route.requestFailedError (Some 429%Z) None
                           "Request failed with status code 429"))
              (ThrowVGE (Route.requestFailedError (Some 429%Z) None
                           "Request failed with status code 429"))
              "https://d-id.example/result.mp4"
              eq_refl eq_refl eq_refl eq_refl eq_refl eq_refl)
    as (_ & store' & row' & Hrun & Hrow & Hstatus & Hurl & Hsent & Htime & Hframe & Hlog).
  exists store', row'.
  split; [exact Hrun|]. split; [exact Hrow|]. split; [exact Hstatus|].
  split; [exact Hurl|]. split; [exact Hsent|]. split; [exact Htime|].
  split; [|exact Hlog].
  rewrite Hframe; [reflexivity|].
  intros H. repeat (apply elem_of_cons in H as [H|H]; [discriminate H|]).
  by apply elem_of_nil in H.
Defined.

(** C2, as stated, fails: in the run below every talk request is turned away
    with status 429, so that the first image and both fallbacks fail. The
    message the run sends with its last update is the message of the last
    error, which says nothing of the avatars being used up; and the row does
    not end with status [failed]: the table has no column [error_message],
    the database refuses that update, and the row stays as the first update
    left it, with status [processing] and without a message. *)
Lemma generateVideoAsync_persists_last_error :
  let run :=
    Route.generateVideoAsync apiKey apiKey speechOk noTalkCreated statusDone base64Stub
      "video_1" validScript None (pendingStore, idleNet) in
  Route.posts (snd (snd run)) = 3%nat
  ∧ last (Route.statements (fst (snd run)))
    = Some ("video_1",
            Route.failedPatch
              "D-ID API request failed: Request failed with status code 429")
  ∧ includes "avatar"
      (asciiToLowerCase "D-ID API request failed: Request failed with status code 429")
    = false
  ∧ ∃ row,
      Route.videos (fst (snd run)) !! "video_1" = Some row
      ∧ row !! "status" = Some (Route.JStr "processing")
      ∧ row !! "video_url" = None
      ∧ row !! "error_message" = None.
Proof.
  cbv zeta.
  rewrite (all_fail_run apiKey apiKey speechOk noTalkCreated statusDone
             base64Stub "video_1" validScript None pendingStore
             idleNet (Route.mkNet 0 0 1 []) (Route.mkNet 1 0 1 []) (Route.mkNet 2 0 1 [])
             (Route.mkNet 3 0 1 []) [73; 68; 51]%N
             (ThrowVGE (Route.requestFailedError (Some 429%Z) None
                          "Request failed with status code 429"))
             (ThrowVGE (Route.requestFailedError (Some 429%Z) None
                          "Request failed with status code 429"))
             (ThrowVGE (Route.requestFailedError (Some 429%Z) None
                          "Request failed with status code 429"))
             eq_refl eq_refl eq_refl eq_refl).
  change (isRetryableVGE
            (ThrowVGE (Route.requestFailedError (Some 429%Z) None
                         "Request failed with status code 429"))) with true.
  cbn [fst snd].
  split; [reflexivity|]. split; [reflexivity|].
  split; [vm_compute; reflexivity|].
  exists (<["updated_at" := Route.JTime 6000]> (Route.processingPatch ∪ pendingRow)).
  split.
  { rewrite patched_refused by apply accepted_failedPatch.
    unfold Route.logged. cbn [Route.videos].
    rewrite (patched_lookup _ _ _ pendingRow);
      [reflexivity|apply accepted_processingPatch|apply lookup_singleton_eq]. }
  split; [rewrite lookup_insert_ne by done; by apply lookup_union_Some_l|].
  split.
  - rewrite updated_row_frame; [|done|by apply processingPatch_other].
    unfold pendingRow. by rewrite !lookup_insert_ne, lookup_singleton_ne.
  - rewrite updated_row_frame; [|done|by apply processingPatch_other].
    unfold pendingRow. by rewrite !lookup_insert_ne, lookup_singleton_ne.
Qed.

(** The run in which no talk request is accepted. *)
Lemma generateVideoAsync_all_fail_witness :
  ∃ store' row',
    Route.generateVideoAsync apiKey apiKey speechOk noTalkCreated statusDone base64Stub
      "video_1" validScript None (pendingStore, idleNet)
    = (Resolved tt, (store', Route.mkNet 3 0 1 []))
    ∧ Route.statements store'
      = [ ("video_1", Route.processingPatch);
          ("video_1",
           Route.failedPatch
             "D-ID API request failed: Request failed with status code 429") ]
    ∧ Route.videos store' !! "video_1" = Some row'
    ∧ row' !! "video_url" = None.
Proof.
  destruct (generateVideoAsync_all_fail apiKey apiKey speechOk noTalkCreated
              statusDone base64Stub "video_1" validScript None pendingStore pendingRow
              idleNet (Route.mkNet 0 0 1 []) (Route.mkNet 1 0 1 []) (Route.mkNet 2 0 1 [])
              (Route.mkNet 3 0 1 []) [73; 68; 51]%N
              (ThrowVGE (Route.requestFailedError (Some 429%Z) None
                           "Request failed with status code 429"))
              (ThrowVGE (Route.requestFailedError (Some 429%Z) None
                           "Request failed with status code 429"))
              (ThrowVGE (Route.requestFailedError (Some 429%Z) None
                           "Request failed with status code 429"))
              eq_refl eq_refl eq_refl eq_refl eq_refl)
    as (_ & store' & row' & Hrun & Hsent & Hrow & Hurl).
  exists store', row'.
  split; [exact Hrun|]. split; [exact Hsent|]. split; [exact Hrow|]. exact Hurl.
Defined.

(** * Further properties *)

(** ** The validator: further properties *)

Section ValidationMore.
Import Validation.

(** Validity read off the two lengths, and off the error list. *)
Lemma isValid_lengths (script : list N) :
  (isValid (validateScript script) = true
     ↔ (10 <= length (trim script))%nat ∧ (length script <= MAX_SCRIPT_LENGTH)%nat)
  ∧ (isValid (validateScript script) = true ↔ errors (validateScript script) = []).
Proof.
  unfold validateScript.
  destruct (Nat.eqb_spec (length (trim script)) 0) as [E0|E0];
    destruct (Nat.ltb_spec MAX_SCRIPT_LENGTH (length script)) as [L|L];
    destruct (Nat.ltb_spec 0 (length (trim script))) as [P|P];
    destruct (Nat.ltb_spec (length (trim script)) 10) as [T|T];
    try lia;
    rewrite ?orb_true_r; destruct (bool_decide (script = [])) eqn:Hnil; simpl;
    try (apply bool_decide_eq_true in Hnil; subst script; simpl in *; lia);
    (split; split; first [discriminate | lia | done | intros [? ?]; lia]).
Qed.

(** X1: a script is valid exactly when its trimmed length is at least 10 and
    its raw length is at most 5000; valid scripts, and only they, have an
    empty error list. *)
Theorem validateScript_valid_iff (script : list N) :
  (isValid (validateScript script) = true
     ↔ (10 <= length (trim script))%nat ∧ (length script <= MAX_SCRIPT_LENGTH)%nat)
  ∧ (isValid (validateScript script) = true ↔ errors (validateScript script) = []).
Proof. apply isValid_lengths. Qed.

(** X2: the error list has at most two entries, and the empty-script message
    and the minimum-length message never occur together. *)
Theorem validateScript_errors_bounded (script : list N) :
  (length (errors (validateScript script)) <= 2)%nat
  ∧ ¬ (EMPTY_MESSAGE ∈ errors (validateScript script)
       ∧ TOO_SHORT_MESSAGE ∈ errors (validateScript script)).
Proof.
  pose proof (TOO_LONG_not_TOO_SHORT (length script)) as Hne.
  assert (Hne' : TOO_LONG_MESSAGE (length script) ≠ EMPTY_MESSAGE).
  { rewrite TOO_LONG_MESSAGE_unfold. unfold EMPTY_MESSAGE. simpl. discriminate. }
  unfold validateScript.
  destruct (Nat.eqb_spec (length (trim script)) 0) as [E0|E0];
    destruct (Nat.ltb_spec MAX_SCRIPT_LENGTH (length script)) as [L|L];
    destruct (Nat.ltb_spec 0 (length (trim script))) as [P|P];
    destruct (Nat.ltb_spec (length (trim script)) 10) as [T|T];
    try lia;
    rewrite ?orb_true_r; destruct (bool_decide (script = [])) eqn:Hnil; simpl;
    try (apply bool_decide_eq_true in Hnil; subst script; simpl in *; lia);
    (split; [lia|]); intros [H1 H2];
    repeat match goal with
      | H : _ ∈ [] |- _ => by apply elem_of_nil in H
      | H : _ ∈ _ :: _ |- _ => apply elem_of_cons in H as [H|H]
      end; try discriminate; congruence.
Qed.

(** X3: [validateScriptOrThrow] returns normally exactly for the valid
    scripts; what it throws otherwise is a [VideoGenerationError] of type
    VALIDATION_ERROR that is not retryable and whose message is the error
    list joined by spaces. *)
Theorem validateScriptOrThrow_spec (script : list N) :
  (validateScriptOrThrow script = None
     ↔ (10 <= length (trim script))%nat ∧ (length script <= MAX_SCRIPT_LENGTH)%nat)
  ∧ (∀ thrown, validateScriptOrThrow script = Some thrown ->
       thrown = ThrowVGE (mkVGE (join " " (errors (validateScript script)))
                            VALIDATION_ERROR None false)
       ∧ errors (validateScript script) ≠ []).
Proof.
  destruct (isValid_lengths script) as [Hiff Hnil].
  unfold validateScriptOrThrow.
  destruct (isValid (validateScript script)) eqn:Hv; simpl.
  - split; [split; [intros _; by apply Hiff|done]|discriminate].
  - split.
    + split; [discriminate|]. intros H. apply Hiff in H. discriminate.
    + intros thrown H. inversion H. split; [reflexivity|].
      intros Hempty. apply Hnil in Hempty. discriminate.
Qed.

End ValidationMore.

(** ** The retry helper: further properties *)

Section RetryMore.
Import Retry Attempts.
Context {S T : Type}.
Variable fn : S -> Outcome T * S.
Variable config : RetryConfig.
Hypothesis maxRetries_nonneg : (0 <= maxRetries config)%Z.

(** X4: an operation that fails once with an error that may be retried (any
    error but a non-retryable [VideoGenerationError]) and then succeeds is
    invoked twice; the result is the success value and the only delay is
    [retryDelay], with or without exponential backoff. *)
Theorem withRetry_recovers (st st1 st2 : S) (e : Thrown) (v : T) :
  (1 <= maxRetries config)%Z ->
  fn st = (Rejected e, st1) ->
  isNonRetryableVGE e = false ->
  fn st1 = (Resolved v, st2) ->
  withRetry fn config st = mkRetryRun (Resolved v) st2 2 [retryDelay config].
Proof.
  intros Hmax H1 He H2. unfold withRetry.
  rewrite seqZ_cons by lia. rewrite seqZ_cons by lia. simpl.
  rewrite H1. simpl. rewrite He.
  destruct (maxRetries config) eqn:Emax; [lia| |lia].
  rewrite H2. simpl. change (2 ^ 0)%Z with 1%Z. rewrite Z.mul_1_r.
  destruct (exponentialBackoff config); reflexivity.
Qed.

(** The loop from attempt [a] on, with [n] attempts after it. *)
Lemma withRetry_loop_bounds (n : nat) :
  ∀ (a : Z) (lastError : option Thrown) (st : S) (calls : nat) (slept : list Z),
    (a + Z.of_nat n = maxRetries config)%Z ->
    let run := withRetry_loop fn config (seqZ a (Z.of_nat n + 1)) lastError st calls slept in
    (calls + 1 <= invocations run <= calls + n + 1)%nat
    ∧ delays run
      = slept ++ (delayOf config <$> seqZ a (Z.of_nat (invocations run - calls - 1))).
Proof.
  induction n as [|n IH]; intros a lastError st calls slept Ha; cbv zeta.
  - change (seqZ a (Z.of_nat 0 + 1)) with [a]. simpl.
    destruct (fn st) as [[v|error] st']; simpl.
    + replace (calls + 1 - calls - 1)%nat with 0%nat by lia.
      rewrite app_nil_r. split; [lia|reflexivity].
    + destruct (isNonRetryableVGE error); simpl.
      * replace (calls + 1 - calls - 1)%nat with 0%nat by lia.
        rewrite app_nil_r. split; [lia|reflexivity].
      * replace (a =? maxRetries config)%Z with true by (symmetry; apply Z.eqb_eq; lia).
        simpl. replace (calls + 1 - calls - 1)%nat with 0%nat by lia.
        rewrite app_nil_r. split; [lia|reflexivity].
  - rewrite seqZ_cons by lia.
    replace (Z.pred (Z.of_nat (Datatypes.S n) + 1)) with (Z.of_nat n + 1)%Z by lia.
    simpl withRetry_loop.
    destruct (fn st) as [[v|error] st']; simpl.
    + replace (calls + 1 - calls - 1)%nat with 0%nat by lia.
      rewrite app_nil_r. split; [lia|reflexivity].
    + destruct (isNonRetryableVGE error); simpl.
      * replace (calls + 1 - calls - 1)%nat with 0%nat by lia.
        rewrite app_nil_r. split; [lia|reflexivity].
      * replace (a =? maxRetries config)%Z with false by (symmetry; apply Z.eqb_neq; lia).
        specialize (IH (a + 1)%Z (Some error) st' (calls + 1)%nat
                      (slept ++ [delayOf config a]) ltac:(lia)).
        cbv zeta in IH. fold (delayOf config a).
        replace (Z.succ a) with (a + 1)%Z by lia.
        destruct IH as [Hb Hd]. split; [lia|].
        rewrite Hd, <- app_assoc. f_equal.
        set (i := invocations _) in *.
        replace (Z.of_nat (i - calls - 1)) with (Z.succ (Z.of_nat (i - (calls + 1) - 1))) by lia.
        rewrite (seqZ_cons a) by lia. rewrite Z.pred_succ.
        replace (Z.succ a) with (a + 1)%Z by lia. reflexivity.
Qed.

(** X5: whatever the operation does, [withRetry] invokes it at least once and
    at most [maxRetries + 1] times, and waits once between two invocations:
    [retryDelay * 2^i] after the i-th failure with exponential backoff,
    [retryDelay] without. *)
Theorem withRetry_bounds (st : S) :
  let run := withRetry fn config st in
  (1 <= invocations run <= Z.to_nat (maxRetries config) + 1)%nat
  ∧ delays run = delayOf config <$> seqZ 0 (Z.of_nat (invocations run - 1)).
Proof.
  cbv zeta. unfold withRetry.
  pose proof (withRetry_loop_bounds (Z.to_nat (maxRetries config)) 0 None st 0 []
                ltac:(lia)) as H.
  cbv zeta in H. rewrite Z2Nat.id in H by lia.
  destruct H as [Hb Hd]. split; [lia|].
  rewrite Hd. simpl. do 3 f_equal. lia.
Qed.

(** The loop when every remaining invocation fails with an error that may be
    retried. *)
Lemma withRetry_loop_runs_out (n : nat) :
  ∀ (a : Z) (lastError : option Thrown) (st : S) (calls : nat) (slept : list Z) (e : Thrown),
    (a + Z.of_nat n = maxRetries config)%Z ->
    (∀ k, (k <= n)%nat -> rejectsTransiently fn st k) ->
    fst (fn (stateBefore fn n st)) = Rejected e ->
    withRetry_loop fn config (seqZ a (Z.of_nat n + 1)) lastError st calls slept
    = mkRetryRun (Rejected (throwLast (Some e))) (stateBefore fn (Datatypes.S n) st)
        (calls + n + 1) (slept ++ (delayOf config <$> seqZ a (Z.of_nat n))).
Proof.
  induction n as [|n IH]; intros a lastError st calls slept e Ha Hrej Hlast.
  - destruct (Hrej 0%nat) as (e0 & He & Hr); [lia|]. simpl in He, Hlast.
    rewrite Hlast in He. inversion He; subst e0.
    change (seqZ a (Z.of_nat 0 + 1)) with [a]. simpl.
    destruct (fn st) as [r st'] eqn:Hfn. simpl in Hlast. subst r. simpl.
    rewrite Hr.
    replace (a =? maxRetries config)%Z with true by (symmetry; apply Z.eqb_eq; lia).
    rewrite app_nil_r, Nat.add_0_r. reflexivity.
  - destruct (Hrej 0%nat) as (e0 & He & Hr); [lia|]. simpl in He.
    rewrite seqZ_cons by lia.
    replace (Z.pred (Z.of_nat (Datatypes.S n) + 1)) with (Z.of_nat n + 1)%Z by lia.
    rewrite (seqZ_cons a (Z.of_nat (Datatypes.S n))) by lia.
    replace (Z.pred (Z.of_nat (Datatypes.S n))) with (Z.of_nat n) by lia.
    simpl withRetry_loop.
    destruct (fn st) as [r st'] eqn:Hfn. simpl in He. subst r. simpl.
    rewrite Hr.
    replace (a =? maxRetries config)%Z with false by (symmetry; apply Z.eqb_neq; lia).
    rewrite (IH _ _ _ _ _ e).
    + rewrite Hfn. simpl. f_equal; [lia|].
      rewrite <- app_assoc. reflexivity.
    + lia.
    + intros k Hk. specialize (Hrej (Datatypes.S k) ltac:(lia)).
      unfold rejectsTransiently in *. simpl in Hrej. rewrite Hfn in Hrej. exact Hrej.
    + simpl in Hlast. rewrite Hfn in Hlast. exact Hlast.
Qed.

(** X6: when every invocation fails with an error that may be retried (a
    plain [Error] counts), [withRetry] invokes the operation
    [maxRetries + 1] times and rejects with the error of the last
    invocation, or with [Error('Retry failed')] when what was thrown last is
    a falsy value. *)
Theorem withRetry_runs_out (st : S) (e : Thrown) :
  (∀ k, rejectsTransiently fn st k) ->
  fst (fn (stateBefore fn (Z.to_nat (maxRetries config)) st)) = Rejected e ->
  let run := withRetry fn config st in
  invocations run = (Z.to_nat (maxRetries config) + 1)%nat
  ∧ outcome run = Rejected (if truthy e then e else ThrowError "Retry failed")
  ∧ delays run = delayOf config <$> seqZ 0 (maxRetries config).
Proof.
  intros Hrej Hlast. cbv zeta.
  assert (Hrun : withRetry fn config st
                 = mkRetryRun (Rejected (throwLast (Some e)))
                     (stateBefore fn (Datatypes.S (Z.to_nat (maxRetries config))) st)
                     (0 + Z.to_nat (maxRetries config) + 1)
                     ([] ++ (delayOf config <$> seqZ 0 (maxRetries config)))).
  { unfold withRetry.
    replace (maxRetries config + 1)%Z
      with (Z.of_nat (Z.to_nat (maxRetries config)) + 1)%Z by lia.
    rewrite (withRetry_loop_runs_out _ _ _ _ _ _ e);
      [|lia|intros k _; apply Hrej|exact Hlast].
    rewrite Z2Nat.id by lia. reflexivity. }
  rewrite Hrun. simpl. split; [reflexivity|]. split; reflexivity.
Qed.

End RetryMore.

(** ** The synchronous service: further properties *)

Section AsyncMore.
Context {W A B : Type}.

Lemma bind_Rejected (m : Async W A) (k : A -> Async W B) (w w2 : W) (e : Thrown) :
  bind m k w = (Rejected e, w2) ->
  m w = (Rejected e, w2) ∨ ∃ a w1, m w = (Resolved a, w1) ∧ k a w1 = (Rejected e, w2).
Proof.
  unfold bind. destruct (m w) as [[a|e'] w1]; [eauto|]. intros H; inversion H; auto.
Qed.

End AsyncMore.

Section ServiceMore.
Import Progress TestService Snapshots.
Context {S : Type}.
Variable toLowerCase : string -> string.
Variable callOpenAIAPI : list N -> Async S string.
Variable callDIDAPI : string -> Async S string.
Variable now : S -> Z.
Variable callback : ProgressState -> S -> option Thrown * S.
Hypothesis callback_returns : neverThrows callback.

Lemma updateProgress_returns step err (w : @World S) :
  updateProgress (Some callback) step err w
  = (Resolved tt,
     (snd (callback (mkProgressState step (fst (PROGRESS_STEPS step))
                       (snd (PROGRESS_STEPS step)) err) (fst w)),
      snd w ++ [mkProgressState step (fst (PROGRESS_STEPS step))
                  (snd (PROGRESS_STEPS step)) err])).
Proof.
  unfold updateProgress.
  pose proof (callback_returns (mkProgressState step (fst (PROGRESS_STEPS step))
                                  (snd (PROGRESS_STEPS step)) err) (fst w)) as H.
  destruct (callback _ (fst w)) as [[e|] st]; simpl in *; [discriminate|reflexivity].
Qed.

(** X7: for an invalid script [generateVideo] rejects with the validation
    error after two snapshots, VALIDATING and ERROR with the joined
    validation messages, and calls neither remote service: the run is the
    same whatever the remote side would answer. *)
Theorem generateVideo_invalid_script (script : list N) (st : S) :
  Validation.isValid (Validation.validateScript script) = false ->
  let message := Validation.join " " (Validation.errors (Validation.validateScript script)) in
  generateVideo toLowerCase callOpenAIAPI callDIDAPI now (Some callback) script (st, [])
  = (Rejected (ThrowVGE (mkVGE message VALIDATION_ERROR None false)),
     (snd (callback (errorSnapshot message) (snd (callback (snapshot VALIDATING) st))),
      [snapshot VALIDATING; errorSnapshot message])).
Proof.
  intros Hinvalid. cbv zeta.
  unfold generateVideo, tryCatch.
  unfold bind at 1. rewrite updateProgress_returns. cbn [fst snd].
  unfold bind at 1. unfold validateStep, Validation.validateScriptOrThrow.
  rewrite Hinvalid. cbn [negb]. unfold throw at 1.
  unfold bind at 1. rewrite updateProgress_returns. reflexivity.
Qed.

(** The [try] block of [generateVideo], when it fails, has delivered the
    first one, two or three snapshots of a good run. *)
Lemma generateVideo_body_rejected (script : list N) (startTime : Z) (w w' : @World S)
    (e : Thrown) :
  (do! updateProgress (Some callback) VALIDATING None in
   do! validateStep script in
   do! updateProgress (Some callback) GENERATING_AUDIO None in
   let! audioUrl := awaitWithRetry (generateAudio toLowerCase callOpenAIAPI script) in
   do! updateProgress (Some callback) GENERATING_VIDEO None in
   let! videoUrl := awaitWithRetry (generateVideoFromAudio toLowerCase callDIDAPI audioUrl) in
   do! updateProgress (Some callback) COMPLETED None in
   fun w' =>
     let duration := ((now (fst w') - startTime) / 1000)%Z in
     ret (mkVideoGenerationResult videoUrl audioUrl duration) w') w
  = (Rejected e, w') ->
  ∃ n, (1 <= n <= 3)%nat ∧ snd w' = snd w ++ take n forwardSteps.
Proof.
  intros H.
  apply bind_Rejected in H as [H|([] & w1 & H1 & H)];
    [rewrite updateProgress_returns in H; discriminate|].
  rewrite updateProgress_returns in H1. inversion H1; subst w1; clear H1.
  apply bind_Rejected in H as [H|([] & w2 & H2 & H)].
  { exists 1%nat. split; [lia|]. unfold validateStep in H.
    destruct (Validation.validateScriptOrThrow script); inversion H. reflexivity. }
  assert (E2 : snd w2 = snd w ++ [snapshot VALIDATING]).
  { unfold validateStep in H2.
    destruct (Validation.validateScriptOrThrow script); inversion H2. reflexivity. }
  apply bind_Rejected in H as [H|([] & w3 & H3 & H)];
    [rewrite updateProgress_returns in H; discriminate|].
  rewrite updateProgress_returns in H3. inversion H3; subst w3; clear H3.
  apply bind_Rejected in H as [H|(audioUrl & w4 & H4 & H)].
  { exists 2%nat. split; [lia|].
    match type of H with awaitWithRetry ?fn ?w0 = _ =>
      pose proof (awaitWithRetry_trace fn w0
                    (generateAudio_trace toLowerCase callOpenAIAPI script)) as E
    end.
    rewrite H in E. simpl in E. rewrite E, E2, <- app_assoc. reflexivity. }
  assert (E4 : snd w4 = snd w ++ take 2 forwardSteps).
  { match type of H4 with awaitWithRetry ?fn ?w0 = _ =>
      pose proof (awaitWithRetry_trace fn w0
                    (generateAudio_trace toLowerCase callOpenAIAPI script)) as E
    end.
    rewrite H4 in E. simpl in E. rewrite E, E2, <- app_assoc. reflexivity. }
  apply bind_Rejected in H as [H|([] & w5 & H5 & H)];
    [rewrite updateProgress_returns in H; discriminate|].
  rewrite updateProgress_returns in H5. inversion H5; subst w5; clear H5.
  apply bind_Rejected in H as [H|(videoUrl & w6 & H6 & H)].
  { exists 3%nat. split; [lia|].
    match type of H with awaitWithRetry ?fn ?w0 = _ =>
      pose proof (awaitWithRetry_trace fn w0
                    (generateVideoFromAudio_trace toLowerCase callDIDAPI audioUrl)) as E
    end.
    rewrite H in E. simpl in E. rewrite E, E4, <- app_assoc. reflexivity. }
  apply bind_Rejected in H as [H|([] & w7 & H7 & H)];
    [rewrite updateProgress_returns in H; discriminate|].
  discriminate H.
Qed.

(** The log of a run that fails: the first one, two or three snapshots of a
    good run, then one ERROR snapshot with the message of the error. *)
Lemma generateVideo_failure_log (script : list N) (st : S) (w' : @World S)
    (e : Thrown) :
  generateVideo toLowerCase callOpenAIAPI callDIDAPI now (Some callback) script (st, [])
  = (Rejected e, w') ->
  ∃ n, (1 <= n <= 3)%nat
       ∧ snd w' = take n forwardSteps ++ [errorSnapshot (getErrorMessage e)].
Proof.
  unfold generateVideo, tryCatch.
  match goal with |- context [bind ?m ?k (st, [])] =>
    destruct (bind m k (st, [])) as [[r|error] w1] eqn:Hbody end.
  { intros H; discriminate H. }
  apply generateVideo_body_rejected in Hbody as (n & Hn & Htrace).
  unfold bind at 1. rewrite updateProgress_returns. unfold throw.
  intros H. inversion H; subst. exists n. split; [exact Hn|].
  simpl. rewrite Htrace. reflexivity.
Qed.

(** X9: a failure of the speech call that [createApiError] classifies as
    not retryable (its message, lower-cased by [toLowerCase] of the platform,
    contains none of [timeout], [network], [5xx], [rate limit]) is not
    retried: the call is made once and the step rejects with the
    OPENAI_ERROR made from it. *)
Theorem generateAudio_not_retried (script : list N) (w : @World S) (err : Thrown) (st' : S) :
  callOpenAIAPI script (fst w) = (Rejected err, st') ->
  retryable (createApiError toLowerCase err OPENAI_ERROR) = false ->
  Retry.withRetry (generateAudio toLowerCase callOpenAIAPI script) Retry.DEFAULT_RETRY_CONFIG w
  = Retry.mkRetryRun (Rejected (ThrowVGE (createApiError toLowerCase err OPENAI_ERROR)))
      (st', snd w) 1 [].
Proof.
  intros Hcall Hr. unfold Retry.withRetry.
  change (seqZ 0 (Retry.maxRetries Retry.DEFAULT_RETRY_CONFIG + 1)) with [0; 1; 2; 3]%Z.
  cbn [Retry.withRetry_loop]. unfold generateAudio at 1, tryCatch, liftS, throw.
  rewrite Hcall. cbn [isNonRetryableVGE negb]. rewrite Hr. reflexivity.
Qed.

End ServiceMore.

Section RecorderMore.
Import Progress TestService Snapshots.
Context {S : Type}.
Variable toLowerCase : string -> string.
Variable callOpenAIAPI : list N -> Async S string.
Variable callDIDAPI : string -> Async S string.
Variable now : S -> Z.
Variable callback : ProgressState -> S -> option Thrown * S.
Hypothesis callback_returns : neverThrows callback.

Lemma recording_returns : neverThrows (recording callback).
Proof.
  intros p st. unfold recording. specialize (callback_returns p (fst st)).
  destruct (callback p (fst st)) as [r s']. exact callback_returns.
Qed.

(** X8: with a callback that returns normally, a run that fails has invoked
    the callback with the first one, two or three snapshots of a good run
    (VALIDATING, GENERATING_AUDIO, GENERATING_VIDEO), in order, and then with
    exactly one ERROR snapshot that carries the message of the error; the run
    rejects with that same error. The callback is any such callback, with a
    recorder attached that notes what it is invoked with. *)
Theorem generateVideo_failure_snapshots (script : list N) (st : S)
    (w' : @World (S * list ProgressState)) (e : Thrown) :
  generateVideo toLowerCase
    (fun script => aside (callOpenAIAPI script))
    (fun audioUrl => aside (callDIDAPI audioUrl))
    (fun st => now (fst st)) (Some (recording callback)) script ((st, []), [])
  = (Rejected e, w') ->
  ∃ n, (1 <= n <= 3)%nat
       ∧ received w' = take n forwardSteps ++ [errorSnapshot (getErrorMessage e)].
Proof.
  intros Hrun.
  pose proof (generateVideo_inStep toLowerCase callOpenAIAPI callDIDAPI now callback
                script ((st, []), []) eq_refl) as Hstep.
  rewrite Hrun in Hstep. simpl in Hstep. rewrite Hstep.
  exact (generateVideo_failure_log _ _ _ _ _ recording_returns _ _ _ _ Hrun).
Qed.

End RecorderMore.

Section Observer.
Import Progress TestService Snapshots.
Context {S : Type}.
Variable toLowerCase : string -> string.
Variable callOpenAIAPI : list N -> Async S string.
Variable callDIDAPI : string -> Async S string.
Variable now : S -> Z.
Variable callback : ProgressState -> S -> option Thrown * S.
Hypothesis callback_observes : observes callback.

Lemma agree_bind {A B} (m1 m2 : Async (@World S) A) (k1 k2 : A -> Async (@World S) B) :
  agree m1 m2 -> (∀ a, agree (k1 a) (k2 a)) -> agree (bind m1 k1) (bind m2 k2).
Proof.
  intros Hm Hk w1 w2 Hw. unfold bind. specialize (Hm w1 w2 Hw).
  destruct (m1 w1) as [[a1|e1] w1'], (m2 w2) as [[a2|e2] w2']; simpl in Hm;
    destruct Hm as [Hr Hs]; try discriminate.
  - inversion Hr; subst. by apply Hk.
  - inversion Hr; subst. done.
Qed.

Lemma agree_tryCatch {A} (m1 m2 : Async (@World S) A) (h1 h2 : Thrown -> Async (@World S) A) :
  agree m1 m2 -> (∀ e, agree (h1 e) (h2 e)) -> agree (tryCatch m1 h1) (tryCatch m2 h2).
Proof.
  intros Hm Hh w1 w2 Hw. unfold tryCatch. specialize (Hm w1 w2 Hw).
  destruct (m1 w1) as [[a1|e1] w1'], (m2 w2) as [[a2|e2] w2']; simpl in Hm;
    destruct Hm as [Hr Hs]; try discriminate.
  - inversion Hr; subst. done.
  - inversion Hr; subst. by apply Hh.
Qed.

Lemma agree_updateProgress step err :
  agree (updateProgress (Some callback) step err) (updateProgress None step err).
Proof.
  intros w1 w2 Hw. unfold updateProgress. rewrite callback_observes. simpl. done.
Qed.

Lemma agree_liftS {A} (m : Async S A) : agree (liftS m) (liftS m).
Proof.
  intros w1 w2 Hw. unfold liftS. rewrite Hw. destruct (m (fst w2)); done.
Qed.

Lemma agree_throw {A} (e : Thrown) : agree (@throw (@World S) A e) (throw e).
Proof. intros w1 w2 Hw. done. Qed.

Lemma agree_ret {A} (a : A) : agree (@ret (@World S) A a) (ret a).
Proof. intros w1 w2 Hw. done. Qed.

Lemma agree_withRetry_loop {A} (fn : Async (@World S) A) config (attempts : list Z) :
  agree fn fn ->
  ∀ lastError w1 w2 calls slept, fst w1 = fst w2 ->
    let r1 := Retry.withRetry_loop fn config attempts lastError w1 calls slept in
    let r2 := Retry.withRetry_loop fn config attempts lastError w2 calls slept in
    Retry.outcome r1 = Retry.outcome r2 ∧ fst (Retry.final r1) = fst (Retry.final r2).
Proof.
  intros Hfn. induction attempts as [|attempt rest IH];
    intros lastError w1 w2 calls slept Hw; cbv zeta.
  - done.
  - simpl. specialize (Hfn w1 w2 Hw).
    destruct (fn w1) as [[a1|e1] w1'], (fn w2) as [[a2|e2] w2']; simpl in Hfn;
      destruct Hfn as [Hr Hs]; try discriminate.
    + inversion Hr; subst. done.
    + inversion Hr; subst.
      destruct (isNonRetryableVGE e2); [done|].
      destruct (attempt =? Retry.maxRetries config)%Z; [done|].
      by apply IH.
Qed.

Lemma agree_awaitWithRetry {A} (fn : Async (@World S) A) :
  agree fn fn -> agree (awaitWithRetry fn) (awaitWithRetry fn).
Proof.
  intros Hfn w1 w2 Hw. unfold awaitWithRetry. simpl.
  by apply agree_withRetry_loop.
Qed.

(** X10: attaching a callback that only observes does not change the run:
    with it and without it [generateVideo] settles alike and leaves the same
    outer state. *)
Theorem generateVideo_observer_has_no_effect (script : list N) (st : S) :
  let observed :=
    generateVideo toLowerCase callOpenAIAPI callDIDAPI now (Some callback) script (st, []) in
  let plain := generateVideo toLowerCase callOpenAIAPI callDIDAPI now None script (st, []) in
  fst observed = fst plain ∧ fst (snd observed) = fst (snd plain).
Proof.
  cbv zeta. unfold generateVideo. cbn [fst].
  apply agree_tryCatch; [|intros e; apply agree_bind;
                            [apply agree_updateProgress|intros _; apply agree_throw]|done].
  apply agree_bind; [apply agree_updateProgress|intros _].
  apply agree_bind.
  { unfold validateStep. destruct (Validation.validateScriptOrThrow script);
      [apply agree_throw|apply agree_ret]. }
  intros _. apply agree_bind; [apply agree_updateProgress|intros _].
  apply agree_bind.
  { apply agree_awaitWithRetry. unfold generateAudio.
    apply agree_tryCatch; [apply agree_liftS|intros e; apply agree_throw]. }
  intros audioUrl. apply agree_bind; [apply agree_updateProgress|intros _].
  apply agree_bind.
  { apply agree_awaitWithRetry. unfold generateVideoFromAudio.
    apply agree_tryCatch; [apply agree_liftS|intros e; apply agree_throw]. }
  intros videoUrl. apply agree_bind; [apply agree_updateProgress|intros _].
  intros w1 w2 Hw. unfold ret. simpl. rewrite Hw. done.
Qed.

End Observer.

(** ** The in-memory database: further properties *)

Section DatabaseMore.
Import Orchestrator Database.

(** X11: [updateScriptStatus] on a stored script resolves; afterwards
    [getScript] yields that script with the new status and time stamp and all
    its other fields as before, and every other script is untouched. *)
Theorem updateScriptStatus_round_trip (id : string) (status : VideoStatus)
    (script : ScriptData) (w : World) :
  scripts w !! id = Some script ->
  ∃ w', updateScriptStatus id status w = (Resolved tt, w')
        ∧ getScript id w' = (Resolved (Some (withStatus status (clock w) script)), w')
        ∧ (∀ other, other ≠ id -> scripts w' !! other = scripts w !! other)
        ∧ requests w' = requests w ∧ timers w' = timers w.
Proof.
  intros Hs. eexists. unfold updateScriptStatus. rewrite Hs.
  split; [reflexivity|]. unfold getScript, setScripts. simpl.
  rewrite lookup_insert_eq. split; [reflexivity|].
  split; [|done]. intros other Hne. by rewrite lookup_insert_ne.
Qed.

(** X12: on an id that is not stored, [updateScriptStatus],
    [updateScriptVideoUrl] and [deleteScript] all reject with
    [Script not found: <id>] and leave the world as it was, while [getScript]
    resolves with null. *)
Theorem unknown_script_operations (id url : string) (status : VideoStatus) (w : World) :
  scripts w !! id = None ->
  updateScriptStatus id status w = (Rejected (ThrowError ("Script not found: " +:+ id)), w)
  ∧ updateScriptVideoUrl id url w = (Rejected (ThrowError ("Script not found: " +:+ id)), w)
  ∧ deleteScript id w = (Rejected (ThrowError ("Script not found: " +:+ id)), w)
  ∧ getScript id w = (Resolved None, w).
Proof.
  intros Hn. unfold updateScriptStatus, updateScriptVideoUrl, deleteScript, getScript.
  rewrite Hn. done.
Qed.

(** X13: [deleteScript] on a stored script removes that script and no other;
    deleting it a second time rejects. *)
Theorem deleteScript_removes (id : string) (script : ScriptData) (w : World) :
  scripts w !! id = Some script ->
  ∃ w', deleteScript id w = (Resolved tt, w')
        ∧ getScript id w' = (Resolved None, w')
        ∧ (∀ other, other ≠ id -> scripts w' !! other = scripts w !! other)
        ∧ deleteScript id w' = (Rejected (ThrowError ("Script not found: " +:+ id)), w').
Proof.
  intros Hs. eexists. unfold deleteScript at 1. rewrite Hs.
  split; [reflexivity|]. unfold getScript, deleteScript, setScripts. simpl.
  rewrite lookup_delete_eq. split; [reflexivity|].
  split; [|reflexivity]. intros other Hne. by rewrite lookup_delete_ne.
Qed.

End DatabaseMore.

(** ** The D-ID client: further properties *)

Section ClientMore.
Import Orchestrator Database.
Variable remote : nat -> Request -> Outcome Response.

Lemma request_frame (req : Request) (w : World) :
  let w' := snd (request remote req w) in
  sameStore w w' ∧ requests w' = S (requests w) ∧ timers w' = timers w.
Proof.
  cbv zeta. unfold request, bind, fetch, throw.
  destruct (remote (requests w) req) as [response|e]; simpl; [|done].
  destruct (ok response); simpl; [|done]. done.
Qed.

Lemma wrapped_request (req : Request) (prefix : string) (w : World) :
  oneRequestWrapped prefix
    (tryCatch (request remote req)
       (fun error => throw (ThrowError (prefix +:+ messageOr "Unknown error" error)))) w.
Proof.
  unfold oneRequestWrapped, tryCatch, throw.
  pose proof (request_frame req w) as Hf. cbv zeta in Hf.
  destruct (request remote req w) as [[v|e0] w1]; simpl in *;
    destruct Hf as (? & ? & ?); (split; [done|]); (split; [done|]); (split; [done|]).
  - intros e He. discriminate He.
  - intros e He. inversion He. eauto.
Qed.

(** X14: each of [createVideoFromText], [createVideo] and [getVideoStatus]
    sends exactly one request and touches nothing else; whatever goes wrong
    (the request fails, the status is not ok, the body is no JSON), it
    rejects with a plain [Error] whose message starts with
    [Video generation failed: ] (the first two) or
    [Failed to get video status: ]. *)
Theorem client_calls_wrap_errors (text audioUrl presenter videoId : string) (w : World) :
  oneRequestWrapped "Video generation failed: " (createVideoFromText remote text presenter) w
  ∧ oneRequestWrapped "Video generation failed: " (createVideo remote audioUrl presenter) w
  ∧ oneRequestWrapped "Failed to get video status: " (getVideoStatus remote videoId) w.
Proof. split; [|split]; apply wrapped_request. Qed.

Lemma getVideoStatus_continuing (videoId : string) (w : World) :
  continuing (remote (requests w) (GetTalk videoId)) ->
  ∃ status,
    getVideoStatus remote videoId w
    = (Resolved status,
       mkWorld (scripts w) (clock w) (S (requests w)) (timers w) (reported w))
    ∧ pollStep status = PollContinue.
Proof.
  intros (response & status & Hr & Hok & Hj & Hs). exists status. split; [|exact Hs].
  unfold getVideoStatus, tryCatch, request, bind, fetch. rewrite Hr, Hok. simpl.
  rewrite Hj. reflexivity.
Qed.

(** [k] attempts that all go on, none of them the last one. *)
Lemma waitForVideoCompletion_loop_skip (videoId : string) (maxAttempts intervalMs : Z)
    (k : nat) :
  ∀ (a : Z) (n : nat) (w : World),
    (k <= n)%nat ->
    (a + Z.of_nat k < maxAttempts)%Z ->
    (∀ i, (i < k)%nat -> continuing (remote (requests w + i) (GetTalk videoId))) ->
    waitForVideoCompletion_loop remote videoId maxAttempts intervalMs (seqZ a (Z.of_nat n)) w
    = waitForVideoCompletion_loop remote videoId maxAttempts intervalMs
        (seqZ (a + Z.of_nat k) (Z.of_nat (n - k))) (afterWaits k intervalMs w).
Proof.
  induction k as [|k IH]; intros a n w Hkn Hlt Hcont.
  - unfold afterWaits. simpl. rewrite Z.add_0_r, Nat.sub_0_r, Nat.add_0_r, app_nil_r.
    by destruct w.
  - destruct n as [|n]; [lia|].
    rewrite seqZ_cons by lia.
    replace (Z.pred (Z.of_nat (S n))) with (Z.of_nat n) by lia.
    simpl waitForVideoCompletion_loop. unfold bind at 1.
    destruct (getVideoStatus_continuing videoId w) as (status & -> & ->).
    { specialize (Hcont 0%nat ltac:(lia)). by rewrite Nat.add_0_r in Hcont. }
    unfold bind at 1.
    destruct (Z.ltb_spec a (maxAttempts - 1)) as [_|?]; [|lia].
    simpl. rewrite (IH (Z.succ a) n); [| lia | lia |].
    + f_equal; [f_equal; lia|].
      unfold afterWaits. simpl. rewrite <- app_assoc. simpl. f_equal. lia.
    + intros i Hi. simpl. specialize (Hcont (S i) ltac:(lia)).
      replace (S (requests w + i)) with (requests w + S i)%nat by lia. exact Hcont.
Qed.

(** The reply that ends the wait: what the attempt numbered [k] reads. *)
Lemma waitForVideoCompletion_at (videoId : string) (maxAttempts intervalMs : Z)
    (k : nat) (w : World) :
  (Z.of_nat k < maxAttempts)%Z ->
  (∀ i, (i < k)%nat -> continuing (remote (requests w + i) (GetTalk videoId))) ->
  waitForVideoCompletion remote videoId maxAttempts intervalMs w
  = waitForVideoCompletion_loop remote videoId maxAttempts intervalMs
      (seqZ (Z.of_nat k) (maxAttempts - Z.of_nat k)) (afterWaits k intervalMs w).
Proof.
  intros Hk Hcont. unfold waitForVideoCompletion.
  rewrite <- (Z2Nat.id maxAttempts) at 2 by lia.
  rewrite (waitForVideoCompletion_loop_skip videoId maxAttempts intervalMs k 0
             (Z.to_nat maxAttempts) w); [|lia|lia|exact Hcont].
  do 2 f_equal. lia.
Qed.

(** X15: when the first [k] status responses are not terminal and the next
    one reads [done] with a [result_url], [waitForVideoCompletion] resolves
    with that URL after [k + 1] requests and [k] waits of [intervalMs]. *)
Theorem waitForVideoCompletion_returns_url (videoId : string) (maxAttempts intervalMs : Z)
    (k : nat) (w : World) (response : Response) (status : DIDResponse) (url : string) :
  (Z.of_nat k < maxAttempts)%Z ->
  (∀ i, (i < k)%nat -> continuing (remote (requests w + i) (GetTalk videoId))) ->
  remote (requests w + k) (GetTalk videoId) = Resolved response ->
  ok response = true -> json response = Resolved status ->
  did_status status = "done" -> result_url status = Some url -> url ≠ "" ->
  waitForVideoCompletion remote videoId maxAttempts intervalMs w
  = (Resolved url,
     mkWorld (scripts w) (clock w) (requests w + k + 1)
       (timers w ++ replicate k intervalMs) (reported w)).
Proof.
  intros Hk Hcont Hr Hok Hj Hs Hu Hne.
  rewrite (waitForVideoCompletion_at videoId maxAttempts intervalMs k w Hk Hcont).
  rewrite seqZ_cons by lia. simpl waitForVideoCompletion_loop.
  unfold bind at 1, getVideoStatus, tryCatch, request, bind, fetch.
  unfold afterWaits. simpl. rewrite Hr, Hok. simpl. rewrite Hj.
  unfold pollStep. rewrite Hs, Hu. simpl.
  destruct (String.eqb_spec url "") as [->|_]; [done|]. simpl.
  unfold ret. do 2 f_equal. lia.
Qed.

(** X16: when the first [k] status responses are not terminal and the next
    one reads [error], [waitForVideoCompletion] rejects with
    [Error('Video generation failed')] at once, after [k + 1] requests. *)
Theorem waitForVideoCompletion_error_status (videoId : string) (maxAttempts intervalMs : Z)
    (k : nat) (w : World) (response : Response) (status : DIDResponse) :
  (Z.of_nat k < maxAttempts)%Z ->
  (∀ i, (i < k)%nat -> continuing (remote (requests w + i) (GetTalk videoId))) ->
  remote (requests w + k) (GetTalk videoId) = Resolved response ->
  ok response = true -> json response = Resolved status ->
  did_status status = "error" ->
  waitForVideoCompletion remote videoId maxAttempts intervalMs w
  = (Rejected (ThrowError "Video generation failed"),
     mkWorld (scripts w) (clock w) (requests w + k + 1)
       (timers w ++ replicate k intervalMs) (reported w)).
Proof.
  intros Hk Hcont Hr Hok Hj Hs.
  rewrite (waitForVideoCompletion_at videoId maxAttempts intervalMs k w Hk Hcont).
  rewrite seqZ_cons by lia. simpl waitForVideoCompletion_loop.
  unfold bind at 1, getVideoStatus, tryCatch, request, bind, fetch.
  unfold afterWaits. simpl. rewrite Hr, Hok. simpl. rewrite Hj.
  unfold pollStep. rewrite Hs. simpl. unfold throw. do 2 f_equal. lia.
Qed.

(** X17: a status request that fails is not retried: when the response after
    [k] non-terminal ones has a status that is not ok, the wait ends at once
    with [Failed to get video status: D-ID API error: <status> <text>]. *)
Theorem waitForVideoCompletion_request_failure (videoId : string)
    (maxAttempts intervalMs : Z) (k : nat) (w : World) (response : Response) :
  (Z.of_nat k < maxAttempts)%Z ->
  (∀ i, (i < k)%nat -> continuing (remote (requests w + i) (GetTalk videoId))) ->
  remote (requests w + k) (GetTalk videoId) = Resolved response ->
  ok response = false ->
  waitForVideoCompletion remote videoId maxAttempts intervalMs w
  = (Rejected (ThrowError ("Failed to get video status: D-ID API error: "
                             +:+ pretty (http_status response) +:+ " "
                             +:+ statusText response)),
     mkWorld (scripts w) (clock w) (requests w + k + 1)
       (timers w ++ replicate k intervalMs) (reported w)).
Proof.
  intros Hk Hcont Hr Hok.
  rewrite (waitForVideoCompletion_at videoId maxAttempts intervalMs k w Hk Hcont).
  rewrite seqZ_cons by lia. simpl waitForVideoCompletion_loop.
  unfold bind at 1, getVideoStatus, tryCatch, request, bind, fetch.
  unfold afterWaits. simpl. rewrite Hr, Hok. simpl. unfold throw. do 2 f_equal. lia.
Qed.

(** The loop over [n] remaining attempts that all go on. *)
Lemma waitForVideoCompletion_loop_runs_out (videoId : string) (maxAttempts intervalMs : Z)
    (n : nat) :
  (∀ i, continuing (remote i (GetTalk videoId))) ->
  ∀ (a : Z) (w : World),
    (a + Z.of_nat n = maxAttempts)%Z ->
    waitForVideoCompletion_loop remote videoId maxAttempts intervalMs (seqZ a (Z.of_nat n)) w
    = (Rejected (ThrowError "Video generation timeout"),
       mkWorld (scripts w) (clock w) (requests w + n)
         (timers w ++ replicate (n - 1) intervalMs) (reported w)).
Proof.
  intros Hall. induction n as [|n IH]; intros a w Ha.
  - simpl. rewrite Nat.add_0_r, app_nil_r. by destruct w.
  - rewrite seqZ_cons by lia.
    replace (Z.pred (Z.of_nat (S n))) with (Z.of_nat n) by lia.
    simpl. unfold bind at 1.
    destruct (getVideoStatus_continuing videoId w (Hall _)) as (status & -> & ->).
    unfold bind at 1.
    destruct (Z.ltb_spec a (maxAttempts - 1)) as [Hlt|Hge].
    + simpl. rewrite IH by lia. simpl.
      destruct n as [|n]; [lia|]. simpl.
      rewrite <- app_assoc, Nat.sub_0_r. simpl. do 3 f_equal. lia.
    + simpl. rewrite IH by lia. simpl.
      destruct n as [|n]; [|lia]. simpl. do 3 f_equal. lia.
Qed.

(** X18: the status [rejected] is not terminal for [waitForVideoCompletion]
    (only [done] with a URL and [error] are): a response with any other
    status makes the attempt go on, and when all responses are such the wait
    ends with [Video generation timeout] after [maxAttempts] requests. *)
Theorem waitForVideoCompletion_other_status_times_out (videoId : string)
    (maxAttempts intervalMs : Z) (w : World) :
  (∀ i, continuing (remote i (GetTalk videoId))) ->
  (∀ id url, pollStep (mkDIDResponse id "rejected" url) = PollContinue)
  ∧ waitForVideoCompletion remote videoId maxAttempts intervalMs w
    = (Rejected (ThrowError "Video generation timeout"),
       mkWorld (scripts w) (clock w) (requests w + Z.to_nat maxAttempts)
         (timers w ++ replicate (Z.to_nat maxAttempts - 1) intervalMs) (reported w)).
Proof.
  intros Hall. split; [reflexivity|].
  unfold waitForVideoCompletion.
  destruct (Z.le_gt_cases 0 maxAttempts) as [Hpos|Hneg].
  - rewrite <- (Z2Nat.id maxAttempts) at 2 by exact Hpos.
    apply waitForVideoCompletion_loop_runs_out; [exact Hall|lia].
  - rewrite seqZ_nil by lia. replace (Z.to_nat maxAttempts) with 0%nat by lia.
    simpl. rewrite Nat.add_0_r, app_nil_r. by destruct w.
Qed.

End ClientMore.

(** ** The orchestrator variant: further properties *)

Section OrchestratorMore.
Import Orchestrator Database.
Variable remote : nat -> Request -> Outcome Response.
Variable presenterImageUrl : string.
Variable onProgress : option (VideoGenerationProgress -> World -> option Thrown * World).
Hypothesis onProgress_harmless : harmless onProgress.

Lemma report_quiet (progress : VideoGenerationProgress) (w : World) :
  ∃ w', report onProgress progress w = (Resolved tt, w') ∧ scripts w' = scripts w.
Proof.
  unfold report. destruct onProgress as [callback|] eqn:Hcb; [|eauto].
  match goal with |- context [callback progress ?w1] =>
    destruct (onProgress_harmless callback eq_refl progress w1) as [Hn Hs];
    destruct (callback progress w1) as [[e|] w'] end;
    simpl in *; [discriminate|eauto].
Qed.

Lemma waitForVideoCompletion_loop_frame (videoId : string) (maxAttempts intervalMs : Z)
    (attempts : list Z) :
  ∀ w, sameStore w (snd (waitForVideoCompletion_loop remote videoId maxAttempts intervalMs
                           attempts w)).
Proof.
  induction attempts as [|attempt rest IH]; intros w; [done|].
  simpl. unfold bind at 1.
  pose proof (wrapped_request remote (GetTalk videoId) "Failed to get video status: " w)
    as (Hs & _).
  fold (getVideoStatus remote videoId) in Hs.
  destruct (getVideoStatus remote videoId w) as [[status|e] w1]; simpl in Hs; [|exact Hs].
  destruct (pollStep status); [exact Hs|exact Hs|].
  unfold bind at 1.
  destruct (attempt <? maxAttempts - 1)%Z; simpl.
  - specialize (IH (mkWorld (scripts w1) (clock w1) (requests w1)
                      (timers w1 ++ [intervalMs]) (reported w1))).
    destruct Hs as (? & ? & ?), IH as (? & ? & ?). simpl in *.
    repeat split; congruence.
  - specialize (IH w1). destruct Hs as (? & ? & ?), IH as (? & ? & ?).
    repeat split; congruence.
Qed.

Lemma handler_known (scriptId : string) (script : ScriptData) (error : Thrown) (w : World) :
  scripts w !! scriptId = Some script ->
  ∃ w',
    (do! updateScriptStatus scriptId failed in
     do! report onProgress (mkVideoGenerationProgress complete failed
                              ("Error: " +:+ messageOr "Unknown error" error)) in
     ret (mkVideoGenerationResult false None (Some (messageOr "Unknown error" error)))) w
    = (Resolved (mkVideoGenerationResult false None (Some (messageOr "Unknown error" error))),
       w')
    ∧ scripts w' = <[scriptId := withStatus failed (clock w) script]> (scripts w).
Proof.
  intros Hs. unfold bind at 1, updateScriptStatus. rewrite Hs.
  unfold bind at 1.
  match goal with |- context [report onProgress ?p ?w0] =>
    destruct (report_quiet p w0) as (w1 & -> & Hsc) end.
  eexists. split; [reflexivity|]. rewrite Hsc. reflexivity.
Qed.

(** The run of [generateVideo] on a stored script. *)
Lemma generateVideo_known_run (scriptId : string) (script : ScriptData)
    (w : World) :
  scripts w !! scriptId = Some script ->
  ∃ result w' script',
    generateVideo remote presenterImageUrl onProgress scriptId w = (Resolved result, w')
    ∧ scripts w' !! scriptId = Some script'
    ∧ ((success result = true ∧ Orchestrator.status script' = completed
        ∧ videoUrl script' = result_videoUrl result ∧ is_Some (result_videoUrl result)
        ∧ result_error result = None)
       ∨ (success result = false ∧ Orchestrator.status script' = failed
          ∧ videoUrl script' = videoUrl script ∧ is_Some (result_error result)
          ∧ result_videoUrl result = None)).
Proof.
  intros Hs. unfold generateVideo, tryCatch.
  unfold bind at 1, getScript. rewrite Hs.
  unfold bind at 1. unfold updateScriptStatus at 1. rewrite Hs.
  set (w1 := setScripts _ w).
  assert (Hs1 : scripts w1 !! scriptId = Some (withStatus processing (clock w) script)).
  { subst w1. unfold setScripts. simpl. apply lookup_insert_eq. }
  clearbody w1.
  unfold bind at 1.
  match goal with |- context [report onProgress ?p w1] =>
    destruct (report_quiet p w1) as (w2 & -> & Hsc2) end.
  unfold bind at 1.
  match goal with |- context [report onProgress ?p w2] =>
    destruct (report_quiet p w2) as (w3 & -> & Hsc3) end.
  assert (Hs3 : scripts w3 !! scriptId = Some (withStatus processing (clock w) script))
    by (rewrite Hsc3, Hsc2; exact Hs1).
  unfold bind at 1.
  pose proof (wrapped_request remote (PostTalkText (content script) presenterImageUrl)
                "Video generation failed: " w3) as (Hf4 & _).
  fold (createVideoFromText remote (content script) presenterImageUrl) in Hf4.
  destruct (createVideoFromText remote (content script) presenterImageUrl w3)
    as [[videoResponse|e] w4]; simpl in Hf4; destruct Hf4 as (Hsc4 & Hc4 & _).
  2:{ cbv beta iota zeta.
      destruct (handler_known scriptId _ e w4 ltac:(rewrite Hsc4; exact Hs3))
        as (w' & -> & Hsc').
      eexists _, w', _. split; [reflexivity|].
      split; [rewrite Hsc'; apply lookup_insert_eq|].
      right. simpl. repeat split; eauto. }
  unfold bind at 1.
  pose proof (waitForVideoCompletion_loop_frame (did_id videoResponse)
                DEFAULT_MAX_ATTEMPTS DEFAULT_INTERVAL_MS
                (seqZ 0 DEFAULT_MAX_ATTEMPTS) w4) as Hf5.
  fold (waitForVideoCompletion remote (did_id videoResponse)
          DEFAULT_MAX_ATTEMPTS DEFAULT_INTERVAL_MS) in Hf5.
  destruct (waitForVideoCompletion remote (did_id videoResponse)
              DEFAULT_MAX_ATTEMPTS DEFAULT_INTERVAL_MS w4)
    as [[url|e] w5]; simpl in Hf5; destruct Hf5 as (Hsc5 & Hc5 & _).
  2:{ cbv beta iota zeta.
      destruct (handler_known scriptId _ e w5 ltac:(rewrite Hsc5, Hsc4; exact Hs3))
        as (w' & -> & Hsc').
      eexists _, w', _. split; [reflexivity|].
      split; [rewrite Hsc'; apply lookup_insert_eq|].
      right. simpl. repeat split; eauto. }
  assert (Hs5 : scripts w5 !! scriptId = Some (withStatus processing (clock w) script))
    by (rewrite Hsc5, Hsc4; exact Hs3).
  unfold bind at 1, updateScriptVideoUrl. rewrite Hs5.
  unfold bind at 1. unfold updateScriptStatus at 1. unfold setScripts. cbn [scripts clock].
  rewrite lookup_insert_eq.
  unfold bind at 1.
  match goal with |- context [report onProgress ?p ?w0] =>
    destruct (report_quiet p w0) as (w6 & -> & Hsc6) end.
  eexists _, w6, _. split; [reflexivity|].
  split; [rewrite Hsc6; cbn [scripts]; apply lookup_insert_eq|].
  left. simpl. repeat split; eauto.
Qed.

(** X19: for a script that is stored, and a callback that returns normally
    and leaves the scripts of the [DatabaseService] as they are (it may do
    anything else), [generateVideo] never rejects. It resolves either with
    [success: true]
    and the video URL, the script then being [completed] with that URL
    stored, or with [success: false] and the message of the error, the
    script then being [failed] with its [videoUrl] as before. *)
Theorem generateVideo_known_script_resolves (scriptId : string) (script : ScriptData)
    (w : World) :
  scripts w !! scriptId = Some script ->
  ∃ result w' script',
    generateVideo remote presenterImageUrl onProgress scriptId w = (Resolved result, w')
    ∧ scripts w' !! scriptId = Some script'
    ∧ ((success result = true ∧ Orchestrator.status script' = completed
        ∧ videoUrl script' = result_videoUrl result ∧ is_Some (result_videoUrl result)
        ∧ result_error result = None)
       ∨ (success result = false ∧ Orchestrator.status script' = failed
          ∧ videoUrl script' = videoUrl script ∧ is_Some (result_error result)
          ∧ result_videoUrl result = None)).
Proof. apply generateVideo_known_run. Qed.

(** X20: [createScriptAndGenerateVideo] with a callback that returns
    normally and leaves the scripts of the [DatabaseService] as they are
    never rejects: the script it creates is found by the
    generation, and the result carries the id under which the script is
    stored, in status [completed] or [failed] according to [success]. *)
Theorem createScriptAndGenerateVideo_resolves (randomPart title content : string)
    (w : World) :
  ∃ created w' script',
    createScriptAndGenerateVideo remote presenterImageUrl onProgress
      randomPart title content w = (Resolved created, w')
    ∧ scriptId created = "script_" +:+ pretty (clock w) +:+ "_" +:+ randomPart
    ∧ scripts w' !! scriptId created = Some script'
    ∧ Orchestrator.status script'
      = (if success (generation created) then completed else failed).
Proof.
  unfold createScriptAndGenerateVideo, createScript. unfold bind at 1. cbn [id].
  unfold bind at 1.
  match goal with |- context [generateVideo _ _ _ ?i ?w0] =>
    destruct (generateVideo_known_run i
                (mkScriptData i title content pending None (clock w) (clock w)) w0)
      as (result & w' & script' & Hrun & Hlook & Hcases)
  end.
  { unfold setScripts. simpl. apply lookup_insert_eq. }
  rewrite Hrun. eexists _, w', script'. split; [reflexivity|].
  split; [reflexivity|]. split; [exact Hlook|].
  simpl. destruct Hcases as [(-> & -> & _)|(-> & -> & _)]; reflexivity.
Qed.

End OrchestratorMore.

(** The condition on the callback is needed: a callback that returns
    normally but deletes the script makes [generateVideo] reject, because
    [updateScriptStatus] in the [catch] block then throws. *)
Lemma generateVideo_deleting_callback_rejects :
  fst (Orchestrator.generateVideo Cases.doneAfterTwo "https://example.com/presenter.jpg"
         (Some Cases.deletingCallback) "script_1" Cases.storedWorld)
  = Rejected (ThrowError "Script not found: script_1").
Proof. vm_compute. reflexivity. Qed.

(** ** The background route: further properties *)

Section RouteMore.
Import Route.
Variable OPENAI_API_KEY : option string.
Variable DID_API_KEY : option string.
Variable speechCreate : nat -> list N -> Outcome (list N).
Variable axiosPost : nat -> string -> string -> AxiosReply DIDCreateResponse.
Variable axiosGet : nat -> string -> AxiosReply DIDStatusResponse.
Variable base64 : list N -> string.

Ltac store_update := unfold bind at 1; unfold onStore at 1, update at 1; cbn [fst snd].
Ltac store_log := unfold bind at 1; unfold onStore at 1, log at 1; cbn [fst snd].
Ltac net_call := unfold bind at 1; unfold onNet at 1; cbn [fst snd].

(** X21: when the image the run starts with succeeds, no fallback image is
    tried: the row is completed with the URL made with that image, the
    console names that image, and the network is as the single attempt left
    it. The image is the caller's [avatarUrl] when one is given. *)
Theorem generateVideoAsync_primary_success videoId scriptContent avatarUrl store
    n0 n1 n2 audioBuffer url :
  generateAudio OPENAI_API_KEY speechCreate scriptContent n0 = (Resolved audioBuffer, n1) ->
  generateLipSyncVideo DID_API_KEY axiosPost axiosGet (base64 audioBuffer)
    (primaryAvatar avatarUrl) n1 = (Resolved url, n2) ->
  generateVideoAsync OPENAI_API_KEY DID_API_KEY speechCreate axiosPost axiosGet base64
    videoId scriptContent avatarUrl (store, n0)
  = (Resolved tt,
     (logged [LogCompleted url (estimatedDuration scriptContent) (primaryAvatar avatarUrl)]
        (patched (completedPatch url (estimatedDuration scriptContent)) videoId
           (logged [LogStep1; LogAudioGenerated (length audioBuffer); LogStep2]
              (patched processingPatch videoId store))), n2))
  ∧ (∀ given, avatarUrl = Some given -> given ≠ "" -> primaryAvatar avatarUrl = given)
  ∧ primaryAvatar None = primary DID_AVATAR_CONFIG.
Proof.
  intros Haudio H1. split; [|split; [|reflexivity]].
  - unfold generateVideoAsync, primaryAvatar in *.
    unfold tryCatch at 1. store_update. store_log. net_call. rewrite Haudio.
    store_log. store_log.
    unfold bind at 1. unfold tryCatch at 1. net_call. rewrite H1.
    cbn [fst snd]. unfold ret at 1. cbn [fst snd].
    unfold onStore, update, log, bind. cbn [fst snd].
    rewrite !logged_logged. reflexivity.
  - intros given -> Hne. unfold primaryAvatar, orElse, truthyStr.
    destruct (String.eqb_spec given ""); [done|reflexivity].
Qed.

(** X22: the fallback images are tried in order and the first success ends
    the search: when the first image fails with a retryable error and the
    first fallback succeeds, the row is completed with its URL and the second
    fallback is never requested. *)
Theorem generateVideoAsync_first_fallback videoId scriptContent avatarUrl store
    n0 n1 n2 n3 audioBuffer e1 url :
  generateAudio OPENAI_API_KEY speechCreate scriptContent n0 = (Resolved audioBuffer, n1) ->
  generateLipSyncVideo DID_API_KEY axiosPost axiosGet (base64 audioBuffer)
    (primaryAvatar avatarUrl) n1 = (Rejected e1, n2) ->
  isRetryableVGE e1 = true ->
  generateLipSyncVideo DID_API_KEY axiosPost axiosGet (base64 audioBuffer) amy n2
    = (Resolved url, n3) ->
  generateVideoAsync OPENAI_API_KEY DID_API_KEY speechCreate axiosPost axiosGet base64
    videoId scriptContent avatarUrl (store, n0)
  = (Resolved tt,
     (logged [LogCompleted url (estimatedDuration scriptContent) amy]
        (patched (completedPatch url (estimatedDuration scriptContent)) videoId
           (logged [LogStep1; LogAudioGenerated (length audioBuffer); LogStep2;
                    WarnPrimaryFailed (messageOr "" e1) 0; LogRetryFallback 1 amy]
              (patched processingPatch videoId store))), n3)).
Proof.
  intros Haudio H1 Hr H2.
  unfold generateVideoAsync, primaryAvatar in *.
  unfold tryCatch at 1. store_update. store_log. net_call. rewrite Haudio.
  store_log. store_log.
  unfold bind at 1. unfold tryCatch at 1. net_call.
  rewrite H1, Hr. cbn [andb Nat.ltb Nat.leb length fallbacks DID_AVATAR_CONFIG].
  store_log. cbn [drop].
  change (fallbacks DID_AVATAR_CONFIG) with [amy; anna].
  rewrite (fallbackLoop_success _ _ _ _ _ _ _ _ _ _ _ _ _ H2).
  cbn [fst snd]. unfold onStore, update, log, bind. cbn [fst snd].
  rewrite !logged_logged. reflexivity.
Qed.

(** The run in which the first image fails with an error that is not
    retried. *)
Lemma non_retryable_run videoId scriptContent avatarUrl store
    n0 n1 n2 audioBuffer e1 :
  generateAudio OPENAI_API_KEY speechCreate scriptContent n0 = (Resolved audioBuffer, n1) ->
  generateLipSyncVideo DID_API_KEY axiosPost axiosGet (base64 audioBuffer)
    (primaryAvatar avatarUrl) n1 = (Rejected e1, n2) ->
  isRetryableVGE e1 = false ->
  generateVideoAsync OPENAI_API_KEY DID_API_KEY speechCreate axiosPost axiosGet base64
    videoId scriptContent avatarUrl (store, n0)
  = (Resolved tt,
     (patched (failedPatch (persistedMessage e1)) videoId
        (logged [LogStep1; LogAudioGenerated (length audioBuffer); LogStep2; LogFailed e1]
           (patched processingPatch videoId store)), n2)).
Proof.
  intros Haudio H1 Hr.
  unfold generateVideoAsync, primaryAvatar in *.
  unfold tryCatch at 1. store_update. store_log. net_call. rewrite Haudio.
  store_log. store_log.
  unfold bind at 1. unfold tryCatch at 1. net_call.
  rewrite H1, Hr. cbn [andb]. unfold throw at 1.
  unfold onStore, update, log, bind. cbn [fst snd].
  rewrite !logged_logged. reflexivity.
Qed.

(** X23: an error of the first image that is not a retryable
    [VideoGenerationError] ends the run at once: no fallback image is
    requested, and the run sends the update that asks for status [failed]
    with the message of that error. The table has no column
    [error_message], so the database refuses that update: the table stays as
    the first update, to [processing], left it. *)
Theorem generateVideoAsync_non_retryable videoId scriptContent avatarUrl store
    n0 n1 n2 audioBuffer e1 :
  generateAudio OPENAI_API_KEY speechCreate scriptContent n0 = (Resolved audioBuffer, n1) ->
  generateLipSyncVideo DID_API_KEY axiosPost axiosGet (base64 audioBuffer)
    (primaryAvatar avatarUrl) n1 = (Rejected e1, n2) ->
  isRetryableVGE e1 = false ->
  ∃ store',
    generateVideoAsync OPENAI_API_KEY DID_API_KEY speechCreate axiosPost axiosGet base64
      videoId scriptContent avatarUrl (store, n0) = (Resolved tt, (store', n2))
    ∧ statements store'
      = statements store
          ++ [(videoId, processingPatch); (videoId, failedPatch (persistedMessage e1))]
    ∧ videos store' = videos (patched processingPatch videoId store)
    ∧ console store'
      = console store
          ++ [LogStep1; LogAudioGenerated (length audioBuffer); LogStep2; LogFailed e1].
Proof.
  intros Haudio H1 Hr. eexists.
  split; [exact (non_retryable_run _ _ _ _ _ _ _ _ _ Haudio H1 Hr)|].
  split; [cbn [statements patched logged]; by rewrite <- app_assoc|].
  split; [by rewrite patched_refused by apply accepted_failedPatch|].
  reflexivity.
Qed.

Lemma generateAudio_no_talk_request text (net net' : Net) (r : Outcome (list N)) :
  generateAudio OPENAI_API_KEY speechCreate text net = (r, net') ->
  posts net' = posts net ∧ gets net' = gets net ∧ timers net' = timers net.
Proof.
  unfold generateAudio, throw.
  destruct (negb (truthyStr OPENAI_API_KEY)); intros H; inversion H; done.
Qed.

(** The run in which the speech synthesis fails. *)
Lemma audio_failure_run videoId scriptContent avatarUrl store n0 n1 e :
  generateAudio OPENAI_API_KEY speechCreate scriptContent n0 = (Rejected e, n1) ->
  generateVideoAsync OPENAI_API_KEY DID_API_KEY speechCreate axiosPost axiosGet base64
    videoId scriptContent avatarUrl (store, n0)
  = (Resolved tt,
     (patched (failedPatch (persistedMessage e)) videoId
        (logged [LogStep1; LogFailed e] (patched processingPatch videoId store)), n1)).
Proof.
  intros Haudio. unfold generateVideoAsync.
  unfold tryCatch at 1. store_update. store_log. net_call. rewrite Haudio.
  unfold onStore, update, log, bind. cbn [fst snd].
  rewrite !logged_logged. reflexivity.
Qed.

(** X24: when the speech synthesis fails, the run asks D-ID for nothing: no
    talk request, status request or wait has been made, and the run sends
    the update that asks for status [failed] with the message of the speech
    error. The database refuses that update, which names [error_message]:
    the table stays as the first update left it. *)
Theorem generateVideoAsync_audio_failure videoId scriptContent avatarUrl store n0 n1 e :
  generateAudio OPENAI_API_KEY speechCreate scriptContent n0 = (Rejected e, n1) ->
  ∃ store',
    generateVideoAsync OPENAI_API_KEY DID_API_KEY speechCreate axiosPost axiosGet base64
      videoId scriptContent avatarUrl (store, n0) = (Resolved tt, (store', n1))
    ∧ statements store'
      = statements store
          ++ [(videoId, processingPatch); (videoId, failedPatch (persistedMessage e))]
    ∧ videos store' = videos (patched processingPatch videoId store)
    ∧ posts n1 = posts n0 ∧ gets n1 = gets n0 ∧ timers n1 = timers n0.
Proof.
  intros Haudio. eexists.
  split; [exact (audio_failure_run _ _ _ _ _ _ _ Haudio)|].
  split; [cbn [statements patched logged]; by rewrite <- app_assoc|].
  split; [by rewrite patched_refused by apply accepted_failedPatch|].
  by eapply generateAudio_no_talk_request.
Qed.


(** The runs without a key. *)
Lemma missing_keys_runs videoId scriptContent avatarUrl store n0 :
  (truthyStr OPENAI_API_KEY = false ->
     generateVideoAsync OPENAI_API_KEY DID_API_KEY speechCreate axiosPost axiosGet base64
       videoId scriptContent avatarUrl (store, n0)
     = (Resolved tt,
        (patched (failedPatch "OpenAI API Key is not configured") videoId
           (logged [LogStep1; LogFailed (ThrowError "OpenAI API Key is not configured")]
              (patched processingPatch videoId store)), n0)))
  ∧ (truthyStr OPENAI_API_KEY = true -> truthyStr DID_API_KEY = false ->
     ∀ audioBuffer, speechCreate (speeches n0) scriptContent = Resolved audioBuffer ->
     generateVideoAsync OPENAI_API_KEY DID_API_KEY speechCreate axiosPost axiosGet base64
       videoId scriptContent avatarUrl (store, n0)
     = (Resolved tt,
        (patched (failedPatch "D-ID API Key is not configured") videoId
           (logged [LogStep1; LogAudioGenerated (length audioBuffer); LogStep2;
                    LogFailed (ThrowVGE (mkVGE "D-ID API Key is not configured"
                                           DID_ERROR None false))]
              (patched processingPatch videoId store)),
         mkNet (posts n0) (gets n0) (S (speeches n0)) (timers n0)))).
Proof.
  split.
  - intros Hkey. unfold generateVideoAsync.
    unfold tryCatch at 1. store_update. store_log. net_call.
    unfold generateAudio. rewrite Hkey. cbn [negb]. unfold throw at 1.
    unfold onStore, update, log, bind. cbn [fst snd].
    rewrite !logged_logged. reflexivity.
  - intros Hopen Hdid audioBuffer Hspeech. unfold generateVideoAsync.
    unfold tryCatch at 1. store_update. store_log. net_call.
    unfold generateAudio. rewrite Hopen. cbn [negb]. rewrite Hspeech.
    store_log. store_log.
    unfold bind at 1. unfold tryCatch at 1. net_call.
    unfold generateLipSyncVideo at 1. rewrite Hdid. cbn [negb]. unfold throw at 1.
    cbn [fst snd isRetryableVGE retryable andb]. unfold throw at 1.
    unfold onStore, update, log, bind. cbn [fst snd].
    rewrite !logged_logged. reflexivity.
Qed.

(** X25: missing keys. Without [OPENAI_API_KEY] the run requests nothing at
    all and sends the update that asks for status [failed] with
    [OpenAI API Key is not configured]. Without [DID_API_KEY] the speech is
    synthesised, no D-ID request follows and no fallback image is tried (the
    error is not retryable); the update sent asks for [failed] with
    [D-ID API Key is not configured]. In both cases the database refuses
    that update, which names [error_message], and the table stays as the
    first update left it. *)
Theorem generateVideoAsync_missing_keys videoId scriptContent avatarUrl store n0 :
  (truthyStr OPENAI_API_KEY = false ->
     ∃ store',
       generateVideoAsync OPENAI_API_KEY DID_API_KEY speechCreate axiosPost axiosGet base64
         videoId scriptContent avatarUrl (store, n0) = (Resolved tt, (store', n0))
       ∧ statements store'
         = statements store
             ++ [(videoId, processingPatch);
                 (videoId, failedPatch "OpenAI API Key is not configured")]
       ∧ videos store' = videos (patched processingPatch videoId store))
  ∧ (truthyStr OPENAI_API_KEY = true -> truthyStr DID_API_KEY = false ->
     ∀ audioBuffer, speechCreate (speeches n0) scriptContent = Resolved audioBuffer ->
     ∃ store',
       generateVideoAsync OPENAI_API_KEY DID_API_KEY speechCreate axiosPost axiosGet base64
         videoId scriptContent avatarUrl (store, n0)
       = (Resolved tt,
          (store', mkNet (posts n0) (gets n0) (S (speeches n0)) (timers n0)))
       ∧ statements store'
         = statements store
             ++ [(videoId, processingPatch);
                 (videoId, failedPatch "D-ID API Key is not configured")]
       ∧ videos store' = videos (patched processingPatch videoId store)).
Proof.
  destruct (missing_keys_runs videoId scriptContent avatarUrl store n0) as [Hopen Hdid].
  split.
  - intros Hkey. eexists. split; [exact (Hopen Hkey)|].
    split; [cbn [statements patched logged]; by rewrite <- app_assoc|].
    by rewrite patched_refused by apply accepted_failedPatch.
  - intros Hkey Hkey' audioBuffer Hspeech. eexists.
    split; [exact (Hdid Hkey Hkey' audioBuffer Hspeech)|].
    split; [cbn [statements patched logged]; by rewrite <- app_assoc|].
    by rewrite patched_refused by apply accepted_failedPatch.
Qed.

Lemma afterPolls_afterPolls (j k : nat) (net : Net) :
  afterPolls k (afterPolls j net) = afterPolls (j + k) net.
Proof.
  unfold afterPolls. simpl. rewrite <- app_assoc, replicate_add. f_equal. lia.
Qed.

(** Every way out of the polling loop has made some number of status
    requests, each after a wait of 10 seconds. *)
Lemma pollLoop_requests (talkId : string) (attempts : list Z) :
  ∀ (net net' : Net) (r : Outcome string),
    pollLoop axiosGet talkId attempts net = (r, net') ->
    ∃ k, (k <= length attempts)%nat ∧ net' = afterPolls k net.
Proof.
  induction attempts as [|attempt rest IH]; intros net net' r H.
  - exists 0%nat. split; [done|]. inversion H. symmetry. apply afterPolls_0.
  - simpl in H. unfold bind, sleep, get, throw, ret in H. simpl in H.
    assert (Hone : mkNet (posts net) (S (gets net)) (speeches net)
                     (timers net ++ [10000%Z]) = afterPolls 1 net).
    { unfold afterPolls. simpl. f_equal. lia. }
    rewrite Hone in H.
    assert (Hstop : ∀ (r0 : Outcome string),
              (r0, afterPolls 1 net) = (r, net') ->
              ∃ k, (k <= length (attempt :: rest))%nat ∧ net' = afterPolls k net).
    { intros r0 E. inversion E. exists 1%nat. split; [simpl; lia|reflexivity]. }
    assert (Hmore : pollLoop axiosGet talkId rest (afterPolls 1 net) = (r, net') ->
              ∃ k, (k <= length (attempt :: rest))%nat ∧ net' = afterPolls k net).
    { intros E. apply IH in E as (k & Hk & ->). exists (1 + k)%nat.
      split; [simpl; lia|]. apply afterPolls_afterPolls. }
    destruct (axiosGet (gets net) talkId) as [response|? ? ?|thrown].
    + destruct (status response); eauto.
      destruct (String.eqb _ _); eauto.
    + eauto.
    + destruct thrown; eauto.
Qed.

(** X26: whatever D-ID answers, one call of [generateLipSyncVideo] sends at
    most one talk request, makes at most 60 status requests, waits exactly
    10 seconds before each of them, and makes no speech request. *)
Theorem generateLipSyncVideo_requests audioBase64 avatarUrl (net net' : Net)
    (r : Outcome string) :
  generateLipSyncVideo DID_API_KEY axiosPost axiosGet audioBase64 avatarUrl net = (r, net') ->
  (posts net' <= posts net + 1)%nat
  ∧ speeches net' = speeches net
  ∧ ∃ k, (k <= 60)%nat ∧ gets net' = (gets net + k)%nat
         ∧ timers net' = timers net ++ replicate k 10000%Z.
Proof.
  unfold generateLipSyncVideo, throw, post.
  destruct (negb (truthyStr DID_API_KEY)).
  { intros H. inversion H; subst. split; [lia|]. split; [done|].
    exists 0%nat. rewrite Nat.add_0_r, app_nil_r. split; [lia|]. split; reflexivity. }
  assert (Hzero : ∀ (r0 : Outcome string),
            (r0, mkNet (S (posts net)) (gets net) (speeches net) (timers net)) = (r, net') ->
            (posts net' <= posts net + 1)%nat ∧ speeches net' = speeches net
            ∧ ∃ k, (k <= 60)%nat ∧ gets net' = (gets net + k)%nat
                   ∧ timers net' = timers net ++ replicate k 10000%Z).
  { intros r0 E. inversion E; subst. simpl. split; [lia|]. split; [done|].
    exists 0%nat. rewrite Nat.add_0_r, app_nil_r. split; [lia|]. split; reflexivity. }
  destruct (axiosPost (posts net) avatarUrl audioBase64) as [createResponse|? ? ?|thrown].
  - intros H. apply pollLoop_requests in H as (k & Hk & ->).
    change (length (seqZ 0 maxAttempts)) with 60%nat in Hk.
    unfold afterPolls. simpl. split; [lia|]. split; [done|]. eauto.
  - apply Hzero.
  - destruct thrown; apply Hzero.
Qed.

(** X27: a talk request that fails with an HTTP error makes
    [generateLipSyncVideo] reject with a DID_ERROR without any status
    request; the error is retryable, and so lets a fallback image be tried,
    exactly when the status is 429 or 503. The message is the [description]
    of the response, else its [details], else the message of the request
    error. *)
Theorem generateLipSyncVideo_talk_request_failure audioBase64 avatarUrl (net : Net)
    http_status data message :
  truthyStr DID_API_KEY = true ->
  axiosPost (posts net) avatarUrl audioBase64 = AxiosFailed http_status data message ->
  ∃ e,
    generateLipSyncVideo DID_API_KEY axiosPost axiosGet audioBase64 avatarUrl net
    = (Rejected (ThrowVGE e),
       mkNet (S (posts net)) (gets net) (speeches net) (timers net))
    ∧ type e = DID_ERROR
    ∧ (retryable e = true ↔ http_status = Some 429%Z ∨ http_status = Some 503%Z)
    ∧ Js.message e
      = "D-ID API request failed: "
          +:+ orElse (data ≫= description) (orElse (data ≫= details) message).
Proof.
  intros Hkey Hpost. exists (requestFailedError http_status data message).
  unfold generateLipSyncVideo, post, throw. rewrite Hkey. cbn [negb]. rewrite Hpost.
  split; [reflexivity|]. split; [reflexivity|]. split; [|reflexivity].
  unfold requestFailedError. cbn [retryable].
  rewrite orb_true_iff, !bool_decide_eq_true. reflexivity.
Qed.

Lemma sameTable_refl (store : Store) : sameTable store store.
Proof. done. Qed.

Lemma sameTable_trans (s1 s2 s3 : Store) :
  sameTable s1 s2 -> sameTable s2 s3 -> sameTable s1 s3.
Proof. intros (? & ? & ?) (? & ? & ?). repeat split; congruence. Qed.

Lemma keepsTable_bind {A B} (m : Async World A) (k : A -> Async World B) :
  keepsTable m -> (∀ a, keepsTable (k a)) -> keepsTable (bind m k).
Proof.
  intros Hm Hk w. unfold bind. specialize (Hm w).
  destruct (m w) as [[a|e] w1]; simpl in Hm; [|exact Hm].
  eapply sameTable_trans; [exact Hm|apply Hk].
Qed.

Lemma keepsTable_tryCatch {A} (m : Async World A) (h : Thrown -> Async World A) :
  keepsTable m -> (∀ e, keepsTable (h e)) -> keepsTable (tryCatch m h).
Proof.
  intros Hm Hh w. unfold tryCatch. specialize (Hm w).
  destruct (m w) as [[a|e] w1]; simpl in Hm; [exact Hm|].
  eapply sameTable_trans; [exact Hm|apply Hh].
Qed.

Lemma keepsTable_ret {A} (a : A) : keepsTable (@ret World A a).
Proof. intros w. apply sameTable_refl. Qed.

Lemma keepsTable_throw {A} (e : Thrown) : keepsTable (@throw World A e).
Proof. intros w. apply sameTable_refl. Qed.

Lemma keepsTable_log (entry : LogEntry) : keepsTable (onStore (log entry)).
Proof. intros w. done. Qed.

Lemma keepsTable_onNet {A} (m : Async Net A) : keepsTable (onNet m).
Proof. intros w. unfold onNet. destruct (m (snd w)). apply sameTable_refl. Qed.

Lemma keepsTable_fallbackLoop audioBase64 (remaining : list string) :
  ∀ fallbackIndex videoUrl currentAvatar,
    keepsTable (fallbackLoop DID_API_KEY axiosPost axiosGet audioBase64 remaining
                  fallbackIndex videoUrl currentAvatar).
Proof.
  induction remaining as [|avatar rest IH]; intros fallbackIndex videoUrl currentAvatar.
  - apply keepsTable_ret.
  - simpl. apply keepsTable_tryCatch.
    + apply keepsTable_bind; [apply keepsTable_log|intros _].
      apply keepsTable_bind; [apply keepsTable_onNet|intros url; apply keepsTable_ret].
    + intros e. apply keepsTable_bind; [apply keepsTable_log|intros _].
      match goal with |- context [if ?b then _ else _] => destruct b end;
        [apply keepsTable_throw|apply IH].
Qed.

(** The attempt with the first image and, after it, with the fallbacks. *)
Lemma keepsTable_attempts audioBase64 currentAvatar :
  keepsTable
    (tryCatch
       (let! videoUrl := onNet (generateLipSyncVideo DID_API_KEY axiosPost axiosGet
                                  audioBase64 currentAvatar) in
        ret (videoUrl, currentAvatar))
       (fun error =>
          if isRetryableVGE error && (0 <? length (fallbacks DID_AVATAR_CONFIG))%nat
          then
            do! onStore (log (WarnPrimaryFailed (messageOr "" error) 0)) in
            fallbackLoop DID_API_KEY axiosPost axiosGet audioBase64
              (drop 0 (fallbacks DID_AVATAR_CONFIG)) 0 "" currentAvatar
          else throw error)).
Proof.
  apply keepsTable_tryCatch.
  - apply keepsTable_bind; [apply keepsTable_onNet|intros url; apply keepsTable_ret].
  - intros e. match goal with |- context [if ?b then _ else _] => destruct b end;
      [|apply keepsTable_throw].
    apply keepsTable_bind; [apply keepsTable_log|intros _; apply keepsTable_fallbackLoop].
Qed.

(** What a run of [generateVideoAsync] leaves in the database: the update to
    [processing], and then either the completing update or, refused, the
    update of the [catch] block. *)
Lemma generateVideoAsync_settles videoId scriptContent avatarUrl (w : World) :
  ∃ w' patch,
    generateVideoAsync OPENAI_API_KEY DID_API_KEY speechCreate axiosPost axiosGet base64
      videoId scriptContent avatarUrl w = (Resolved tt, w')
    ∧ statements (fst w')
      = statements (fst w) ++ [(videoId, processingPatch); (videoId, patch)]
    ∧ ((∃ url, patch = completedPatch url (estimatedDuration scriptContent)
               ∧ videos (fst w')
                 = updatedRows (dbClock (fst w) (S (length (statements (fst w)))))
                     patch videoId (videos (patched processingPatch videoId (fst w))))
       ∨ (∃ message, patch = failedPatch message
                     ∧ videos (fst w') = videos (patched processingPatch videoId (fst w)))).
Proof.
  unfold generateVideoAsync, tryCatch at 1.
  unfold bind at 1. unfold onStore at 1, update at 1. cbn [fst snd].
  set (w1 := (patched processingPatch videoId (fst w), snd w)).
  destruct (onStore (log LogStep1) w1) as [[[]|e2] w2] eqn:H2; [|discriminate H2].
  pose proof (keepsTable_log LogStep1 w1) as T2. rewrite H2 in T2. cbn [fst snd] in T2.
  unfold bind at 1. rewrite H2.
  assert (Hfail : ∀ (e : Thrown) (wr : World),
            sameTable (fst w1) (fst wr) ->
            ∃ w' patch,
              (do! onStore (log (LogFailed e)) in
               onStore (update (failedPatch (messageOr "動画生成に失敗しました" e)) videoId)) wr
              = (Resolved tt, w')
              ∧ statements (fst w')
                = statements (fst w) ++ [(videoId, processingPatch); (videoId, patch)]
              ∧ ((∃ url, patch = completedPatch url (estimatedDuration scriptContent)
                         ∧ videos (fst w')
                           = updatedRows
                               (dbClock (fst w) (S (length (statements (fst w)))))
                               patch videoId
                               (videos (patched processingPatch videoId (fst w))))
                 ∨ (∃ message, patch = failedPatch message
                               ∧ videos (fst w')
                                 = videos (patched processingPatch videoId (fst w))))).
  { intros e wr (Hv & Hs & Hc). eexists _, _. split; [reflexivity|].
    unfold bind, onStore, log, update. cbn [fst snd].
    split.
    - cbn [statements patched logged]. rewrite Hs. subst w1.
      cbn [fst statements patched]. by rewrite <- app_assoc.
    - right. eexists. split; [reflexivity|].
      rewrite patched_refused by apply accepted_failedPatch.
      cbn [videos logged]. rewrite Hv. reflexivity. }
  unfold bind at 1.
  pose proof (keepsTable_onNet (generateAudio OPENAI_API_KEY speechCreate scriptContent) w2)
    as T3.
  destruct (onNet (generateAudio OPENAI_API_KEY speechCreate scriptContent) w2)
    as [[audioBuffer|e3] w3]; cbn [fst snd] in T3.
  2:{ apply Hfail. eapply sameTable_trans; eassumption. }
  unfold bind at 1.
  pose proof (keepsTable_log (LogAudioGenerated (length audioBuffer)) w3) as T4.
  destruct (onStore (log (LogAudioGenerated (length audioBuffer))) w3)
    as [[[]|e4] w4] eqn:H4; [|discriminate H4]. cbn [fst snd] in T4.
  unfold bind at 1.
  pose proof (keepsTable_log LogStep2 w4) as T5.
  destruct (onStore (log LogStep2) w4) as [[[]|e5] w5] eqn:H5; [|discriminate H5].
  cbn [fst snd] in T5.
  unfold bind at 1.
  pose proof (keepsTable_attempts (base64 audioBuffer)
                (orElse avatarUrl (primary DID_AVATAR_CONFIG)) w5) as T6.
  match type of T6 with context [tryCatch ?m ?h w5] =>
    destruct (tryCatch m h w5) as [[made|e6] w6] end; cbn [fst snd] in T6.
  2:{ apply Hfail.
      eapply sameTable_trans; [|exact T6]. eapply sameTable_trans; [|exact T5].
      eapply sameTable_trans; [|exact T4]. eapply sameTable_trans; eassumption. }
  assert (T : sameTable (fst w1) (fst w6)).
  { eapply sameTable_trans; [|exact T6]. eapply sameTable_trans; [|exact T5].
    eapply sameTable_trans; [|exact T4]. eapply sameTable_trans; eassumption. }
  destruct T as (Hv & Hs & Hc). cbv zeta.
  unfold bind, onStore, update, log. cbn [fst snd].
  eexists _, _. split; [reflexivity|].
  split.
  - cbn [fst statements patched logged]. rewrite Hs. subst w1.
    cbn [fst statements patched]. by rewrite <- app_assoc.
  - left. eexists. split; [reflexivity|].
    cbn [fst videos patched logged]. rewrite Hv, Hs, Hc. subst w1.
    cbn [fst videos statements dbClock patched].
    rewrite length_app, Nat.add_1_r. reflexivity.
Qed.

(** X28: [generateVideoAsync] never rejects, whatever the remote services
    do, and it sends exactly two updates for the record: first the one to
    [processing] and at the end either the completing one or the one that
    asks for [failed] with a message. The row never ends [failed] for all
    that: the failing update names [error_message], the database refuses
    it, and a row that exists ends with status [completed] or
    [processing]. *)
Theorem generateVideoAsync_never_rejects videoId scriptContent avatarUrl (w : World) :
  ∃ w' patch,
    generateVideoAsync OPENAI_API_KEY DID_API_KEY speechCreate axiosPost axiosGet base64
      videoId scriptContent avatarUrl w = (Resolved tt, w')
    ∧ statements (fst w')
      = statements (fst w) ++ [(videoId, processingPatch); (videoId, patch)]
    ∧ ((∃ url, patch = completedPatch url (estimatedDuration scriptContent))
       ∨ (∃ message, patch = failedPatch message))
    ∧ (∀ row0, videos (fst w) !! videoId = Some row0 ->
         ∃ row, videos (fst w') !! videoId = Some row
                ∧ (row !! "status" = Some (JStr "completed")
                   ∨ row !! "status" = Some (JStr "processing"))).
Proof.
  destruct (generateVideoAsync_settles videoId scriptContent avatarUrl w)
    as (w' & patch & Hrun & Hsent & Hcases).
  exists w', patch. split; [exact Hrun|]. split; [exact Hsent|].
  split; [destruct Hcases as [(url & -> & _)|(message & -> & _)]; eauto|].
  intros row0 Hrow.
  pose proof (patched_lookup processingPatch videoId (fst w) row0
                accepted_processingPatch Hrow) as H1.
  destruct Hcases as [(url & -> & Hv)|(message & -> & Hv)]; rewrite Hv.
  - unfold updatedRows at 1. rewrite accepted_completedPatch.
    rewrite lookup_alter_eq, H1. eexists. split; [reflexivity|]. left.
    rewrite lookup_insert_ne by done. by apply lookup_union_Some_l.
  - rewrite H1. eexists. split; [reflexivity|]. right.
    rewrite lookup_insert_ne by done. by apply lookup_union_Some_l.
Qed.

End RouteMore.

(** ** The earlier generation route *)

Section LegacyFacts.
Import Route.
Variable DID_API_KEY : option string.
Variable speechCreate : nat -> list N -> Outcome (list N).
Variable axiosPost : nat -> string -> string -> AxiosReply DIDCreateResponse.
Variable axiosGet : nat -> string -> AxiosReply DIDStatusResponse.
Variable base64 : list N -> string.

(** X29: in the earlier route a failed generation writes the status and
    nothing else: the run sends the update to [processing] and the update to
    [failed], the row ends [failed], the trigger of the table refreshes
    [updated_at], and every other column, a message of the error included,
    is as it was before the run. *)
Theorem legacy_failure_writes_status_only videoId scriptContent
    (store : LegacyRoute.Store) n0 n1 n2 audioBuffer e row0 :
  LegacyRoute.videos store !! videoId = Some row0 ->
  LegacyRoute.generateAudio speechCreate scriptContent n0 = (Resolved audioBuffer, n1) ->
  LegacyRoute.generateLipSyncVideo DID_API_KEY axiosPost axiosGet (base64 audioBuffer) n1
    = (Rejected e, n2) ->
  ∃ store' row',
    LegacyRoute.generateVideoAsync DID_API_KEY speechCreate axiosPost axiosGet base64
      videoId scriptContent (store, n0) = (Resolved tt, (store', n2))
    ∧ LegacyRoute.statements store'
      = LegacyRoute.statements store
          ++ [(videoId, processingPatch); (videoId, LegacyRoute.failedPatch)]
    ∧ LegacyRoute.videos store' !! videoId = Some row'
    ∧ row' !! "status" = Some (JStr "failed")
    ∧ row' !! "updated_at"
      = Some (JTime (LegacyRoute.dbClock store
                       (S (length (LegacyRoute.statements store)))))
    ∧ (∀ column, column ≠ "status" -> column ≠ "updated_at" ->
         row' !! column = row0 !! column)
    ∧ LegacyRoute.console store'
      = LegacyRoute.console store
          ++ [LegacyRoute.LogGeneratingAudio; LegacyRoute.LogGeneratingVideo;
              LegacyRoute.LogError e].
Proof.
  intros Hrow Haudio Hvideo.
  eexists _,
    (<["updated_at" := JTime (LegacyRoute.dbClock store
                                (S (length (LegacyRoute.statements store))))]>
       (LegacyRoute.failedPatch
          ∪ <["updated_at" := JTime (LegacyRoute.dbClock store
                                       (length (LegacyRoute.statements store)))]>
              (processingPatch ∪ row0))).
  split.
  { unfold LegacyRoute.generateVideoAsync, tryCatch, bind, LegacyRoute.onStore,
      LegacyRoute.onNet, LegacyRoute.update, LegacyRoute.log.
    cbn [fst snd]. rewrite Haudio. cbn [fst snd]. rewrite Hvideo. reflexivity. }
  cbn [fst LegacyRoute.videos LegacyRoute.patched LegacyRoute.logged LegacyRoute.console
         LegacyRoute.statements LegacyRoute.dbClock].
  split; [by rewrite <- app_assoc|].
  split.
  { unfold updatedRows.
    change (accepted LegacyRoute.failedPatch) with true.
    change (accepted processingPatch) with true. cbv iota.
    rewrite !lookup_alter_eq, Hrow. cbn [fmap option_fmap option_map].
    rewrite length_app, Nat.add_1_r. reflexivity. }
  split; [rewrite lookup_insert_ne by done; by apply lookup_union_Some_l|].
  split; [apply lookup_insert_eq|].
  split.
  - intros column Hs Hu.
    rewrite lookup_insert_ne by done.
    rewrite lookup_union_r by (by apply lookup_singleton_ne).
    rewrite lookup_insert_ne by done.
    apply lookup_union_r. unfold processingPatch. by apply lookup_singleton_ne.
  - rewrite <- !app_assoc. reflexivity.
Qed.

(** X30: the polling of the earlier route gives up easily: once the talk is
    created, a status request that fails ends [generateLipSyncVideo] with the
    error of that request, and a status [done] without [result_url] ends it
    with [Video generation timed out], in both cases after that one
    request. *)
Theorem legacy_polling_gives_up audioBase64 (net : Net) createResponse :
  truthyStr DID_API_KEY = true ->
  axiosPost (posts net) LegacyRoute.sourceUrl audioBase64 = AxiosOk createResponse ->
  let after :=
    mkNet (S (posts net)) (S (gets net)) (speeches net) (timers net ++ [10000%Z]) in
  (∀ http_status data message,
     axiosGet (gets net) (create_id createResponse) = AxiosFailed http_status data message ->
     LegacyRoute.generateLipSyncVideo DID_API_KEY axiosPost axiosGet audioBase64 net
     = (Rejected (ThrowError message), after))
  ∧ (∀ response,
       axiosGet (gets net) (create_id createResponse) = AxiosOk response ->
       status response = done -> truthyStr (result_url response) = false ->
       LegacyRoute.generateLipSyncVideo DID_API_KEY axiosPost axiosGet audioBase64 net
       = (Rejected (ThrowError "Video generation timed out"), after)).
Proof.
  intros Hkey Hpost. cbv zeta.
  unfold LegacyRoute.generateLipSyncVideo, post. rewrite Hkey. cbn [negb].
  rewrite Hpost.
  change (seqZ 0 60) with (0%Z :: seqZ 1 59).
  cbn [LegacyRoute.pollLoop]. unfold bind, sleep, get, throw. cbn [gets posts speeches timers].
  split.
  - intros http_status data message Hget. rewrite Hget. reflexivity.
  - intros response Hget Hdone Hurl. rewrite Hget, Hdone, Hurl. reflexivity.
Qed.

End LegacyFacts.

(** ** The properties above on concrete runs *)

Section Runs.
Import Cases.

(** One failure, then success: two invocations and one delay of a second. *)
Lemma withRetry_recovers_witness :
  Retry.withRetry failsOnce Retry.DEFAULT_RETRY_CONFIG 0%nat
  = Retry.mkRetryRun (Resolved "success") 2%nat 2 [1000%Z].
Proof.
  apply (withRetry_recovers failsOnce Retry.DEFAULT_RETRY_CONFIG ltac:(cbn; lia)
           0%nat 1%nat 2%nat (ThrowError "temporary error") "success");
    [cbn; lia|reflexivity|reflexivity|reflexivity].
Defined.

Lemma withRetry_bounds_witness :
  (1 <= Retry.invocations (Retry.withRetry failsOnce Retry.DEFAULT_RETRY_CONFIG 0%nat)
   <= 4)%nat
  ∧ Retry.delays (Retry.withRetry failsOnce Retry.DEFAULT_RETRY_CONFIG 0%nat) = [1000%Z].
Proof.
  exact (withRetry_bounds failsOnce Retry.DEFAULT_RETRY_CONFIG ltac:(cbn; lia) 0%nat).
Defined.

(** Four invocations of an operation that always throws a plain error. *)
Lemma withRetry_runs_out_witness :
  Retry.invocations (Retry.withRetry alwaysPlainError Retry.DEFAULT_RETRY_CONFIG 0%nat)
  = 4%nat
  ∧ Retry.outcome (Retry.withRetry alwaysPlainError Retry.DEFAULT_RETRY_CONFIG 0%nat)
    = Rejected (ThrowError "persistent error")
  ∧ Retry.delays (Retry.withRetry alwaysPlainError Retry.DEFAULT_RETRY_CONFIG 0%nat)
    = [1000; 2000; 4000]%Z.
Proof.
  apply (withRetry_runs_out alwaysPlainError Retry.DEFAULT_RETRY_CONFIG ltac:(cbn; lia)
           0%nat (ThrowError "persistent error")).
  - intros k. exists (ThrowError "persistent error"). split; reflexivity.
  - reflexivity.
Defined.

(** The script [short]: two snapshots and no remote call. *)
Lemma generateVideo_invalid_script_witness :
  TestService.generateVideo asciiToLowerCase flakyOpenAI steadyDID callClock
    (Some quietCallback) shortScript (0%nat, [])
  = (Rejected (ThrowVGE (mkVGE Validation.TOO_SHORT_MESSAGE VALIDATION_ERROR None false)),
     (0%nat, [Progress.snapshot Progress.VALIDATING;
              Snapshots.errorSnapshot Validation.TOO_SHORT_MESSAGE])).
Proof.
  exact (generateVideo_invalid_script asciiToLowerCase flakyOpenAI steadyDID callClock
           quietCallback (fun p st => eq_refl) shortScript 0%nat eq_refl).
Defined.

(** A speech service that refuses: the callback receives VALIDATING,
    GENERATING_AUDIO and ERROR. *)
Lemma generateVideo_failure_snapshots_witness :
  ∃ n, (1 <= n <= 3)%nat
       ∧ Snapshots.received
           (snd (TestService.generateVideo asciiToLowerCase
                   (fun script => Snapshots.aside (brokenOpenAI script))
                   (fun audioUrl => Snapshots.aside (steadyDID audioUrl))
                   (fun st => callClock (fst st))
                   (Some (Snapshots.recording quietCallback)) validScript
                   ((0%nat, []), [])))
         = take n Snapshots.forwardSteps
             ++ [Snapshots.errorSnapshot (ERROR_MESSAGES OPENAI_ERROR)].
Proof.
  apply (generateVideo_failure_snapshots asciiToLowerCase brokenOpenAI steadyDID callClock
           quietCallback (fun p st => eq_refl) validScript 0%nat
           (snd (TestService.generateVideo asciiToLowerCase
                   (fun script => Snapshots.aside (brokenOpenAI script))
                   (fun audioUrl => Snapshots.aside (steadyDID audioUrl))
                   (fun st => callClock (fst st))
                   (Some (Snapshots.recording quietCallback)) validScript
                   ((0%nat, []), [])))
           (ThrowVGE (TestService.createApiError asciiToLowerCase
                        (ThrowError "OpenAI API Error") OPENAI_ERROR))).
  vm_compute. reflexivity.
Defined.

Lemma generateAudio_not_retried_witness :
  Retry.withRetry (TestService.generateAudio asciiToLowerCase brokenOpenAI validScript)
    Retry.DEFAULT_RETRY_CONFIG (0%nat, [])
  = Retry.mkRetryRun
      (Rejected (ThrowVGE (TestService.createApiError asciiToLowerCase
                             (ThrowError "OpenAI API Error") OPENAI_ERROR)))
      (1%nat, []) 1 [].
Proof.
  exact (generateAudio_not_retried asciiToLowerCase brokenOpenAI validScript (0%nat, [])
           (ThrowError "OpenAI API Error") 1%nat eq_refl eq_refl).
Defined.

Lemma generateVideo_observer_has_no_effect_witness :
  fst (TestService.generateVideo asciiToLowerCase flakyOpenAI steadyDID callClock
         (Some quietCallback) validScript (0%nat, []))
  = fst (TestService.generateVideo asciiToLowerCase flakyOpenAI steadyDID callClock None
           validScript (0%nat, []))
  ∧ fst (snd (TestService.generateVideo asciiToLowerCase flakyOpenAI steadyDID callClock
                (Some quietCallback) validScript (0%nat, [])))
    = fst (snd (TestService.generateVideo asciiToLowerCase flakyOpenAI steadyDID callClock
                  None validScript (0%nat, []))).
Proof.
  exact (generateVideo_observer_has_no_effect asciiToLowerCase flakyOpenAI steadyDID
           callClock quietCallback (fun p st => eq_refl) validScript 0%nat).
Defined.

Lemma updateScriptStatus_round_trip_witness :
  ∃ w', Orchestrator.updateScriptStatus "script_1" Orchestrator.completed storedWorld
        = (Resolved tt, w')
        ∧ Orchestrator.getScript "script_1" w'
          = (Resolved (Some (Database.withStatus Orchestrator.completed 1000 storedScript)),
             w')
        ∧ (∀ other, other ≠ "script_1" ->
             Orchestrator.scripts w' !! other = Orchestrator.scripts storedWorld !! other)
        ∧ Orchestrator.requests w' = 0%nat ∧ Orchestrator.timers w' = [].
Proof.
  exact (updateScriptStatus_round_trip "script_1" Orchestrator.completed storedScript
           storedWorld eq_refl).
Defined.

Lemma unknown_script_operations_witness :
  Orchestrator.updateScriptStatus "script_404" Orchestrator.failed emptyWorld
  = (Rejected (ThrowError "Script not found: script_404"), emptyWorld)
  ∧ Orchestrator.updateScriptVideoUrl "script_404" "https://example.com/video.mp4"
      emptyWorld
    = (Rejected (ThrowError "Script not found: script_404"), emptyWorld)
  ∧ Database.deleteScript "script_404" emptyWorld
    = (Rejected (ThrowError "Script not found: script_404"), emptyWorld)
  ∧ Orchestrator.getScript "script_404" emptyWorld = (Resolved None, emptyWorld).
Proof.
  exact (unknown_script_operations "script_404" "https://example.com/video.mp4"
           Orchestrator.failed emptyWorld eq_refl).
Defined.

Lemma deleteScript_removes_witness :
  ∃ w', Database.deleteScript "script_1" storedWorld = (Resolved tt, w')
        ∧ Orchestrator.getScript "script_1" w' = (Resolved None, w')
        ∧ (∀ other, other ≠ "script_1" ->
             Orchestrator.scripts w' !! other = Orchestrator.scripts storedWorld !! other)
        ∧ Database.deleteScript "script_1" w'
          = (Rejected (ThrowError "Script not found: script_1"), w').
Proof.
  exact (deleteScript_removes "script_1" storedScript storedWorld eq_refl).
Defined.

(** Two responses [started], then [done]: three requests and two waits. *)
Lemma waitForVideoCompletion_returns_url_witness :
  Orchestrator.waitForVideoCompletion doneAfterTwo "tlk_1" 30 5000 emptyWorld
  = (Resolved "https://d-id.example/result.mp4",
     Orchestrator.mkWorld ∅ 0 3 [5000; 5000]%Z []).
Proof.
  apply (waitForVideoCompletion_returns_url doneAfterTwo "tlk_1" 30 5000 2 emptyWorld
           (okResponse "done" (Some "https://d-id.example/result.mp4"))
           (Orchestrator.mkDIDResponse "tlk_1" "done"
              (Some "https://d-id.example/result.mp4"))
           "https://d-id.example/result.mp4").
  - lia.
  - intros i Hi.
    exists (okResponse "started" None), (Orchestrator.mkDIDResponse "tlk_1" "started" None).
    destruct i as [|[|i]]; [| |lia];
      (split; [reflexivity|]); (split; [reflexivity|]); split; reflexivity.
  - reflexivity.
  - reflexivity.
  - reflexivity.
  - reflexivity.
  - reflexivity.
  - discriminate.
Defined.

Lemma waitForVideoCompletion_error_status_witness :
  Orchestrator.waitForVideoCompletion errorStatusRemote "tlk_1" 30 5000 emptyWorld
  = (Rejected (ThrowError "Video generation failed"), Orchestrator.mkWorld ∅ 0 1 [] []).
Proof.
  apply (waitForVideoCompletion_error_status errorStatusRemote "tlk_1" 30 5000 0 emptyWorld
           (okResponse "error" None) (Orchestrator.mkDIDResponse "tlk_1" "error" None)).
  - lia.
  - intros i Hi. lia.
  - reflexivity.
  - reflexivity.
  - reflexivity.
  - reflexivity.
Defined.

Lemma waitForVideoCompletion_request_failure_witness :
  Orchestrator.waitForVideoCompletion unavailableRemote "tlk_1" 30 5000 emptyWorld
  = (Rejected (ThrowError
                 "Failed to get video status: D-ID API error: 503 Service Unavailable"),
     Orchestrator.mkWorld ∅ 0 1 [] []).
Proof.
  apply (waitForVideoCompletion_request_failure unavailableRemote "tlk_1" 30 5000 0
           emptyWorld unavailableResponse).
  - lia.
  - intros i Hi. lia.
  - reflexivity.
  - reflexivity.
Defined.

(** Three attempts that all read [rejected]. *)
Lemma waitForVideoCompletion_other_status_times_out_witness :
  (∀ id url,
     Orchestrator.pollStep (Orchestrator.mkDIDResponse id "rejected" url)
     = Orchestrator.PollContinue)
  ∧ Orchestrator.waitForVideoCompletion rejectedStatusRemote "tlk_1" 3 5000 emptyWorld
    = (Rejected (ThrowError "Video generation timeout"),
       Orchestrator.mkWorld ∅ 0 3 [5000; 5000]%Z []).
Proof.
  apply (waitForVideoCompletion_other_status_times_out rejectedStatusRemote "tlk_1" 3 5000
           emptyWorld).
  intros i.
  exists (okResponse "rejected" None), (Orchestrator.mkDIDResponse "tlk_1" "rejected" None).
  (split; [reflexivity|]); (split; [reflexivity|]); split; reflexivity.
Defined.

(** A stored script whose talk never gets a result, with a callback that
    only lets time pass: the run resolves. *)
Lemma generateVideo_known_script_resolves_witness :
  ∃ result w' script',
    Orchestrator.generateVideo doneNoUrlRemote "https://example.com/presenter.jpg"
      (Some tickingCallback) "script_1" storedWorld = (Resolved result, w')
    ∧ Orchestrator.scripts w' !! "script_1" = Some script'
    ∧ ((Orchestrator.success result = true
        ∧ Orchestrator.status script' = Orchestrator.completed
        ∧ Orchestrator.videoUrl script' = Orchestrator.result_videoUrl result
        ∧ is_Some (Orchestrator.result_videoUrl result)
        ∧ Orchestrator.result_error result = None)
       ∨ (Orchestrator.success result = false
          ∧ Orchestrator.status script' = Orchestrator.failed
          ∧ Orchestrator.videoUrl script' = Orchestrator.videoUrl storedScript
          ∧ is_Some (Orchestrator.result_error result)
          ∧ Orchestrator.result_videoUrl result = None)).
Proof.
  apply (generateVideo_known_script_resolves doneNoUrlRemote
           "https://example.com/presenter.jpg" (Some tickingCallback)).
  - intros callback H progress w. inversion H; subst callback. split; reflexivity.
  - apply lookup_singleton_eq.
Defined.

Lemma createScriptAndGenerateVideo_resolves_witness :
  ∃ created w' script',
    Database.createScriptAndGenerateVideo doneNoUrlRemote
      "https://example.com/presenter.jpg" (Some tickingCallback) "k3x9b" "Test"
      "This is a test script" emptyWorld = (Resolved created, w')
    ∧ Database.scriptId created = "script_" +:+ pretty 0%Z +:+ "_" +:+ "k3x9b"
    ∧ Orchestrator.scripts w' !! Database.scriptId created = Some script'
    ∧ Orchestrator.status script'
      = (if Orchestrator.success (Database.generation created)
         then Orchestrator.completed else Orchestrator.failed).
Proof.
  apply (createScriptAndGenerateVideo_resolves doneNoUrlRemote
           "https://example.com/presenter.jpg" (Some tickingCallback)).
  intros callback H progress w. inversion H; subst callback. split; reflexivity.
Defined.

(** The first image succeeds. *)
Lemma generateVideoAsync_primary_success_witness :
  Route.generateVideoAsync apiKey apiKey speechOk talkCreated statusDone base64Stub
    "video_1" validScript None (pendingStore, idleNet)
  = (Resolved tt,
     (Route.logged
        [Route.LogCompleted "https://d-id.example/result.mp4" 2
           (Route.primary Route.DID_AVATAR_CONFIG)]
        (Route.patched (Route.completedPatch "https://d-id.example/result.mp4" 2) "video_1"
           (Route.logged [Route.LogStep1; Route.LogAudioGenerated 3; Route.LogStep2]
              (Route.patched Route.processingPatch "video_1" pendingStore))),
      Route.mkNet 1 1 1 [10000%Z])).
Proof.
  exact (proj1 (generateVideoAsync_primary_success apiKey apiKey speechOk talkCreated
                  statusDone base64Stub "video_1" validScript None pendingStore
                  idleNet (Route.mkNet 0 0 1 []) (Route.mkNet 1 1 1 [10000%Z])
                  [73; 68; 51]%N "https://d-id.example/result.mp4" eq_refl eq_refl)).
Defined.

(** The first image is turned away with 429, the first fallback succeeds. *)
Lemma generateVideoAsync_first_fallback_witness :
  Route.generateVideoAsync apiKey apiKey speechOk secondTalkCreated statusDone base64Stub
    "video_1" validScript None (pendingStore, idleNet)
  = (Resolved tt,
     (Route.logged [Route.LogCompleted "https://d-id.example/result.mp4" 2 Route.amy]
        (Route.patched (Route.completedPatch "https://d-id.example/result.mp4" 2) "video_1"
           (Route.logged
              [Route.LogStep1; Route.LogAudioGenerated 3; Route.LogStep2;
               Route.WarnPrimaryFailed
                 "D-ID API request failed: Request failed with status code 429" 0;
               Route.LogRetryFallback 1 Route.amy]
              (Route.patched Route.processingPatch "video_1" pendingStore))),
      Route.mkNet 2 1 1 [10000%Z])).
Proof.
  exact (generateVideoAsync_first_fallback apiKey apiKey speechOk secondTalkCreated
           statusDone base64Stub "video_1" validScript None pendingStore
           idleNet (Route.mkNet 0 0 1 []) (Route.mkNet 1 0 1 [])
           (Route.mkNet 2 1 1 [10000%Z]) [73; 68; 51]%N
           (ThrowVGE (Route.requestFailedError (Some 429%Z) None
                        "Request failed with status code 429"))
           "https://d-id.example/result.mp4" eq_refl eq_refl eq_refl eq_refl).
Defined.

(** The first image is refused with 400: one talk request and no more; the
    update to [failed] is sent and the row stays [processing]. *)
Lemma generateVideoAsync_non_retryable_witness :
  ∃ store',
    Route.generateVideoAsync apiKey apiKey speechOk badRequest statusDone base64Stub
      "video_1" validScript None (pendingStore, idleNet)
    = (Resolved tt, (store', Route.mkNet 1 0 1 []))
    ∧ Route.statements store'
      = [ ("video_1", Route.processingPatch);
          ("video_1",
           Route.failedPatch
             "D-ID API request failed: Request failed with status code 400") ]
    ∧ Route.videos store' = Route.videos (Route.patched Route.processingPatch "video_1"
                                            pendingStore).
Proof.
  destruct (generateVideoAsync_non_retryable apiKey apiKey speechOk badRequest
              statusDone base64Stub "video_1" validScript None pendingStore
              idleNet (Route.mkNet 0 0 1 []) (Route.mkNet 1 0 1 []) [73; 68; 51]%N
              (ThrowVGE (Route.requestFailedError (Some 400%Z) None
                           "Request failed with status code 400"))
              eq_refl eq_refl eq_refl)
    as (store' & Hrun & Hsent & Hrows & _).
  exists store'. split; [exact Hrun|]. split; [exact Hsent|exact Hrows].
Defined.

Lemma generateVideoAsync_audio_failure_witness :
  ∃ store',
    Route.generateVideoAsync apiKey apiKey speechFails talkCreated statusDone base64Stub
      "video_1" validScript None (pendingStore, idleNet)
    = (Resolved tt, (store', Route.mkNet 0 0 1 []))
    ∧ Route.statements store'
      = [ ("video_1", Route.processingPatch);
          ("video_1", Route.failedPatch "Connection error.") ]
    ∧ Route.videos store' = Route.videos (Route.patched Route.processingPatch "video_1"
                                            pendingStore).
Proof.
  destruct (generateVideoAsync_audio_failure apiKey apiKey speechFails talkCreated
              statusDone base64Stub "video_1" validScript None pendingStore
              idleNet (Route.mkNet 0 0 1 []) (ThrowError "Connection error.") eq_refl)
    as (store' & Hrun & Hsent & Hrows & _).
  exists store'. split; [exact Hrun|]. split; [exact Hsent|exact Hrows].
Defined.

(** No key for the speech service: nothing is requested. *)
Lemma generateVideoAsync_missing_keys_witness :
  ∃ store',
    Route.generateVideoAsync None apiKey speechOk talkCreated statusDone base64Stub
      "video_1" validScript None (pendingStore, idleNet)
    = (Resolved tt, (store', idleNet))
    ∧ Route.statements store'
      = [ ("video_1", Route.processingPatch);
          ("video_1", Route.failedPatch "OpenAI API Key is not configured") ]
    ∧ Route.videos store' = Route.videos (Route.patched Route.processingPatch "video_1"
                                            pendingStore).
Proof.
  exact (proj1 (generateVideoAsync_missing_keys None apiKey speechOk talkCreated
                  statusDone base64Stub "video_1" validScript None pendingStore idleNet)
           eq_refl).
Defined.

(** One talk request, one status request, one wait. *)
Lemma generateLipSyncVideo_requests_witness :
  ∃ k, (k <= 60)%nat
       ∧ Route.gets (snd (Route.generateLipSyncVideo apiKey talkCreated statusDone "SUQz"
                            Route.amy idleNet)) = (0 + k)%nat
       ∧ Route.timers (snd (Route.generateLipSyncVideo apiKey talkCreated statusDone "SUQz"
                              Route.amy idleNet)) = [] ++ replicate k 10000%Z.
Proof.
  exact (proj2 (proj2 (generateLipSyncVideo_requests apiKey talkCreated statusDone "SUQz"
                         Route.amy idleNet
                         (snd (Route.generateLipSyncVideo apiKey talkCreated statusDone
                                 "SUQz" Route.amy idleNet))
                         (Resolved "https://d-id.example/result.mp4") eq_refl))).
Defined.

Lemma generateLipSyncVideo_talk_request_failure_witness :
  ∃ e,
    Route.generateLipSyncVideo apiKey noTalkCreated statusDone "SUQz" Route.amy idleNet
    = (Rejected (ThrowVGE e), Route.mkNet 1 0 0 [])
    ∧ type e = DID_ERROR
    ∧ (retryable e = true ↔ Some 429%Z = Some 429%Z ∨ Some 429%Z = Some 503%Z)
    ∧ Js.message e = "D-ID API request failed: Request failed with status code 429".
Proof.
  exact (generateLipSyncVideo_talk_request_failure apiKey noTalkCreated statusDone "SUQz"
           Route.amy idleNet (Some 429%Z) None "Request failed with status code 429"
           eq_refl eq_refl).
Defined.

(** The earlier route when the talk request is turned away. *)
Lemma legacy_failure_writes_status_only_witness :
  ∃ store' row',
    LegacyRoute.generateVideoAsync apiKey speechOk noTalkCreated statusDone base64Stub
      "video_1" validScript (legacyStore, idleNet)
    = (Resolved tt, (store', Route.mkNet 1 0 1 []))
    ∧ LegacyRoute.statements store'
      = [ ("video_1", Route.processingPatch); ("video_1", LegacyRoute.failedPatch) ]
    ∧ LegacyRoute.videos store' !! "video_1" = Some row'
    ∧ row' !! "status" = Some (Route.JStr "failed")
    ∧ row' !! "updated_at" = Some (Route.JTime 11000)
    ∧ row' !! "error_message" = None.
Proof.
  destruct (legacy_failure_writes_status_only apiKey speechOk noTalkCreated statusDone
              base64Stub "video_1" validScript legacyStore idleNet (Route.mkNet 0 0 1 [])
              (Route.mkNet 1 0 1 []) [73; 68; 51]%N
              (ThrowError "Request failed with status code 429") pendingRow
              (lookup_singleton_eq _ _) eq_refl eq_refl)
    as (store' & row' & Hrun & Hsent & Hrow & Hstatus & Htime & Hframe & _).
  exists store', row'.
  split; [exact Hrun|]. split; [exact Hsent|]. split; [exact Hrow|].
  split; [exact Hstatus|]. split; [exact Htime|].
  rewrite Hframe by done.
  unfold pendingRow. by rewrite !lookup_insert_ne, lookup_singleton_ne.
Defined.

Lemma legacy_polling_gives_up_witness :
  LegacyRoute.generateLipSyncVideo apiKey talkCreated statusUnreachable "SUQz" idleNet
  = (Rejected (ThrowError "Request failed with status code 502"),
     Route.mkNet 1 1 0 [10000%Z]).
Proof.
  exact (proj1 (legacy_polling_gives_up apiKey talkCreated statusUnreachable "SUQz" idleNet
                  (Route.mkDIDCreateResponse "tlk_1" "created") eq_refl eq_refl)
           (Some 502%Z) None "Request failed with status code 502" eq_refl).
Defined.

End Runs.
